(** * agentauth: the request-handling pipeline of the auth-injecting proxy

    A shallow embedding of [config.ts] ([loadConfig], [isPathAllowed]),
    [proxy.ts] ([AuthProxy.handleRequest], [forward], [deny], [audit]),
    [audit.ts] ([AuditEntry], [AuditLog]), [cli.ts] ([parseCliOptions],
    [cmdInit]), [index.ts] (the options of the foreground command) and
    [env-doctor.ts] ([envDoctor]).

    Conventions.
    - A JavaScript string is the list of its UTF-16 code units ([list N]);
      [js "..."] turns a literal into that representation.
    - A JavaScript object used as a dictionary of headers ([req.headers],
      [backend.headers], [proxyRes.headers]) is a [gmap] over its own
      enumerable properties.  [config.backends], whose keys are listed by
      [Object.keys] and which is indexed with a name the client chooses,
      is the list of its own properties in the order [Object.keys] gives
      them; indexing it also finds what [Object.prototype] holds.
    - [new URL] is Node's: it is a parameter of [forward], [None] where it
      throws.
    - [Date.now()] and [new Date().toISOString()] are inputs of the handler
      that reads them.
    - A body sent with [res.end(JSON.stringify(v))] is kept as the value [v]. *)

From Stdlib Require Import ZArith NArith Ascii String List Lia DecimalString.
From stdpp Require Import base option list gmap fin_maps.

Open Scope Z_scope.

(* ===================================================================== *)
(** ** JavaScript strings *)
(* ===================================================================== *)

Module JS.

(** The code units of a literal. *)
Definition js (s : string) : list N :=
  List.map N_of_ascii (list_ascii_of_string s).

Fixpoint startsWith (s p : list N) {struct p} : bool :=
  match p, s with
  | [], _ => true
  | _ :: _, [] => false
  | a :: p', b :: s' => N.eqb a b && startsWith s' p'
  end.

(** [s.endsWith(p)] *)
Definition endsWith (s p : list N) : bool :=
  startsWith (rev s) (rev p).

(** [s.slice(0, -1)]: everything but the last code unit. *)
Definition slice0m1 (s : list N) : list N := removelast s.

(** [s === t] *)
Fixpoint streq (s t : list N) : bool :=
  match s, t with
  | [], [] => true
  | a :: s', b :: t' => N.eqb a b && streq s' t'
  | _, _ => false
  end.

(** Position of the first occurrence of [p] in [s], counted from [i]. *)
Fixpoint indexFrom (s p : list N) (i : Z) : Z :=
  match s with
  | [] => if startsWith [] p then i else -1
  | _ :: s' => if startsWith s p then i else indexFrom s' p (i + 1)
  end.

(** [s.indexOf(p, from)]; [from] is clamped to the length of [s]. *)
Definition indexOf (s p : list N) (from : nat) : Z :=
  indexFrom (drop from s) p (Z.of_nat (Nat.min from (length s))).

(** [s.includes(p)] *)
Definition includes (s p : list N) : bool :=
  negb (indexOf s p 0 =? -1).

(** [s.substring(a, b)]: both ends clamped to [0, length], swapped when
    [a > b]. *)
Definition substring (s : list N) (a b : Z) : list N :=
  let len := Z.of_nat (length s) in
  let a' := Z.max 0 (Z.min a len) in
  let b' := Z.max 0 (Z.min b len) in
  let lo := Z.min a' b' in
  let hi := Z.max a' b' in
  take (Z.to_nat (hi - lo)) (drop (Z.to_nat lo) s).

(** [s.substring(a)] *)
Definition substringFrom (s : list N) (a : Z) : list N :=
  substring s a (Z.of_nat (length s)).

(** [s.split(c)] for a one-unit separator [c]. *)
Fixpoint split (c : N) (s : list N) : list (list N) :=
  match s with
  | [] => [[]]
  | x :: s' =>
      if N.eqb x c then [] :: split c s'
      else match split c s' with
           | [] => [[x]]
           | w :: ws => (x :: w) :: ws
           end
  end.

(** [a[0]] of an array of strings; [split] never returns the empty array. *)
Definition first (a : list (list N)) : list N := List.hd [] a.

(** [`${n}`] for an integral number. *)
Definition numberToString (n : Z) : list N :=
  js (NilZero.string_of_int (Z.to_int n)).

(** [String.prototype.toLowerCase] on one code unit of the Latin-1 range,
    where HTTP header names live: [A-Z] and the accented capitals
    U+00C0..U+00DE (U+00D7, the multiplication sign, excepted) move up by
    0x20. *)
Definition lowerUnit (c : N) : N :=
  (if (65 <=? c) && (c <=? 90) then c + 32
   else if (192 <=? c) && (c <=? 222) && negb (c =? 215) then c + 32
   else c)%N.

Definition toLowerCase (s : list N) : list N := List.map lowerUnit s.

End JS.

Import JS.

(* ===================================================================== *)
(** ** config.ts: the path allowlist *)
(* ===================================================================== *)

(** One round of the [for (const pattern of allowedPaths)] body. *)
Definition patternMatches (path pattern : list N) : bool :=
  if endsWith pattern (js "*") then
    let prefix := slice0m1 pattern in
    startsWith path prefix
  else streq path pattern.

Fixpoint anyPattern (path : list N) (patterns : list (list N)) : bool :=
  match patterns with
  | [] => false
  | pattern :: rest =>
      if patternMatches path pattern then true else anyPattern path rest
  end.

Definition isPathAllowed (path : list N) (allowedPaths : option (list (list N))) : bool :=
  match allowedPaths with
  | None => true
  | Some [] => true
  | Some l => anyPattern path l
  end.

(* ===================================================================== *)
(** ** Exceptions *)
(* ===================================================================== *)

(** The exceptions that leave the proxy's code uncaught: [writeHead] on a
    response whose headers are sent, [new URL] on what is no URL, and
    [Object.entries(undefined)].  The URIError of [decodeURIComponent] is
    caught where it is raised. *)
Inductive JsError :=
| ERR_HTTP_HEADERS_SENT
| ERR_INVALID_URL
| TypeError_undefined_to_object.

(** The outcome of a statement sequence over a state [S]: it runs to its
    end, or it throws and leaves the state as it was at the [throw]. *)
Inductive result (S : Type) :=
| Ok (s : S)
| Throw (e : JsError) (s : S).
Arguments Ok {S} s.
Arguments Throw {S} e s.

Definition stateOf {S : Type} (r : result S) : S :=
  match r with Ok s => s | Throw _ s => s end.

(* ===================================================================== *)
(** ** decodeURIComponent (ECMA-262, Decode with an empty reserved set) *)
(* ===================================================================== *)

Module URI.

Definition hexDigit (c : N) : option N :=
  (if (48 <=? c) && (c <=? 57) then Some (c - 48)
   else if (65 <=? c) && (c <=? 70) then Some (c - 55)
   else if (97 <=? c) && (c <=? 102) then Some (c - 87)
   else None)%N.

(** ParseHexOctet on the two code units after a ['%']. *)
Definition parseHexOctet (h l : N) : option N :=
  match hexDigit h, hexDigit l with
  | Some a, Some b => Some (16 * a + b)%N
  | _, _ => None
  end.

(** The next ["%XX"] group of the string, with what follows it. *)
Definition escapeOctet (s : list N) : option (N * list N) :=
  match s with
  | p :: h :: l :: rest =>
      if (p =? 37)%N then
        match parseHexOctet h l with
        | Some b => Some (b, rest)
        | None => None
        end
      else None
  | _ => None
  end.

Definition inRange (lo hi b : N) : bool := ((lo <=? b) && (b <=? hi))%N.

(** Range of the second octet of a well-formed UTF-8 sequence, by its
    first octet (Unicode, table 3-7): no overlong forms, no surrogates,
    nothing above U+10FFFF. *)
Definition secondOctetOk (b1 b2 : N) : bool :=
  (if b1 =? 0xE0 then inRange 0xA0 0xBF b2
   else if b1 =? 0xED then inRange 0x80 0x9F b2
   else if b1 =? 0xF0 then inRange 0x90 0xBF b2
   else if b1 =? 0xF4 then inRange 0x80 0x8F b2
   else inRange 0x80 0xBF b2)%N.

Definition contOk (b : N) : bool := inRange 0x80 0xBF b.

Definition UTF16EncodeCodePoint (v : N) : list N :=
  (if v <? 0x10000 then [v]
   else [0xD800 + (v - 0x10000) / 0x400; 0xDC00 + (v - 0x10000) mod 0x400])%N.

(** One round of the loop of Decode: the code units it appends to the
    result and the rest of the input, or [None] where it throws. *)
Definition decodeOne (s : list N) : option (list N * list N) :=
  match s with
  | [] => None
  | c :: t =>
      if negb (c =? 37)%N then Some ([c], t)
      else
        match escapeOctet s with
        | None => None
        | Some (b, r1) =>
            if (b <? 0x80)%N then Some ([b], r1)
            else if (b <? 0xC2)%N then None
            else if (b <? 0xE0)%N then
              match escapeOctet r1 with
              | Some (b2, r2) =>
                  if secondOctetOk b b2
                  then Some (UTF16EncodeCodePoint
                               ((b - 0xC0) * 0x40 + (b2 - 0x80))%N, r2)
                  else None
              | None => None
              end
            else if (b <? 0xF0)%N then
              match escapeOctet r1 with
              | Some (b2, r2) =>
                  match escapeOctet r2 with
                  | Some (b3, r3) =>
                      if secondOctetOk b b2 && contOk b3
                      then Some (UTF16EncodeCodePoint
                                   ((b - 0xE0) * 0x1000 + (b2 - 0x80) * 0x40
                                    + (b3 - 0x80))%N, r3)
                      else None
                  | None => None
                  end
              | None => None
              end
            else if (b <? 0xF5)%N then
              match escapeOctet r1 with
              | Some (b2, r2) =>
                  match escapeOctet r2 with
                  | Some (b3, r3) =>
                      match escapeOctet r3 with
                      | Some (b4, r4) =>
                          if secondOctetOk b b2 && contOk b3 && contOk b4
                          then Some (UTF16EncodeCodePoint
                                       ((b - 0xF0) * 0x40000
                                        + (b2 - 0x80) * 0x1000
                                        + (b3 - 0x80) * 0x40
                                        + (b4 - 0x80))%N, r4)
                          else None
                      | None => None
                      end
                  | None => None
                  end
              | None => None
              end
            else None
        end
  end.

(** The loop of Decode; every round consumes at least one code unit, so
    [length s] rounds are enough. *)
Fixpoint decodeLoop (fuel : nat) (s : list N) : option (list N) :=
  match s with
  | [] => Some []
  | _ :: _ =>
      match fuel with
      | O => None
      | S fuel' =>
          match decodeOne s with
          | None => None
          | Some (out, rest) =>
              match decodeLoop fuel' rest with
              | Some r => Some (out ++ r)
              | None => None
              end
          end
      end
  end.

(** [decodeURIComponent(s)]; [None] is the URIError it throws. *)
Definition decodeURIComponent (s : list N) : option (list N) :=
  decodeLoop (length s) s.

End URI.

Import URI.

(* ===================================================================== *)
(** ** Data *)
(* ===================================================================== *)

(** A header value of Node's [IncomingHttpHeaders]/[OutgoingHttpHeaders]:
    [string | string[]]. *)
Inductive HeaderValue :=
| HString (s : list N)
| HArray (l : list (list N)).

(** The argument of a [JSON.stringify] call. *)
#[local] Set Warnings "-register-all".
Inductive JSON :=
| JString (s : list N)
| JNumber (n : Z)
| JArray (l : list JSON)
| JObject (fields : list (list N * JSON)).

(** config.ts *)
Module Config.

Record BackendConfig := {
  target : list N;
  headers : gmap (list N) (list N);
  allowedPaths : option (list (list N));
  (* read by [forward] as [backend.maxBodyBytes] *)
  maxBodyBytes : option Z;
}.

(** [backends] is a plain object, as [JSON.parse] and an object literal
    make it: its own properties in the order in which [Object.keys] and
    [Object.entries] list them, each name once. *)
Record AgentAuthConfig := {
  port : Z;
  bind : list N;
  backends : list (list N * BackendConfig);
  auditLog : option (list N);
}.

(** The own property [key] of an object kept as its entries. *)
Fixpoint ownProperty {A : Type} (entries : list (list N * A)) (key : list N)
  : option A :=
  match entries with
  | [] => None
  | (k, v) :: rest => if streq k key then Some v else ownProperty rest key
  end.

(** The names that every plain object inherits from [Object.prototype]:
    eleven functions and the accessor [__proto__], all of them truthy and
    none of them with a [target], [headers], [allowedPaths] or
    [maxBodyBytes]. *)
Definition objectPrototypeKeys : list (list N) :=
  [js "constructor"; js "__defineGetter__"; js "__defineSetter__";
   js "hasOwnProperty"; js "__lookupGetter__"; js "__lookupSetter__";
   js "isPrototypeOf"; js "propertyIsEnumerable"; js "toString";
   js "valueOf"; js "__proto__"; js "toLocaleString"].

(** What [backends[name]] evaluates to when it is not [undefined]. *)
Inductive BackendValue :=
| Own (backend : BackendConfig)
| Inherited.

(** [backends[name]]: the own property, else what the prototype chain
    holds under that name; [None] is [undefined]. *)
Definition getBackend (backends : list (list N * BackendConfig))
    (name : list N) : option BackendValue :=
  match ownProperty backends name with
  | Some backend => Some (Own backend)
  | None =>
      if existsb (fun k => streq name k) objectPrototypeKeys
      then Some Inherited else None
  end.

(** [backend.target], [backend.headers], [backend.allowedPaths] and
    [backend.maxBodyBytes]; [None] is [undefined]. *)
Definition targetOf (v : BackendValue) : option (list N) :=
  match v with Own b => Some (target b) | Inherited => None end.

Definition headersOf (v : BackendValue) : option (gmap (list N) (list N)) :=
  match v with Own b => Some (headers b) | Inherited => None end.

Definition allowedPathsOf (v : BackendValue) : option (list (list N)) :=
  match v with Own b => allowedPaths b | Inherited => None end.

Definition maxBodyBytesOf (v : BackendValue) : option Z :=
  match v with Own b => maxBodyBytes b | Inherited => None end.

End Config.

(** audit.ts *)
Module Audit.

Record AuditEntry := {
  ts : list N;
  backend : list N;
  method : list N;
  path : list N;
  status : option Z;
  durationMs : option Z;
  allowed : bool;
  reason : option (list N);
}.

(** The log file is kept as the entries whose JSON lines were appended to
    it; [fd] is the open descriptor, if any. *)
Record AuditLog := {
  fd : option Z;
  logPath : list N;
  lines : list AuditEntry;
}.

(** [AuditLog.write] *)
Definition write (log : AuditLog) (entry : AuditEntry) : AuditLog :=
  match fd log with
  | None => log
  | Some _ =>
      {| fd := fd log; logPath := logPath log; lines := lines log ++ [entry] |}
  end.

End Audit.

(** The parts of Node's [http] objects that the proxy touches.  A
    [ServerResponse] records what the handlers gave to [writeHead],
    [write] and [end], and what of it went out on the connection. *)
Module Http.

Record IncomingMessage := {
  url : option (list N);
  method : option (list N);
  headers : gmap (list N) HeaderValue;
}.

Inductive Payload :=
| Json (v : JSON)
| Chunk (data : list Byte.byte).

(** [_header] is the status line and header block once [writeHead] has
    stored it; [body] is what [write]/[end] were given, in order.
    [socketDestroyed] is the state of the connection to the client, the
    one socket under the request and its response.  [wire] is what has
    been written to that socket: [None] while nothing has, [Some ps] once
    the header block and the payloads [ps] have. *)
Record ServerResponse := {
  _header : option (Z * gmap (list N) HeaderValue);
  body : list Payload;
  writableEnded : bool;
  socketDestroyed : bool;
  wire : option (list Payload);
}.

Definition freshResponse : ServerResponse :=
  {| _header := None; body := []; writableEnded := false;
     socketDestroyed := false; wire := None |}.

(** [res.headersSent] *)
Definition headersSent (res : ServerResponse) : bool :=
  match _header res with Some _ => true | None => false end.

(** [res.writeHead(status, headers)] throws once the headers are sent; it
    stores the header block and writes nothing yet. *)
Definition writeHead (res : ServerResponse) (status : Z)
    (hdrs : gmap (list N) HeaderValue) : result ServerResponse :=
  if headersSent res then Throw ERR_HTTP_HEADERS_SENT res
  else Ok {| _header := Some (status, hdrs);
             body := body res;
             writableEnded := writableEnded res;
             socketDestroyed := socketDestroyed res;
             wire := wire res |}.

(** A response written to without [writeHead] gets the implicit header,
    status 200. *)
Definition implicitHeader (res : ServerResponse) : ServerResponse :=
  match _header res with
  | Some _ => res
  | None =>
      {| _header := Some (200, ∅);
         body := body res;
         writableEnded := writableEnded res;
         socketDestroyed := socketDestroyed res;
         wire := wire res |}
  end.

(** What is on the socket after [data] has been written to it, the header
    block going first if it has not gone yet; a destroyed socket takes
    nothing. *)
Definition sent (res : ServerResponse) (data : Payload)
  : option (list Payload) :=
  if socketDestroyed res then wire res
  else Some (default [] (wire res) ++ [data]).

(** What is on the socket after a flush: the header block at least. *)
Definition flushed (res : ServerResponse) : option (list Payload) :=
  if socketDestroyed res then wire res
  else Some (default [] (wire res)).

(** [res.write(chunk)] *)
Definition write (res : ServerResponse) (data : Payload) : ServerResponse :=
  let res1 := implicitHeader res in
  {| _header := _header res1;
     body := body res1 ++ [data];
     writableEnded := writableEnded res1;
     socketDestroyed := socketDestroyed res1;
     wire := sent res1 data |}.

(** [res.end()] *)
Definition end_ (res : ServerResponse) : ServerResponse :=
  let res1 := implicitHeader res in
  {| _header := _header res1;
     body := body res1;
     writableEnded := true;
     socketDestroyed := socketDestroyed res1;
     wire := flushed res1 |}.

(** [res.end(data)] *)
Definition endWith (res : ServerResponse) (data : Payload) : ServerResponse :=
  end_ (write res data).

(** The socket under a response is destroyed ([req.destroy()], or the
    client has gone). *)
Definition destroySocket (res : ServerResponse) : ServerResponse :=
  {| _header := _header res;
     body := body res;
     writableEnded := writableEnded res;
     socketDestroyed := true;
     wire := wire res |}.

(** What [forward] reads of the [URL] it makes. *)
Record URL := {
  protocol : list N;
  href : list N;
}.

(** The upstream request made by [requestModule.request(targetUrl.href,
    {method, headers}, callback)]: [secure] tells [https] from [http],
    [reqUrl] is the [href].  [responded] is set once the response has
    arrived. *)
Record ClientRequest := {
  secure : bool;
  reqUrl : list N;
  reqMethod : list N;
  reqHeaders : gmap (list N) HeaderValue;
  written : list (list Byte.byte);
  ended : bool;
  destroyed : bool;
  responded : bool;
}.

(** [proxyReq.write(chunk)]; a destroyed request takes nothing more. *)
Definition reqWrite (r : ClientRequest) (chunk : list Byte.byte) : ClientRequest :=
  if destroyed r then r
  else {| secure := secure r; reqUrl := reqUrl r;
          reqMethod := reqMethod r; reqHeaders := reqHeaders r;
          written := written r ++ [chunk];
          ended := ended r; destroyed := destroyed r;
          responded := responded r |}.

(** [proxyReq.end()] *)
Definition reqEnd (r : ClientRequest) : ClientRequest :=
  {| secure := secure r; reqUrl := reqUrl r;
     reqMethod := reqMethod r; reqHeaders := reqHeaders r;
     written := written r; ended := true; destroyed := destroyed r;
     responded := responded r |}.

(** [proxyReq.destroy()]: the request is marked destroyed and its socket
    is torn down.  What Node then emits on the request is in [hangUp]
    below. *)
Definition reqDestroy (r : ClientRequest) : ClientRequest :=
  {| secure := secure r; reqUrl := reqUrl r;
     reqMethod := reqMethod r; reqHeaders := reqHeaders r;
     written := written r; ended := ended r; destroyed := true;
     responded := responded r |}.

(** The response of the upstream has arrived. *)
Definition reqResponded (r : ClientRequest) : ClientRequest :=
  {| secure := secure r; reqUrl := reqUrl r;
     reqMethod := reqMethod r; reqHeaders := reqHeaders r;
     written := written r; ended := ended r; destroyed := destroyed r;
     responded := true |}.

End Http.

(* ===================================================================== *)
(** ** proxy.ts *)
(* ===================================================================== *)

Module Proxy.

Import Config Audit Http.

(** Default max request body size: 10 MB *)
Definition DEFAULT_MAX_BODY_BYTES : Z := 10 * 1024 * 1024.

(** Response headers safe to forward to the agent. *)
Definition ALLOWED_RESPONSE_HEADERS : gset (list N) :=
  {[ js "content-type"; js "content-length"; js "content-encoding";
     js "transfer-encoding"; js "cache-control"; js "date"; js "etag";
     js "vary" ]}.

Record AuthProxy := {
  config : AgentAuthConfig;
  auditLog : option AuditLog;
}.

(** [AuthProxy.audit]: writes only when a log is attached. *)
Definition audit (log : option AuditLog) (entry : AuditEntry) : option AuditLog :=
  match log with
  | Some l => Some (Audit.write l entry)
  | None => None
  end.

Definition jsonContentType : gmap (list N) HeaderValue :=
  {[ js "content-type" := HString (js "application/json") ]}.

(** [a || b] on strings: the empty string and [undefined] are falsy. *)
Definition orString (a : option (list N)) (b : list N) : list N :=
  match a with
  | Some (c :: s) => c :: s
  | _ => b
  end.

(** [a || b] on numbers: [0] and [undefined] are falsy. *)
Definition orNumber (a : option Z) (b : Z) : Z :=
  match a with
  | Some n => if n =? 0 then b else n
  | None => b
  end.

(** [AuthProxy.deny] *)
Definition deny (log : option AuditLog) (res : ServerResponse)
    (now : list N) (code message method path : list N)
    (backend : option (list N))
  : result (ServerResponse * option AuditLog) :=
  let log1 :=
    audit log {| ts := now;
                 backend := orString backend (js "none");
                 Audit.method := method;
                 path := path;
                 status := Some 403;
                 durationMs := None;
                 allowed := false;
                 reason := Some message |} in
  match writeHead res 403 jsonContentType with
  | Throw e res1 => Throw e (res1, log1)
  | Ok res1 =>
      Ok (endWith res1
            (Json (JObject [(js "error", JString code);
                            (js "message", JString message)])),
          log1)
  end.

(** The first loop of [forward]: copy the client's headers. *)
Definition copyHeaders (reqHeaders : gmap (list N) HeaderValue)
  : gmap (list N) HeaderValue :=
  map_fold
    (fun key value headers =>
       if negb (streq key (js "host")) && negb (streq key (js "connection"))
       then <[key := value]> headers
       else headers)
    ∅ reqHeaders.

(** The second loop of [forward]: inject the backend's headers. *)
Definition injectHeaders (backendHeaders : gmap (list N) (list N))
    (headers : gmap (list N) HeaderValue) : gmap (list N) HeaderValue :=
  map_fold (fun key value headers => <[key := HString value]> headers)
    headers backendHeaders.

Definition buildHeaders (reqHeaders : gmap (list N) HeaderValue)
    (backendHeaders : gmap (list N) (list N)) : gmap (list N) HeaderValue :=
  injectHeaders backendHeaders (copyHeaders reqHeaders).

(** The loop of the response callback: keep the allowlisted headers. *)
Definition safeHeaders (proxyResHeaders : gmap (list N) HeaderValue)
  : gmap (list N) HeaderValue :=
  map_fold
    (fun key value safe =>
       if bool_decide (toLowerCase key ∈ ALLOWED_RESPONSE_HEADERS)
       then <[key := value]> safe
       else safe)
    ∅ proxyResHeaders.

(** What the closures created by [forward] share: the client response,
    the audit log, the upstream request, the inbound stream's state, the
    byte counter and the constants they captured. *)
Record Flight := {
  res : ServerResponse;
  log : option AuditLog;
  proxyReq : ClientRequest;
  reqDestroyed : bool;
  piping : bool;
  received : Z;
  backendName : list N;
  method : list N;
  targetPath : list N;
  startTime : Z;
  maxBody : Z;
}.

Definition withRes (fl : Flight) (r : ServerResponse) : Flight :=
  {| res := r; log := log fl; proxyReq := proxyReq fl;
     reqDestroyed := reqDestroyed fl; piping := piping fl;
     received := received fl; backendName := backendName fl;
     method := method fl; targetPath := targetPath fl;
     startTime := startTime fl; maxBody := maxBody fl |}.

Definition withLog (fl : Flight) (l : option AuditLog) : Flight :=
  {| res := res fl; log := l; proxyReq := proxyReq fl;
     reqDestroyed := reqDestroyed fl; piping := piping fl;
     received := received fl; backendName := backendName fl;
     method := method fl; targetPath := targetPath fl;
     startTime := startTime fl; maxBody := maxBody fl |}.

Definition withProxyReq (fl : Flight) (r : ClientRequest) : Flight :=
  {| res := res fl; log := log fl; proxyReq := r;
     reqDestroyed := reqDestroyed fl; piping := piping fl;
     received := received fl; backendName := backendName fl;
     method := method fl; targetPath := targetPath fl;
     startTime := startTime fl; maxBody := maxBody fl |}.

(** [req.destroy()]: the inbound stream is destroyed, and with it the
    socket that the response is written to. *)
Definition withReqDestroyed (fl : Flight) : Flight :=
  {| res := destroySocket (res fl); log := log fl; proxyReq := proxyReq fl;
     reqDestroyed := true; piping := piping fl;
     received := received fl; backendName := backendName fl;
     method := method fl; targetPath := targetPath fl;
     startTime := startTime fl; maxBody := maxBody fl |}.

Definition withPiping (fl : Flight) : Flight :=
  {| res := res fl; log := log fl; proxyReq := proxyReq fl;
     reqDestroyed := reqDestroyed fl; piping := true;
     received := received fl; backendName := backendName fl;
     method := method fl; targetPath := targetPath fl;
     startTime := startTime fl; maxBody := maxBody fl |}.

Definition withReceived (fl : Flight) (n : Z) : Flight :=
  {| res := res fl; log := log fl; proxyReq := proxyReq fl;
     reqDestroyed := reqDestroyed fl; piping := piping fl;
     received := n; backendName := backendName fl;
     method := method fl; targetPath := targetPath fl;
     startTime := startTime fl; maxBody := maxBody fl |}.

(** [forward] from [requestModule.request] on, up to the registration of
    its handlers: [targetUrl] is the URL made, [headers] what
    [backend.headers] holds, [maxBodyBytes] what [backend.maxBodyBytes]
    does, and [dateNow] the [Date.now()] stored in [startTime]. *)
Definition forwardTo (targetUrl : URL) (p : AuthProxy)
    (req : IncomingMessage) (res : ServerResponse)
    (headers : gmap (list N) (list N)) (maxBodyBytes : option Z)
    (backendName targetPath method : list N) (dateNow : Z) : Flight :=
  {| res := res;
     log := auditLog p;
     proxyReq :=
       {| secure := streq (protocol targetUrl) (js "https:");
          reqUrl := href targetUrl;
          reqMethod := method;
          reqHeaders := buildHeaders (Http.headers req) headers;
          written := []; ended := false; destroyed := false;
          responded := false |};
     reqDestroyed := false;
     piping := false;
     received := 0;
     backendName := backendName;
     method := method;
     targetPath := targetPath;
     startTime := dateNow;
     maxBody := match maxBodyBytes with
                | Some n => n
                | None => DEFAULT_MAX_BODY_BYTES
                end |}.

Section Forward.

(** [new URL(input, base)], with [None] for a [base] that is [undefined]
    and [None] for the TypeError it throws. *)
Context (newURL : list N -> option (list N) -> option URL).

(** [forward].  It throws, with nothing written and nothing logged, when
    [new URL] refuses [targetPath] against [backend.target], and in the
    second loop when [backend.headers] is [undefined]. *)
Definition forward (p : AuthProxy) (req : IncomingMessage)
    (res : ServerResponse) (backend : BackendValue)
    (backendName targetPath method : list N) (dateNow : Z)
  : JsError + Flight :=
  match newURL targetPath (targetOf backend) with
  | None => inl ERR_INVALID_URL
  | Some targetUrl =>
      match headersOf backend with
      | None => inl TypeError_undefined_to_object
      | Some headers =>
          inr (forwardTo targetUrl p req res headers
                 (maxBodyBytesOf backend) backendName targetPath method
                 dateNow)
      end
  end.

End Forward.

(** The response callback given to [requestModule.request]. *)
Definition onProxyResponse (fl : Flight) (iso : list N) (dateNow : Z)
    (statusCode : option Z) (proxyResHeaders : gmap (list N) HeaderValue)
  : result Flight :=
  let durationMs := dateNow - startTime fl in
  let fl1 :=
    withLog fl
      (audit (log fl)
         {| ts := iso; backend := backendName fl; Audit.method := method fl;
            path := targetPath fl; status := statusCode;
            durationMs := Some durationMs; allowed := true;
            reason := None |}) in
  match writeHead (res fl1) (orNumber statusCode 502)
          (safeHeaders proxyResHeaders) with
  | Throw e r => Throw e (withRes fl1 r)
  | Ok r => Ok (withPiping (withRes fl1 r))
  end.

(** [proxyReq.on('error', ...)] *)
Definition onProxyError (fl : Flight) (iso : list N) (dateNow : Z)
    (message : list N) : Flight :=
  let durationMs := dateNow - startTime fl in
  let fl1 :=
    withLog fl
      (audit (log fl)
         {| ts := iso; backend := backendName fl; Audit.method := method fl;
            path := targetPath fl; status := Some 502;
            durationMs := Some durationMs; allowed := true;
            reason := Some (js "upstream error: " ++ message) |}) in
  if negb (headersSent (res fl1)) then
    match writeHead (res fl1) 502 jsonContentType with
    | Throw _ _ => fl1
    | Ok r =>
        withRes fl1
          (endWith r
             (Json (JObject [(js "error", JString (js "upstream_error"));
                             (js "message",
                              JString (js "upstream unavailable"))])))
    end
  else fl1.

(** [req.on('data', ...)] *)
Definition onData (fl : Flight) (iso : list N) (chunk : list Byte.byte)
  : Flight :=
  let fl1 := withReceived fl (received fl + Z.of_nat (length chunk)) in
  if received fl1 >? maxBody fl1 then
    let fl2 := withReqDestroyed fl1 in
    let fl3 := withProxyReq fl2 (reqDestroy (proxyReq fl2)) in
    let fl4 :=
      withLog fl3
        (audit (log fl3)
           {| ts := iso; backend := backendName fl; Audit.method := method fl;
              path := targetPath fl; status := Some 413;
              durationMs := None; allowed := false;
              reason := Some (js "body exceeded "
                              ++ numberToString (maxBody fl)
                              ++ js " bytes") |}) in
    if negb (headersSent (res fl4)) then
      match writeHead (res fl4) 413 jsonContentType with
      | Throw _ _ => fl4
      | Ok r =>
          withRes fl4
            (endWith r
               (Json (JObject
                        [(js "error", JString (js "body_too_large"));
                         (js "message",
                          JString (js "Request body exceeds "
                                   ++ numberToString (maxBody fl)
                                   ++ js " byte limit"))])))
      end
    else fl4
  else withProxyReq fl1 (reqWrite (proxyReq fl1) chunk).

(** [req.on('end', ...)] *)
Definition onEnd (fl : Flight) : Flight :=
  withProxyReq fl (reqEnd (proxyReq fl)).

(** [req.on('error', ...)] *)
Definition onError (fl : Flight) : Flight :=
  withProxyReq fl (reqDestroy (proxyReq fl)).

(** [proxyRes.pipe(res)]: a chunk of the upstream body. *)
Definition onProxyData (fl : Flight) (chunk : list Byte.byte) : Flight :=
  withRes fl (Http.write (res fl) (Chunk chunk)).

(** [proxyRes.pipe(res)]: the end of the upstream body. *)
Definition onProxyEnd (fl : Flight) : Flight :=
  withRes fl (end_ (res fl)).

(** Where [handleRequest] leaves a request when it returns: answered by
    the health check, answered by [deny], or handed to [forward] with its
    handlers waiting for events; and where it leaves it when [forward]
    throws: unanswered, with the response and the log as they were. *)
Inductive Outcome :=
| HealthCheck (res : ServerResponse) (log : option AuditLog)
| Denied (res : ServerResponse) (log : option AuditLog)
| Forwarding (fl : Flight)
| Unanswered (res : ServerResponse) (log : option AuditLog).

Definition denyWith (p : AuthProxy) (res : ServerResponse) (iso : list N)
    (code message method path : list N) (backend : option (list N))
  : result Outcome :=
  match deny (auditLog p) res iso code message method path backend with
  | Ok (r, l) => Ok (Denied r l)
  | Throw e (r, l) => Throw e (Denied r l)
  end.

(** [Object.keys(this.config.backends)] *)
Definition backendNames (c : AgentAuthConfig) : list (list N) :=
  (backends c).*1.

Section HandleRequest.

Context (newURL : list N -> option (list N) -> option URL).

(** [AuthProxy.handleRequest].  [iso] is what [new Date().toISOString()]
    returns during the call and [dateNow] what [Date.now()] does. *)
Definition handleRequest (p : AuthProxy) (req : IncomingMessage)
    (res : ServerResponse) (iso : list N) (dateNow : Z) : result Outcome :=
  let url := orString (Http.url req) (js "/") in
  let method := orString (Http.method req) (js "GET") in
  (* Health check *)
  if streq url (js "/agentauth/health") then
    match writeHead res 200 jsonContentType with
    | Throw e r => Throw e (HealthCheck r (auditLog p))
    | Ok r =>
        Ok (HealthCheck
              (endWith r
                 (Json (JObject
                          [(js "status", JString (js "ok"));
                           (js "backends",
                            JArray (JString <$> backendNames (config p)));
                           (js "port", JNumber (port (config p)))])))
              (auditLog p))
    end
  else
  (* Parse /{backend}/{path} *)
  let slashIdx := indexOf url (js "/") 1 in
  if slashIdx =? -1 then
    denyWith p res iso (js "invalid_path")
      (js "No backend in path: " ++ url) method url None
  else
  let backendName := substring url 1 slashIdx in
  let rawPath := substringFrom url slashIdx in
  (* Decode URL-encoded characters and reject path traversal *)
  match decodeURIComponent (first (split 63 rawPath)) with
  | None =>
      denyWith p res iso (js "invalid_path")
        (js "Malformed URL encoding: " ++ rawPath) method url None
  | Some targetPath =>
      if includes targetPath (js "..") then
        denyWith p res iso (js "path_traversal")
          (js "Path traversal rejected: " ++ targetPath) method url None
      else
      (* Re-append query string for forwarding *)
      let qIdx := indexOf rawPath (js "?") 0 in
      let fullTargetPath :=
        if negb (qIdx =? -1)
        then targetPath ++ substringFrom rawPath qIdx
        else targetPath in
      match getBackend (backends (config p)) backendName with
      | None =>
          denyWith p res iso (js "unknown_backend")
            (js "Unknown backend: " ++ backendName) method url None
      | Some backend =>
          (* Check allowed paths (decoded path without query string) *)
          if negb (isPathAllowed targetPath (allowedPathsOf backend)) then
            denyWith p res iso (js "path_denied")
              (js "Path not allowed: " ++ targetPath) method url
              (Some backendName)
          else
            (* Forward request (fullTargetPath preserves the query) *)
            match forward newURL p req res backend backendName
                    fullTargetPath method dateNow with
            | inr fl => Ok (Forwarding fl)
            | inl e => Throw e (Unanswered res (auditLog p))
            end
      end
  end.

End HandleRequest.

(** What can happen to a request in flight: the events its handlers are
    registered for.  An event that can bring [proxyReq.destroy()] about
    carries the clock readings of the ['error'] handler that may follow
    it (see [hangUp]). *)
Inductive Event :=
| ProxyResponse (iso : list N) (dateNow : Z) (statusCode : option Z)
    (headers : gmap (list N) HeaderValue)
| ProxyError (iso : list N) (dateNow : Z) (message : list N)
| ReqData (iso : list N) (chunk : list Byte.byte)
    (hangIso : list N) (hangNow : Z)
| ReqEnd
| ReqError (hangIso : list N) (hangNow : Z)
| ProxyData (chunk : list Byte.byte)
| ProxyEnd.

(** What Node does after a handler has called [proxyReq.destroy()]: a
    request destroyed before its response has arrived emits ['error']
    with the message [socket hang up], and the ['error'] handler of
    [forward] runs.  A request that was destroyed already, or whose
    response has arrived, emits nothing. *)
Definition hangUp (before after : Flight) (iso : list N) (dateNow : Z)
  : Flight :=
  if destroyed (proxyReq after) && negb (destroyed (proxyReq before))
     && negb (responded (proxyReq after))
  then onProxyError after iso dateNow (js "socket hang up")
  else after.

(** Node's delivery of one event.  The response of the upstream marks the
    request as responded before the callback runs; an ['error'] of the
    upstream request finds it destroyed; a destroyed inbound stream emits
    no further ['data'], ['end'] or ['error']; an ['error'] of the inbound
    stream finds its socket destroyed; the upstream body is piped only
    once the response callback has run. *)
Definition emit (fl : Flight) (ev : Event) : result Flight :=
  match ev with
  | ProxyResponse iso now sc hs =>
      onProxyResponse (withProxyReq fl (reqResponded (proxyReq fl)))
        iso now sc hs
  | ProxyError iso now msg =>
      Ok (onProxyError (withProxyReq fl (reqDestroy (proxyReq fl)))
            iso now msg)
  | ReqData iso chunk hangIso hangNow =>
      if reqDestroyed fl then Ok fl
      else Ok (hangUp fl (onData fl iso chunk) hangIso hangNow)
  | ReqEnd => if reqDestroyed fl then Ok fl else Ok (onEnd fl)
  | ReqError hangIso hangNow =>
      if reqDestroyed fl then Ok fl
      else Ok (hangUp fl (onError (withReqDestroyed fl)) hangIso hangNow)
  | ProxyData chunk => if piping fl then Ok (onProxyData fl chunk) else Ok fl
  | ProxyEnd => if piping fl then Ok (onProxyEnd fl) else Ok fl
  end.

(** A sequence of events; an exception that leaves a handler is not
    caught, and ends the run. *)
Fixpoint run (fl : Flight) (evs : list Event) : result Flight :=
  match evs with
  | [] => Ok fl
  | ev :: rest =>
      match emit fl ev with
      | Ok fl1 => run fl1 rest
      | Throw e fl1 => Throw e fl1
      end
  end.

(** The whole life of one request: [handleRequest], then the events that
    reach its handlers if it was forwarded.  The result is the client
    response and the audit log as they stand at the end. *)
Definition serve (newURL : list N -> option (list N) -> option URL)
    (p : AuthProxy) (req : IncomingMessage)
    (iso : list N) (dateNow : Z) (evs : list Event)
  : result (ServerResponse * option AuditLog) :=
  match handleRequest newURL p req freshResponse iso dateNow with
  | Ok (HealthCheck r l) | Ok (Denied r l) | Ok (Unanswered r l) => Ok (r, l)
  | Throw e (HealthCheck r l) | Throw e (Denied r l)
  | Throw e (Unanswered r l) => Throw e (r, l)
  | Ok (Forwarding fl) =>
      match run fl evs with
      | Ok fl1 => Ok (res fl1, log fl1)
      | Throw e fl1 => Throw e (res fl1, log fl1)
      end
  | Throw e (Forwarding fl) => Throw e (res fl, log fl)
  end.

End Proxy.

Import Config Audit Http Proxy.

(* ===================================================================== *)
(** ** Reading the audit log *)
(* ===================================================================== *)

(** The entries an attached log holds ([AuditLog.read]). *)
Definition entriesOf (l : option AuditLog) : list AuditEntry :=
  match l with
  | Some lg => lines lg
  | None => []
  end.

(** A log is attached to the proxy and its file is open. *)
Definition logOpen (l : option AuditLog) : bool :=
  match l with
  | Some lg => match fd lg with Some _ => true | None => false end
  | None => false
  end.

(** The body of an error response: [{ error: code, message }]. *)
Definition errorBody (code message : list N) : Payload :=
  Json (JObject [(js "error", JString code); (js "message", JString message)]).

(** A finished response on a live connection: status, headers and the
    payloads of its body, all of it written to the socket. *)
Definition response (status : Z) (hdrs : gmap (list N) HeaderValue)
    (payloads : list Payload) : ServerResponse :=
  {| _header := Some (status, hdrs); body := payloads; writableEnded := true;
     socketDestroyed := false; wire := Some payloads |}.

(** [res] after [writeHead(status, hdrs)] and [end(data)], its headers
    not sent before: the head is stored, the payload is added to the body,
    and both are on the socket unless it is destroyed. *)
Definition answered (res : ServerResponse) (status : Z)
    (hdrs : gmap (list N) HeaderValue) (data : Payload) : ServerResponse :=
  {| _header := Some (status, hdrs);
     body := body res ++ [data];
     writableEnded := true;
     socketDestroyed := socketDestroyed res;
     wire := if socketDestroyed res then wire res
             else Some (default [] (wire res) ++ [data]) |}.

(** What the client has been sent: the status, the headers and the
    payloads that went out on its connection, if anything did. *)
Definition delivered (res : ServerResponse)
  : option (Z * gmap (list N) HeaderValue * list Payload) :=
  match wire res, _header res with
  | Some payloads, Some (status, hdrs) => Some (status, hdrs, payloads)
  | _, _ => None
  end.

(** The four codes [handleRequest] gives to [deny]. *)
Definition denialCodes : list (list N) :=
  [js "invalid_path"; js "path_traversal"; js "unknown_backend";
   js "path_denied"].

(** Total size of a list of chunks. *)
Definition totalLength (chunks : list (list Byte.byte)) : Z :=
  foldr (fun c n => Z.of_nat (length c) + n) 0 chunks.



(* ===================================================================== *)
(** ** A sample deployment *)
(* ===================================================================== *)

(** One backend, [myapi], with a credential header, the allowlist
    [["/v1/*"]] and a body limit of four bytes; an open, empty audit log. *)
Module Sample.

Definition backend : BackendConfig :=
  {| target := js "https://api.example.com";
     Config.headers := {[ js "x-api-key" := js "secret-key-123" ]};
     allowedPaths := Some [js "/v1/*"];
     maxBodyBytes := Some 4 |}.

Definition proxy : AuthProxy :=
  {| config := {| port := 9999;
                  bind := js "127.0.0.1";
                  backends := [(js "myapi", backend)];
                  Config.auditLog := Some (js "./audit.log") |};
     Proxy.auditLog := Some {| fd := Some 3;
                               logPath := js "./audit.log";
                               lines := [] |} |}.

(** [GET target], with a spoofed credential among the client's headers. *)
Definition get (target : string) : IncomingMessage :=
  {| Http.url := Some (js target);
     Http.method := Some (js "GET");
     Http.headers := {[ js "host" := HString (js "localhost:9999");
                        js "accept" := HString (js "*/*");
                        js "x-api-key" := HString (js "spoofed") ]} |}.

(** What [new URL(input, "https://api.example.com")] is for the inputs
    that the sample requests bring to [forward], by the parser of the URL
    Standard: the path is put after the origin, with a ["%2e%2e"] segment
    taken for [".."] (it removes the segment before it), a space written
    ["%20"], and the query kept as it is. *)
Definition hrefs : list (list N * list N) :=
  [(js "/v1/test", js "https://api.example.com/v1/test");
   (js "/v1/test?x=1", js "https://api.example.com/v1/test?x=1");
   (js "/v1/test?x=1&y=2", js "https://api.example.com/v1/test?x=1&y=2");
   (js "/v1/%2e%2e/admin", js "https://api.example.com/admin");
   (js "/v1/a b?q=%2e%2e&r=1",
    js "https://api.example.com/v1/a%20b?q=%2e%2e&r=1");
   (js "/v1/a/b?x=%31", js "https://api.example.com/v1/a/b?x=%31")].

(** [new URL] on the inputs of the samples, which are those of [hrefs]
    against the target of [backend]; the samples call it on no other. *)
Definition newURL (input : list N) (base : option (list N)) : option URL :=
  match base with
  | Some b =>
      if streq b (js "https://api.example.com") then
        match List.find (fun e => streq e.1 input) hrefs with
        | Some e => Some {| protocol := js "https:"; href := e.2 |}
        | None => None
        end
      else None
  | None => None
  end.

Definition targetUrl : URL :=
  {| protocol := js "https:"; href := js "https://api.example.com/v1/test" |}.

(** The flight of [GET /myapi/v1/test], started at time 1000. *)
Definition flight : Flight :=
  forwardTo targetUrl proxy (get "/myapi/v1/test") freshResponse
    (Config.headers backend) (maxBodyBytes backend)
    (js "myapi") (js "/v1/test") (js "GET") 1000.

Definition iso1 : list N := js "2026-02-07T12:00:00.000Z".
Definition iso2 : list N := js "2026-02-07T12:00:01.000Z".

(** What an upstream sends back: two allowlisted headers, one of them in
    capitals, and a tracing header. *)
Definition upstreamHeaders : gmap (list N) HeaderValue :=
  {[ js "content-type" := HString (js "application/json");
     js "ETag" := HString (js "abc");
     js "x-request-id" := HString (js "req-42") ]}.

Definition fiveBytes : list Byte.byte :=
  [Byte.x61; Byte.x62; Byte.x63; Byte.x64; Byte.x65].

Definition twoBytes : list Byte.byte := [Byte.x61; Byte.x62].

End Sample.

(* ===================================================================== *)
(** ** config.ts: loadConfig *)
(* ===================================================================== *)

(** [loadConfig] from the value [JSON.parse] returns on.  An object of the
    file is kept as the list of its entries, in the order [Object.entries]
    walks them (so with distinct keys); [env] is [process.env].  A thrown
    [Error] is its message. *)
Module Loader.

Record RawBackend := {
  target : option (list N);
  headers : option (list (list N * list N));
  allowedPaths : option (list (list N));
  maxBodyBytes : option Z;
}.

Record RawConfig := {
  port : option Z;
  bind : option (list N);
  backends : option (list (list N * RawBackend));
  auditLog : option (list N);
}.

(** One double-quote character. *)
Definition dq : list N := [34%N].

(** [process.env[name]] is set and not empty. *)
Definition envValue (env : gmap (list N) (list N)) (name : list N)
  : option (list N) :=
  match env !! name with
  | Some (c :: s) => Some (c :: s)
  | _ => None
  end.

(** The body of the loop over a backend's headers. *)
Definition resolveHeader (env : gmap (list N) (list N)) (name : list N)
    (kv : list N * list N) : list N + (list N * list N) :=
  let key := kv.1 in
  let value := kv.2 in
  if startsWith value (js "$") then
    let envVar := drop 1 value in
    match envValue env envVar with
    | None =>
        inl (js "Backend " ++ dq ++ name ++ dq ++ js " header " ++ dq ++ key
             ++ dq ++ js " references $" ++ envVar ++ js " but it is not set")
    | Some v => inr (key, v)
    end
  else inr (key, value).

Fixpoint resolveHeaders (env : gmap (list N) (list N)) (name : list N)
    (hs : list (list N * list N)) : list N + list (list N * list N) :=
  match hs with
  | [] => inr []
  | kv :: rest =>
      match resolveHeader env name kv with
      | inl e => inl e
      | inr kv' =>
          match resolveHeaders env name rest with
          | inl e => inl e
          | inr rest' => inr (kv' :: rest')
          end
      end
  end.

(** The body of the loop over the backends. *)
Definition resolveBackend (env : gmap (list N) (list N))
    (nb : list N * RawBackend) : list N + (list N * Config.BackendConfig) :=
  let name := nb.1 in
  let backend := nb.2 in
  match target backend with
  | Some (c :: t) =>
      match resolveHeaders env name (default [] (headers backend)) with
      | inl e => inl e
      | inr hs =>
          inr (name,
               {| Config.target := c :: t;
                  Config.headers := list_to_map hs;
                  Config.allowedPaths := allowedPaths backend;
                  Config.maxBodyBytes := maxBodyBytes backend |})
      end
  | _ =>
      inl (js "Backend " ++ dq ++ name ++ dq ++ js " must have a " ++ dq
           ++ js "target" ++ dq ++ js " URL")
  end.

Fixpoint resolveBackends (env : gmap (list N) (list N))
    (bs : list (list N * RawBackend))
  : list N + list (list N * Config.BackendConfig) :=
  match bs with
  | [] => inr []
  | nb :: rest =>
      match resolveBackend env nb with
      | inl e => inl e
      | inr nb' =>
          match resolveBackends env rest with
          | inl e => inl e
          | inr rest' => inr (nb' :: rest')
          end
      end
  end.

(** [loadConfig], after [JSON.parse]. *)
Definition loadConfig (env : gmap (list N) (list N)) (config : RawConfig)
  : list N + Config.AgentAuthConfig :=
  match backends config with
  | None =>
      inl (js "Config must have a " ++ dq ++ js "backends" ++ dq
           ++ js " object")
  | Some bs =>
      if (length bs =? 0)%nat
      then inl (js "Config must have at least one backend")
      else
        match resolveBackends env bs with
        | inl e => inl e
        | inr bs' =>
            inr {| Config.port := Proxy.orNumber (port config) 9999;
                   Config.bind := Proxy.orString (bind config) (js "127.0.0.1");
                   Config.backends := bs';
                   Config.auditLog := auditLog config |}
        end
  end.

End Loader.

(* ===================================================================== *)
(** ** cli.ts: the configuration written by [cmdInit] *)
(* ===================================================================== *)

Module Init.

Import Loader.

(** [process.env.NAME] is truthy. *)
Definition isSet (env : gmap (list N) (list N)) (name : string) : bool :=
  match envValue env (js name) with Some _ => true | None => false end.

(** The entries of [detected], in the order they are added. *)
Definition detected (env : gmap (list N) (list N))
  : list (list N * (list N * list N * list N * list (list N))) :=
  (if isSet env "ANTHROPIC_API_KEY"
   then [(js "anthropic",
          (js "https://api.anthropic.com", js "x-api-key",
           js "ANTHROPIC_API_KEY", [js "/v1/messages"]))]
   else [])
  ++ (if isSet env "OPENAI_API_KEY"
      then [(js "openai",
             (js "https://api.openai.com", js "authorization",
              js "OPENAI_API_KEY", [js "/v1/*"]))]
      else [])
  ++ (if isSet env "GITHUB_TOKEN" || isSet env "GITHUB_TOKEN_BEARER"
      then [(js "github",
             (js "https://api.github.com", js "authorization",
              (if isSet env "GITHUB_TOKEN_BEARER"
               then js "GITHUB_TOKEN_BEARER" else js "GITHUB_TOKEN"),
              [js "/repos/*"]))]
      else []).

(** The body of the loop that turns an entry of [detected] into a
    backend. *)
Definition backendOf
    (entry : list N * (list N * list N * list N * list (list N)))
  : list N * RawBackend :=
  let name := entry.1 in
  let '(target, headerKey, envVar, paths) := entry.2 in
  let headers :=
    (if streq name (js "openai")
     then [(headerKey, js "Bearer $" ++ envVar)]
     else if streq name (js "github")
     then [(headerKey, js "Bearer $" ++ envVar);
           (js "accept", js "application/vnd.github+json")]
     else [(headerKey, js "$" ++ envVar)])
    ++ (if streq name (js "anthropic")
        then [(js "anthropic-version", js "2023-06-01")]
        else []) in
  (name,
   {| target := Some target; headers := Some headers;
      allowedPaths := Some paths; maxBodyBytes := None |}).

(** The [config] object that [cmdInit] serialises. *)
Definition initConfig (env : gmap (list N) (list N)) : RawConfig :=
  {| port := Some 9999;
     bind := Some (js "127.0.0.1");
     auditLog := Some (js "./audit.log");
     backends :=
       Some (if (length (detected env) =? 0)%nat
             then [(js "anthropic",
                    {| target := Some (js "https://api.anthropic.com");
                       headers :=
                         Some [(js "x-api-key", js "$ANTHROPIC_API_KEY");
                               (js "anthropic-version", js "2023-06-01")];
                       allowedPaths := Some [js "/v1/messages"];
                       maxBodyBytes := None |})]
             else backendOf <$> detected env) |}.

End Init.

(* ===================================================================== *)
(** ** audit.ts: the life of an [AuditLog] *)
(* ===================================================================== *)

Module AuditFile.

Import Audit.

(** [new AuditLog(logPath)] on a file that holds [existing]. *)
Definition create (logPath : list N) (existing : list AuditEntry) : AuditLog :=
  {| fd := None; logPath := logPath; lines := existing |}.

(** [AuditLog.open]; [newFd] is what [fs.openSync] returns. *)
Definition open (log : AuditLog) (newFd : Z) : AuditLog :=
  {| fd := Some newFd; logPath := logPath log; lines := lines log |}.

(** [AuditLog.close] *)
Definition close (log : AuditLog) : AuditLog :=
  match fd log with
  | Some _ => {| fd := None; logPath := logPath log; lines := lines log |}
  | None => log
  end.

(** [AuditLog.read]: the entries of the lines of the file. *)
Definition read (log : AuditLog) : list AuditEntry := lines log.

Inductive Op :=
| Open (newFd : Z)
| Write (entry : AuditEntry)
| Close.

Definition step (log : AuditLog) (op : Op) : AuditLog :=
  match op with
  | Open newFd => open log newFd
  | Write entry => Audit.write log entry
  | Close => close log
  end.

Definition exec (log : AuditLog) (ops : list Op) : AuditLog :=
  foldl step log ops.

(** The entries given to [write] by a sequence of calls. *)
Definition writes (ops : list Op) : list AuditEntry :=
  omap (fun op => match op with Write e => Some e | _ => None end) ops.

Definition isClose (op : Op) : bool :=
  match op with Close => true | _ => false end.

Definition isOpen (op : Op) : bool :=
  match op with Open _ => true | _ => false end.

End AuditFile.

(* ===================================================================== *)
(** ** cli.ts and index.ts: command-line arguments *)
(* ===================================================================== *)

Module Cli.

(** [args.includes(x)] on an array of strings. *)
Definition hasArg (args : list (list N)) (x : string) : bool :=
  existsb (fun a => streq a (js x)) args.

(** What [main] of index.ts does with [process.argv.slice(2)]. *)
Inductive Action :=
| ShowHelp
| CmdInit (commandArgs : list (list N))
| CmdStart (commandArgs : list (list N))
| CmdStop (commandArgs : list (list N))
| CmdStatus (commandArgs : list (list N))
| CmdDoctor (commandArgs : list (list N))
| RunForeground (args : list (list N))
| UnknownCommand (command : list N).

Definition main (args : list (list N)) : Action :=
  if (length args =? 0)%nat || hasArg args "--help" || hasArg args "-h"
  then ShowHelp
  else
    match args with
    | [] => ShowHelp
    | command :: commandArgs =>
        if streq command (js "init") then CmdInit commandArgs
        else if streq command (js "start") then CmdStart commandArgs
        else if streq command (js "stop") then CmdStop commandArgs
        else if streq command (js "status") then CmdStatus commandArgs
        else if streq command (js "doctor") then CmdDoctor commandArgs
        else if streq command (js "run") then RunForeground commandArgs
        else if streq command (js "help") then ShowHelp
        else if negb (startsWith command (js "-")) then RunForeground args
        else UnknownCommand command
    end.

Section Options.

(** [parseInt] is taken as it is: [Num] is the type of JavaScript numbers
    and [parseInt None] is [parseInt(undefined)]. *)
Context {Num : Type} (parseInt : option (list N) -> Num).

(** [CliOptions]; a string field is [None] when it holds [undefined], and
    [port] is [None] while the option has not been given. *)
Record CliOptions := {
  configPath : option (list N);
  pidFile : option (list N);
  logFile : option (list N);
  port : option Num;
  bind : option (list N);
  install : bool;
}.

Definition DEFAULT_CONFIG : list N := js "agentauth.json".
Definition DEFAULT_PID_FILE : list N := js ".agentauth.pid".
Definition DEFAULT_LOG_FILE : list N := js "agentauth.log".

Definition defaults : CliOptions :=
  {| configPath := Some DEFAULT_CONFIG;
     pidFile := Some DEFAULT_PID_FILE;
     logFile := Some DEFAULT_LOG_FILE;
     port := None; bind := None; install := false |}.

Definition setConfigPath (o : CliOptions) (v : option (list N)) : CliOptions :=
  {| configPath := v; pidFile := pidFile o; logFile := logFile o;
     port := port o; bind := bind o; install := install o |}.

Definition setPidFile (o : CliOptions) (v : option (list N)) : CliOptions :=
  {| configPath := configPath o; pidFile := v; logFile := logFile o;
     port := port o; bind := bind o; install := install o |}.

Definition setLogFile (o : CliOptions) (v : option (list N)) : CliOptions :=
  {| configPath := configPath o; pidFile := pidFile o; logFile := v;
     port := port o; bind := bind o; install := install o |}.

Definition setPort (o : CliOptions) (v : Num) : CliOptions :=
  {| configPath := configPath o; pidFile := pidFile o; logFile := logFile o;
     port := Some v; bind := bind o; install := install o |}.

Definition setBind (o : CliOptions) (v : option (list N)) : CliOptions :=
  {| configPath := configPath o; pidFile := pidFile o; logFile := logFile o;
     port := port o; bind := v; install := install o |}.

Definition setInstall (o : CliOptions) : CliOptions :=
  {| configPath := configPath o; pidFile := pidFile o; logFile := logFile o;
     port := port o; bind := bind o; install := true |}.

(** The loop of [parseCliOptions] from index [i] on, [args] being what is
    left from there.  [args[++i]] takes the next element, or [undefined]
    past the end. *)
Fixpoint parseFrom (opts : CliOptions) (args : list (list N)) : CliOptions :=
  match args with
  | [] => opts
  | a :: rest =>
      if streq a (js "--config") || streq a (js "-c") then
        match rest with
        | v :: rest' => parseFrom (setConfigPath opts (Some v)) rest'
        | [] => setConfigPath opts None
        end
      else if streq a (js "--pid-file") then
        match rest with
        | v :: rest' => parseFrom (setPidFile opts (Some v)) rest'
        | [] => setPidFile opts None
        end
      else if streq a (js "--log-file") then
        match rest with
        | v :: rest' => parseFrom (setLogFile opts (Some v)) rest'
        | [] => setLogFile opts None
        end
      else if streq a (js "--port") || streq a (js "-p") then
        match rest with
        | v :: rest' => parseFrom (setPort opts (parseInt (Some v))) rest'
        | [] => setPort opts (parseInt None)
        end
      else if streq a (js "--bind") || streq a (js "-b") then
        match rest with
        | v :: rest' => parseFrom (setBind opts (Some v)) rest'
        | [] => setBind opts None
        end
      else if streq a (js "--install") then parseFrom (setInstall opts) rest
      else if negb (startsWith a (js "-"))
      then parseFrom (setConfigPath opts (Some a)) rest
      else parseFrom opts rest
  end.

Definition parseCliOptions (args : list (list N)) : CliOptions :=
  parseFrom defaults args.

(** The three variables of the loop of [runForeground]. *)
Record Foreground := {
  fgConfigPath : list N;
  portOverride : option Num;
  bindOverride : option (list N);
}.

Definition fgDefaults : Foreground :=
  {| fgConfigPath := js "agentauth.json";
     portOverride := None; bindOverride := None |}.

(** The loop of [runForeground]; [args[i + 1]] past the end is
    [undefined]. *)
Fixpoint foregroundFrom (st : Foreground) (args : list (list N)) : Foreground :=
  match args with
  | [] => st
  | a :: rest =>
      if streq a (js "--port") || streq a (js "-p") then
        let st' := {| fgConfigPath := fgConfigPath st;
                      portOverride := Some (parseInt (List.head rest));
                      bindOverride := bindOverride st |} in
        match rest with
        | _ :: rest' => foregroundFrom st' rest'
        | [] => st'
        end
      else if streq a (js "--bind") || streq a (js "-b") then
        let st' := {| fgConfigPath := fgConfigPath st;
                      portOverride := portOverride st;
                      bindOverride := List.head rest |} in
        match rest with
        | _ :: rest' => foregroundFrom st' rest'
        | [] => st'
        end
      else if negb (startsWith a (js "-")) then
        foregroundFrom {| fgConfigPath := a;
                          portOverride := portOverride st;
                          bindOverride := bindOverride st |} rest
      else foregroundFrom st rest
  end.

Definition foregroundArgs (args : list (list N)) : Foreground :=
  foregroundFrom fgDefaults args.

End Options.

(** The options that take a value in [parseCliOptions] and are not known
    to [runForeground]. *)
Definition daemonOnly : list (list N) :=
  [js "--config"; js "-c"; js "--pid-file"; js "--log-file"].

End Cli.

(* ===================================================================== *)
(** ** env-doctor.ts *)
(* ===================================================================== *)

Module EnvDoctor.

(** Canonicalize of a case-insensitive, non-unicode RegExp, as it bears on
    a pattern of ASCII characters: a letter [a-z] stands for its capital,
    and no code unit from U+0080 on is ever taken for an ASCII one. *)
Definition canon (c : N) : N :=
  (if (97 <=? c) && (c <=? 122) then c - 32 else c)%N.

(** [t] begins with [p], case-insensitively. *)
Fixpoint startsWithCI (t p : list N) {struct p} : bool :=
  match p, t with
  | [], _ => true
  | _ :: _, [] => false
  | a :: p', b :: t' => N.eqb (canon a) (canon b) && startsWithCI t' p'
  end.

(** [/p$/i] *)
Definition endsWithCI (t p : list N) : bool :=
  startsWithCI (rev t) (rev p).

(** Some suffix of [t] satisfies [f]: a match may start anywhere. *)
Fixpoint anywhere (f : list N -> bool) (t : list N) : bool :=
  f t || match t with
         | [] => false
         | _ :: t' => anywhere f t'
         end.

(** [/p/i] *)
Definition includesCI (t p : list N) : bool :=
  anywhere (fun u => startsWithCI u p) t.

(** What [.] matches: anything but a line terminator. *)
Definition notLineTerminator (c : N) : bool :=
  negb ((c =? 10) || (c =? 13) || (c =? 0x2028) || (c =? 0x2029))%N.

(** [/api.?key/i] *)
Definition apiKeyPattern (t : list N) : bool :=
  anywhere
    (fun u =>
       startsWithCI u (js "api")
       && (startsWithCI (drop 3 u) (js "key")
           || match drop 3 u with
              | c :: u' => notLineTerminator c && startsWithCI u' (js "key")
              | [] => false
              end))
    t.

(** What [\s] matches. *)
Definition isSpace (c : N) : bool :=
  ((9 <=? c) && (c <=? 13) || (c =? 32) || (c =? 0xA0) || (c =? 0x1680)
   || (0x2000 <=? c) && (c <=? 0x200A) || (c =? 0x2028) || (c =? 0x2029)
   || (c =? 0x202F) || (c =? 0x205F) || (c =? 0x3000) || (c =? 0xFEFF))%N.

(** [SECRET_PATTERNS.some(p => p.test(name))] *)
Definition matchesSecretPattern (name : list N) : bool :=
  endsWithCI name (js "key")
  || endsWithCI name (js "token")
  || endsWithCI name (js "secret")
  || endsWithCI name (js "password")
  || includesCI name (js "credential")
  || startsWithCI name (js "auth")
  || endsWithCI name (js "_auth")
  || apiKeyPattern name
  || includesCI name (js "bearer")
  || includesCI name (js "private").

Definition SAFE_VALUES : list (list N) :=
  [js "proxy-managed"; js "placeholder"; js "none"; js "disabled";
   js "false"; js ""].

Definition SAFE_NAMES : list (list N) :=
  [js "TERM"; js "COLORTERM"; js "SSH_AUTH_SOCK"; js "GPG_AGENT_INFO";
   js "DBUS_SESSION_BUS_ADDRESS"; js "XDG_SESSION_TYPE";
   js "TOKENIZERS_PARALLELISM"].

(** [set.has(x)] *)
Definition has (set : list (list N)) (x : list N) : bool :=
  existsb (fun y => streq x y) set.

(** [VALUE_PATTERNS], each pattern as the test it makes. *)
Definition VALUE_PATTERNS : list ((list N -> bool) * list N) :=
  [ (fun v => startsWith v (js "sk-ant-"), js "Anthropic API key");
    (fun v => startsWith v (js "sk-"), js "OpenAI API key");
    (fun v => startsWith v (js "ghp_"), js "GitHub PAT");
    (fun v => startsWith v (js "gho_"), js "GitHub OAuth token");
    (fun v => startsWith v (js "ghs_"), js "GitHub App token");
    (fun v => startsWith v (js "github_pat_"), js "GitHub fine-grained PAT");
    (fun v => startsWith v (js "Bearer")
              && match drop 6 v with
                 | c :: _ => isSpace c
                 | [] => false
                 end, js "Bearer token");
    (fun v => startsWith v (js "AKIA"), js "AWS access key");
    (fun v => startsWith v (js "xoxb-"), js "Slack bot token");
    (fun v => startsWith v (js "xoxp-"), js "Slack user token");
    (fun v => startsWith v (js "eyJ"), js "JWT token") ].

Record Finding := {
  name : list N;
  redacted : list N;
  reason : list N;
}.

Definition redact (value : list N) : list N :=
  if (length value <=? 4)%nat then js "***"
  else take 4 value ++ js "***".

Definition isSuspectName (name : list N) : bool :=
  if has SAFE_NAMES name then false
  else matchesSecretPattern name.

Fixpoint firstLabel (patterns : list ((list N -> bool) * list N))
    (value : list N) : option (list N) :=
  match patterns with
  | [] => None
  | (test, label) :: rest =>
      if test value then Some label else firstLabel rest value
  end.

Definition identifyValue (value : list N) : option (list N) :=
  firstLabel VALUE_PATTERNS value.

(** The body of the loop of [envDoctor]: the finding of one variable, if
    any.  [toLowerCase] is exact on the Latin-1 range; beyond it the only
    code unit that lowers to ASCII text is U+212A, to [k], which no safe
    value holds, so the test against [SAFE_VALUES] comes out as in the
    source for every value. *)
Definition inspect (entry : list N * list N) : option Finding :=
  let name := entry.1 in
  let value := entry.2 in
  if (length value =? 0)%nat || has SAFE_VALUES (toLowerCase value) then None
  else
    match identifyValue value with
    | Some valueMatch =>
        Some {| name := name; redacted := redact value;
                reason := valueMatch |}
    | None =>
        if isSuspectName name
        then Some {| name := name; redacted := redact value;
                     reason := js "name matches secret pattern" |}
        else None
    end.

(** The findings [envDoctor] returns; [env] is [Object.entries(process.env)]. *)
Definition envDoctor (env : list (list N * list N)) : list Finding :=
  omap inspect env.

End EnvDoctor.

(* ===================================================================== *)
(** ** What a request in flight shows *)
(* ===================================================================== *)


(** The ['data'] events of an upstream body. *)
Definition proxyDataEvents (chunks : list (list Byte.byte)) : list Event :=
  ProxyData <$> chunks.

(** An audit entry of the request that [fl] is the flight of. *)
Definition entryOf (fl : Flight) (e : AuditEntry) : Prop :=
  Audit.backend e = backendName fl
  /\ Audit.method e = Proxy.method fl
  /\ Audit.path e = targetPath fl
  /\ (allowed e = false -> status e = Some 413).

(* ===================================================================== *)
(** ** More sample data *)
(* ===================================================================== *)

Module Sample2.




Definition iso3 : list N := js "2026-02-07T12:00:02.000Z".


(** An environment with a key for Anthropic and one for OpenAI. *)
Definition env : gmap (list N) (list N) :=
  {[ js "ANTHROPIC_API_KEY" := js "sk-ant-123";
     js "OPENAI_API_KEY" := js "sk-456";
     js "HOME" := js "/root" ]}.

(** The parsed configuration of the README. *)
Definition rawConfig : Loader.RawConfig :=
  {| Loader.port := None;
     Loader.bind := None;
     Loader.auditLog := Some (js "./audit.log");
     Loader.backends :=
       Some [(js "anthropic",
              {| Loader.target := Some (js "https://api.anthropic.com");
                 Loader.headers :=
                   Some [(js "x-api-key", js "$ANTHROPIC_API_KEY");
                         (js "anthropic-version", js "2023-06-01")];
                 Loader.allowedPaths := Some [js "/v1/messages"];
                 Loader.maxBodyBytes := None |})] |}.

Definition entry (n : Z) : AuditEntry :=
  {| ts := Sample.iso1; backend := js "myapi"; Audit.method := js "GET";
     path := js "/v1/test"; status := Some n; durationMs := None;
     allowed := true; reason := None |}.

(** [process.env] as its entries. *)
Definition envEntries : list (list N * list N) :=
  [(js "HOME", js "/root");
   (js "ANTHROPIC_API_KEY", js "proxy-managed");
   (js "OPENAI_API_KEY", js "sk-456");
   (js "DB_PASSWORD", js "hunter2hunter2");
   (js "EMPTY_TOKEN", js "")].

End Sample2.

(* ===================================================================== *)
(** ** Strings: what the primitives compute *)
(* ===================================================================== *)

Section StringFacts.

Lemma streq_spec (s t : list N) : streq s t = true <-> s = t.
Proof.
  revert t; induction s as [|a s IH]; intros [|b t]; simpl; try easy.
  rewrite andb_true_iff, N.eqb_eq, IH. split.
  - intros [-> ->]; reflexivity.
  - intros [= -> ->]; auto.
Qed.

Lemma streq_refl (s : list N) : streq s s = true.
Proof. apply streq_spec; reflexivity. Qed.

Lemma streq_neq (s t : list N) : streq s t = false <-> s <> t.
Proof.
  rewrite <- streq_spec. destruct (streq s t); split; congruence.
Qed.

Lemma startsWith_spec (s p : list N) :
  startsWith s p = true <-> exists r, s = p ++ r.
Proof.
  revert s; induction p as [|a p IH]; intros s; simpl.
  - split; eauto.
  - destruct s as [|b s].
    + split; [discriminate | intros [r Hr]; discriminate].
    + rewrite andb_true_iff, N.eqb_eq, IH. split.
      * intros [-> [r ->]]. exists r; reflexivity.
      * intros [r [= -> ->]]. eauto.
Qed.


Lemma endsWith_spec (s p : list N) :
  endsWith s p = true <-> exists q, s = q ++ p.
Proof.
  unfold endsWith. rewrite startsWith_spec. split.
  - intros [r Hr]. exists (rev r).
    rewrite <- (rev_involutive s), Hr, rev_app_distr, rev_involutive.
    reflexivity.
  - intros [q ->]. exists (rev q). apply rev_app_distr.
Qed.

Lemma slice0m1_snoc (q : list N) (c : N) : slice0m1 (q ++ [c]) = q.
Proof. apply removelast_last. Qed.

End StringFacts.

(* ===================================================================== *)
(** ** The path allowlist *)
(* ===================================================================== *)

Section Allowlist.

Lemma patternMatches_spec (path pattern : list N) :
  patternMatches path pattern = true <->
  (exists pre rest, pattern = pre ++ js "*" /\ path = pre ++ rest)
  \/ pattern = path.
Proof.
  unfold patternMatches.
  destruct (endsWith pattern (js "*")) eqn:Hstar.
  - apply endsWith_spec in Hstar as [q ->].
    change (js "*") with [42%N]. rewrite slice0m1_snoc, startsWith_spec.
    split.
    + intros [r ->]. left; eauto.
    + intros [(pre & rest & Hp & ->) | <-].
      * apply app_inj_tail in Hp as [-> _]. eauto.
      * eauto.
  - rewrite streq_spec. split.
    + intros ->; auto.
    + intros [(pre & rest & -> & _) | ->]; [|reflexivity].
      assert (endsWith (pre ++ js "*") (js "*") = true) as E
        by (apply endsWith_spec; eauto).
      congruence.
Qed.

Lemma anyPattern_spec (path : list N) (patterns : list (list N)) :
  anyPattern path patterns = true <->
  exists pattern, pattern ∈ patterns /\ patternMatches path pattern = true.
Proof.
  induction patterns as [|q l IH]; simpl.
  - split; [discriminate | intros (x & Hx & _); inversion Hx].
  - destruct (patternMatches path q) eqn:Hq.
    + split; [|reflexivity]. intros _. exists q. split; [left | exact Hq].
    + rewrite IH. split.
      * intros (x & Hx & Hm). exists x. split; [right; exact Hx | exact Hm].
      * intros (x & Hx & Hm). apply elem_of_cons in Hx as [-> | Hx].
        -- congruence.
        -- eauto.
Qed.

(** C5. The allowlist check passes exactly when the pattern list is empty
    (or absent), or some pattern either ends with ['*'] and the path starts
    with the pattern minus that ['*'], or equals the path.  With the list
    [["/repos/foo/*"]], ["/repos/foo/bar"] passes and ["/repos/food/bar"]
    does not. *)
Theorem isPathAllowed_spec (path : list N) (L : list (list N)) :
  (isPathAllowed path (Some L) = true <->
     L = []
     \/ exists pattern, pattern ∈ L /\
          ((exists pre rest, pattern = pre ++ js "*" /\ path = pre ++ rest)
           \/ pattern = path))
  /\ isPathAllowed path None = true
  /\ isPathAllowed (js "/repos/foo/bar") (Some [js "/repos/foo/*"]) = true
  /\ isPathAllowed (js "/repos/food/bar") (Some [js "/repos/foo/*"]) = false.
Proof.
  split; [|repeat split; reflexivity].
  destruct L as [|q l].
  - simpl. split; auto.
  - change (isPathAllowed path (Some (q :: l))) with (anyPattern path (q :: l)).
    rewrite anyPattern_spec. split.
    + intros (x & Hx & Hm). right. exists x. split; [exact Hx|].
      apply patternMatches_spec; exact Hm.
    + intros [Hnil | (x & Hx & Hm)]; [discriminate|].
      exists x. split; [exact Hx|]. apply patternMatches_spec; exact Hm.
Qed.

End Allowlist.

(* ===================================================================== *)
(** ** The header passes *)
(* ===================================================================== *)

Section Headers.

Lemma copyHeaders_lookup (reqHeaders : gmap (list N) HeaderValue) (k : list N) :
  copyHeaders reqHeaders !! k =
  if streq k (js "host") || streq k (js "connection") then None
  else reqHeaders !! k.
Proof.
  unfold copyHeaders. revert k.
  apply (map_fold_weak_ind
           (fun (r m : gmap (list N) HeaderValue) => forall k,
              r !! k = if streq k (js "host") || streq k (js "connection")
                       then None else m !! k)).
  - intros k. rewrite !lookup_empty. destruct (_ || _); reflexivity.
  - intros i x m r Hi IH k.
    destruct (decide (i = k)) as [->|Hne].
    + rewrite lookup_insert_eq.
      destruct (streq k (js "host")) eqn:E1,
               (streq k (js "connection")) eqn:E2; simpl;
        rewrite ?lookup_insert_eq, ?IH, ?E1, ?E2; reflexivity.
    + rewrite (lookup_insert_ne m) by exact Hne.
      destruct (negb _ && negb _);
        rewrite ?lookup_insert_ne by exact Hne; apply IH.
Qed.

Lemma injectHeaders_lookup (backendHeaders : gmap (list N) (list N))
    (base : gmap (list N) HeaderValue) (k : list N) :
  injectHeaders backendHeaders base !! k =
  match backendHeaders !! k with
  | Some v => Some (HString v)
  | None => base !! k
  end.
Proof.
  unfold injectHeaders. revert k.
  apply (map_fold_weak_ind
           (fun (r : gmap (list N) HeaderValue) (m : gmap (list N) (list N)) =>
              forall k, r !! k = match m !! k with
                                 | Some v => Some (HString v)
                                 | None => base !! k
                                 end)).
  - intros k. rewrite lookup_empty. reflexivity.
  - intros i x m r Hi IH k.
    destruct (decide (i = k)) as [->|Hne].
    + rewrite !lookup_insert_eq. reflexivity.
    + rewrite !lookup_insert_ne by exact Hne. apply IH.
Qed.

Lemma buildHeaders_lookup (reqHeaders : gmap (list N) HeaderValue)
    (backendHeaders : gmap (list N) (list N)) (k : list N) :
  buildHeaders reqHeaders backendHeaders !! k =
  match backendHeaders !! k with
  | Some v => Some (HString v)
  | None =>
      if streq k (js "host") || streq k (js "connection") then None
      else reqHeaders !! k
  end.
Proof.
  unfold buildHeaders. rewrite injectHeaders_lookup, copyHeaders_lookup.
  reflexivity.
Qed.

Lemma safeHeaders_lookup (proxyResHeaders : gmap (list N) HeaderValue)
    (k : list N) :
  safeHeaders proxyResHeaders !! k =
  if bool_decide (toLowerCase k ∈ ALLOWED_RESPONSE_HEADERS)
  then proxyResHeaders !! k else None.
Proof.
  unfold safeHeaders. revert k.
  apply (map_fold_weak_ind
           (fun (r m : gmap (list N) HeaderValue) => forall k,
              r !! k = if bool_decide (toLowerCase k ∈ ALLOWED_RESPONSE_HEADERS)
                       then m !! k else None)).
  - intros k. rewrite !lookup_empty. destruct (bool_decide _); reflexivity.
  - intros i x m r Hi IH k.
    destruct (decide (i = k)) as [->|Hne].
    + rewrite lookup_insert_eq.
      destruct (bool_decide (toLowerCase k ∈ ALLOWED_RESPONSE_HEADERS)) eqn:E.
      * apply lookup_insert_eq.
      * rewrite IH, E. reflexivity.
    + rewrite (lookup_insert_ne m) by exact Hne.
      destruct (bool_decide (toLowerCase i ∈ ALLOWED_RESPONSE_HEADERS));
        rewrite ?lookup_insert_ne by exact Hne; apply IH.
Qed.

Lemma allowed_response_headers (x : list N) :
  x ∈ ALLOWED_RESPONSE_HEADERS <->
  x ∈ [js "content-type"; js "content-length"; js "content-encoding";
       js "transfer-encoding"; js "cache-control"; js "date"; js "etag";
       js "vary"].
Proof.
  unfold ALLOWED_RESPONSE_HEADERS.
  rewrite !elem_of_union, !elem_of_singleton, !elem_of_cons, elem_of_nil.
  tauto.
Qed.

End Headers.

(* ===================================================================== *)
(** ** Routing: what [handleRequest] returns *)
(* ===================================================================== *)

Section Routing.

Context (newURL : list N -> option (list N) -> option URL).

Lemma audit_appends (l : option AuditLog) (e : AuditEntry) :
  logOpen l = true ->
  entriesOf (audit l e) = entriesOf l ++ [e] /\ logOpen (audit l e) = true.
Proof.
  destruct l as [[[d|] lp ls]|]; try discriminate. intros _.
  split; reflexivity.
Qed.

Lemma headersSent_false (res : ServerResponse) :
  headersSent res = false <-> _header res = None.
Proof. unfold headersSent. destruct (_header res); split; congruence. Qed.

Lemma writeHead_unsent (res : ServerResponse) (status : Z)
    (hdrs : gmap (list N) HeaderValue) :
  headersSent res = false ->
  writeHead res status hdrs =
  Ok {| _header := Some (status, hdrs); body := body res;
        writableEnded := writableEnded res;
        socketDestroyed := socketDestroyed res; wire := wire res |}.
Proof. intros H. unfold writeHead. rewrite H. reflexivity. Qed.

Lemma writeHead_sent (res : ServerResponse) (status : Z)
    (hdrs : gmap (list N) HeaderValue) :
  headersSent res = true ->
  writeHead res status hdrs = Throw ERR_HTTP_HEADERS_SENT res.
Proof. intros H. unfold writeHead. rewrite H. reflexivity. Qed.

(** [writeHead] and then [end(data)] on a response whose headers are not
    yet sent. *)
Lemma endWith_head (res : ServerResponse) (status : Z)
    (hdrs : gmap (list N) HeaderValue) (data : Payload) :
  endWith {| _header := Some (status, hdrs); body := body res;
             writableEnded := writableEnded res;
             socketDestroyed := socketDestroyed res; wire := wire res |}
    data
  = answered res status hdrs data.
Proof.
  unfold endWith, end_, Http.write, implicitHeader, answered, flushed, sent.
  cbn. destruct (socketDestroyed res); reflexivity.
Qed.

Lemma answered_fresh (status : Z) (hdrs : gmap (list N) HeaderValue)
    (data : Payload) :
  answered freshResponse status hdrs data = response status hdrs [data].
Proof. reflexivity. Qed.

(** On a response whose headers are not yet sent, [deny] audits once and
    answers 403 with the code and the message. *)
Lemma deny_unsent (l : option AuditLog) (res : ServerResponse)
    (iso code message method path : list N) (backend : option (list N)) :
  headersSent res = false ->
  deny l res iso code message method path backend =
  Ok (answered res 403 jsonContentType (errorBody code message),
      audit l {| ts := iso; backend := orString backend (js "none");
                 Audit.method := method; path := path; status := Some 403;
                 durationMs := None; allowed := false;
                 reason := Some message |}).
Proof.
  intros H. unfold deny. rewrite (writeHead_unsent _ _ _ H).
  fold (errorBody code message). rewrite endWith_head. reflexivity.
Qed.

Lemma denyWith_not_forwarding (p : AuthProxy) (res : ServerResponse)
    (iso code message method path : list N) (backend : option (list N))
    (fl : Flight) :
  denyWith p res iso code message method path backend <> Ok (Forwarding fl).
Proof.
  unfold denyWith. destruct (deny _ _ _ _ _ _ _ _) as [[r l]|e [r l]];
    discriminate.
Qed.

Lemma denyWith_not_health (p : AuthProxy) (res : ServerResponse)
    (iso code message method path : list N) (backend : option (list N))
    (r : ServerResponse) (l : option AuditLog) :
  denyWith p res iso code message method path backend <> Ok (HealthCheck r l).
Proof.
  unfold denyWith. destruct (deny _ _ _ _ _ _ _ _) as [[r' l']|e [r' l']];
    discriminate.
Qed.

(** [forward] on what the prototype chain holds: it throws, whatever
    [new URL] makes of an input without a base. *)
Lemma forward_inherited (p : AuthProxy) (req : IncomingMessage)
    (res : ServerResponse) (backendName targetPath method : list N)
    (dateNow : Z) :
  exists e,
    forward newURL p req res Inherited backendName targetPath method dateNow
    = inl e
    /\ e <> ERR_HTTP_HEADERS_SENT.
Proof.
  unfold forward. cbn [targetOf headersOf].
  destruct (newURL targetPath None); eexists; split; try reflexivity;
    discriminate.
Qed.

(** A request is handed to [forward] only after every check of
    [handleRequest] has passed, and is in flight only when [new URL] has
    made a URL of its path against the target of its backend. *)
Lemma handleRequest_forwarding (p : AuthProxy) (req : IncomingMessage)
    (res : ServerResponse) (iso : list N) (dateNow : Z) (fl : Flight) :
  handleRequest newURL p req res iso dateNow = Ok (Forwarding fl) ->
  let url := orString (Http.url req) (js "/") in
  let slashIdx := indexOf url (js "/") 1 in
  let rawPath := substringFrom url slashIdx in
  let qIdx := indexOf rawPath (js "?") 0 in
  let full decoded :=
    if negb (qIdx =? -1)
    then decoded ++ substringFrom rawPath qIdx else decoded in
  exists backend decoded targetUrl,
    url <> js "/agentauth/health"
    /\ slashIdx <> -1
    /\ decodeURIComponent (first (split 63 rawPath)) = Some decoded
    /\ includes decoded (js "..") = false
    /\ ownProperty (backends (config p)) (substring url 1 slashIdx)
       = Some backend
    /\ isPathAllowed decoded (allowedPaths backend) = true
    /\ newURL (full decoded) (Some (target backend)) = Some targetUrl
    /\ fl = forwardTo targetUrl p req res (Config.headers backend)
              (maxBodyBytes backend) (substring url 1 slashIdx)
              (full decoded) (orString (Http.method req) (js "GET")) dateNow.
Proof.
  unfold handleRequest. cbv zeta.
  destruct (streq _ (js "/agentauth/health")) eqn:Hh.
  { destruct (writeHead _ _ _); discriminate. }
  destruct (indexOf _ (js "/") 1 =? -1) eqn:Hs.
  { intros H; exfalso; revert H; apply denyWith_not_forwarding. }
  destruct (decodeURIComponent _) as [decoded|] eqn:Hd;
    [|intros H; exfalso; revert H; apply denyWith_not_forwarding].
  destruct (includes decoded _) eqn:Hi;
    [intros H; exfalso; revert H; apply denyWith_not_forwarding|].
  unfold getBackend.
  destruct (ownProperty _ _) as [backend|] eqn:Hb.
  - cbn [allowedPathsOf].
    destruct (isPathAllowed _ _) eqn:Ha; cbn [negb];
      [|intros H; exfalso; revert H; apply denyWith_not_forwarding].
    unfold forward. cbn [targetOf headersOf maxBodyBytesOf].
    destruct (newURL _ _) as [targetUrl|] eqn:Hu; [|discriminate].
    intros [= <-]. exists backend, decoded, targetUrl.
    apply streq_neq in Hh. apply Z.eqb_neq in Hs. auto 10.
  - destruct (existsb _ _);
      [|intros H; exfalso; revert H; apply denyWith_not_forwarding].
    cbn [allowedPathsOf isPathAllowed negb].
    destruct (forward_inherited p req res
                (substring (orString (Http.url req) (js "/")) 1
                   (indexOf (orString (Http.url req) (js "/")) (js "/") 1))
                (if negb (indexOf (substringFrom (orString (Http.url req) (js "/"))
                                     (indexOf (orString (Http.url req) (js "/")) (js "/") 1))
                            (js "?") 0 =? -1)
                 then decoded ++ substringFrom
                        (substringFrom (orString (Http.url req) (js "/"))
                           (indexOf (orString (Http.url req) (js "/")) (js "/") 1))
                        (indexOf (substringFrom (orString (Http.url req) (js "/"))
                                    (indexOf (orString (Http.url req) (js "/")) (js "/") 1))
                           (js "?") 0)
                 else decoded)
                (orString (Http.method req) (js "GET")) dateNow)
      as (e & -> & _).
    discriminate.
Qed.

(** C1. In every request that is forwarded, the header set given to the
    upstream request maps each key of the backend's configured headers to
    the configured value, whatever the client sent under that key; every
    other inbound header is copied unchanged, except [host] and
    [connection], which are left out. *)
Theorem injected_headers_override (p : AuthProxy) (req : IncomingMessage)
    (res : ServerResponse) (iso : list N) (dateNow : Z) (fl : Flight) :
  handleRequest newURL p req res iso dateNow = Ok (Forwarding fl) ->
  exists backend,
    ownProperty (backends (config p)) (backendName fl) = Some backend /\
    forall k : list N,
      reqHeaders (proxyReq fl) !! k =
      match Config.headers backend !! k with
      | Some v => Some (HString v)
      | None =>
          if streq k (js "host") || streq k (js "connection") then None
          else Http.headers req !! k
      end.
Proof.
  intros H. apply handleRequest_forwarding in H.
  destruct H as (backend & decoded & targetUrl & _ & _ & _ & _ & Hb & _ & _
                 & ->).
  exists backend. split; [exact Hb|]. intros k. simpl.
  apply buildHeaders_lookup.
Qed.

Lemma denyWith_unsent (p : AuthProxy) (res : ServerResponse)
    (iso code message method path : list N) (backend : option (list N)) :
  headersSent res = false ->
  denyWith p res iso code message method path backend =
  Ok (Denied
        (answered res 403 jsonContentType (errorBody code message))
        (audit (auditLog p)
           {| ts := iso; backend := orString backend (js "none");
              Audit.method := method; path := path; status := Some 403;
              durationMs := None; allowed := false;
              reason := Some message |})).
Proof.
  intros H. unfold denyWith. rewrite (deny_unsent _ _ _ _ _ _ _ _ H).
  reflexivity.
Qed.

(** Every refusal of [handleRequest] goes through [deny], with one of the
    four codes, the method and the raw request-target. *)
Lemma handleRequest_denied (p : AuthProxy) (req : IncomingMessage)
    (res : ServerResponse) (iso : list N) (dateNow : Z)
    (r : ServerResponse) (l : option AuditLog) :
  handleRequest newURL p req res iso dateNow = Ok (Denied r l) ->
  exists code message backend,
    code ∈ denialCodes /\
    denyWith p res iso code message
      (orString (Http.method req) (js "GET"))
      (orString (Http.url req) (js "/")) backend = Ok (Denied r l).
Proof.
  unfold handleRequest, denialCodes. cbv zeta.
  destruct (streq _ (js "/agentauth/health")).
  { destruct (writeHead _ _ _); discriminate. }
  destruct (indexOf _ (js "/") 1 =? -1).
  { intros H. eexists _, _, _. split; [|exact H]. set_solver. }
  destruct (decodeURIComponent _) as [decoded|].
  2:{ intros H. eexists _, _, _. split; [|exact H]. set_solver. }
  destruct (includes decoded _).
  { intros H. eexists _, _, _. split; [|exact H]. set_solver. }
  destruct (getBackend _ _) as [backend|].
  2:{ intros H. eexists _, _, _. split; [|exact H]. set_solver. }
  destruct (isPathAllowed _ _); cbn [negb].
  { destruct (forward _ _ _ _ _ _ _ _ _); discriminate. }
  intros H. eexists _, _, _. split; [|exact H]. set_solver.
Qed.





End Routing.

(* ===================================================================== *)
(** ** Percent-decoding *)
(* ===================================================================== *)

Section Decoding.

Lemma escapeOctet_length (s r : list N) (b : N) :
  escapeOctet s = Some (b, r) -> length s = (3 + length r)%nat.
Proof.
  destruct s as [|p [|h [|l rest]]]; simpl; try discriminate.
  destruct (p =? 37)%N; [|discriminate].
  destruct (parseHexOctet h l); [|discriminate].
  intros [= _ <-]. reflexivity.
Qed.

Lemma escapeOctet_app (s r t : list N) (b : N) :
  escapeOctet s = Some (b, r) -> escapeOctet (s ++ t) = Some (b, r ++ t).
Proof.
  destruct s as [|p [|h [|l rest]]]; simpl; try discriminate.
  destruct (p =? 37)%N; [|discriminate].
  destruct (parseHexOctet h l); [|discriminate].
  intros [= <- <-]. reflexivity.
Qed.

Ltac octet H :=
  match type of H with
  | context [escapeOctet ?x] =>
      let E := fresh "E" in
      destruct (escapeOctet x) as [[? ?]|] eqn:E; [|discriminate H]
  end.

Ltac branch H :=
  match type of H with
  | (if ?c then _ else _) = _ => destruct c; [|try discriminate H]
  end.

(** Every round of the loop consumes at least one code unit. *)
Lemma decodeOne_length (s out rest : list N) :
  decodeOne s = Some (out, rest) -> (length rest < length s)%nat.
Proof.
  unfold decodeOne. destruct s as [|c t]; [discriminate|].
  destruct (negb (c =? 37)%N).
  { intros [= _ <-]. simpl. lia. }
  intros H. octet H. apply escapeOctet_length in E.
  destruct (n <? 128)%N; [injection H as _ <-; lia|].
  destruct (n <? 194)%N; [discriminate|].
  destruct (n <? 224)%N.
  { octet H. apply escapeOctet_length in E0. branch H.
    injection H as _ <-. lia. }
  destruct (n <? 240)%N.
  { octet H. octet H. apply escapeOctet_length in E0, E1. branch H.
    injection H as _ <-. lia. }
  destruct (n <? 245)%N; [|discriminate].
  octet H. octet H. octet H.
  apply escapeOctet_length in E0, E1, E2. branch H.
  injection H as _ <-. lia.
Qed.

(** A round reads only the code units it consumes. *)
Lemma decodeOne_app (s out rest t : list N) :
  decodeOne s = Some (out, rest) ->
  decodeOne (s ++ t) = Some (out, rest ++ t).
Proof.
  unfold decodeOne. destruct s as [|c s']; [discriminate|].
  rewrite <- app_comm_cons. cbv beta iota.
  destruct (negb (c =? 37)%N).
  { intros [= <- <-]. reflexivity. }
  rewrite app_comm_cons.
  intros H. octet H. rewrite (escapeOctet_app _ _ t _ E).
  destruct (n <? 128)%N; [injection H as <- <-; reflexivity|].
  destruct (n <? 194)%N; [discriminate|].
  destruct (n <? 224)%N.
  { octet H. rewrite (escapeOctet_app _ _ t _ E0). branch H.
    injection H as <- <-. reflexivity. }
  destruct (n <? 240)%N.
  { octet H. octet H.
    rewrite (escapeOctet_app _ _ t _ E0), (escapeOctet_app _ _ t _ E1).
    branch H. injection H as <- <-. reflexivity. }
  destruct (n <? 245)%N; [|discriminate].
  octet H. octet H. octet H.
  rewrite (escapeOctet_app _ _ t _ E0), (escapeOctet_app _ _ t _ E1),
    (escapeOctet_app _ _ t _ E2).
  branch H. injection H as <- <-. reflexivity.
Qed.


(** [length s] rounds are enough: with that much fuel the loop stops only
    at the end of the string or where [decodeOne] throws. *)
Lemma decodeLoop_enough (f : nat) (s : list N) :
  (length s <= f)%nat -> decodeLoop f s = decodeLoop (length s) s.
Proof.
  remember (length s) as n eqn:Hn. revert s f Hn.
  induction n as [n IH] using lt_wf_ind. intros s f Hn Hle.
  destruct s as [|c s]; [subst; destruct f; reflexivity|].
  destruct f as [|f]; [simpl in Hn; lia|].
  subst n. cbn [length decodeLoop].
  destruct (decodeOne (c :: s)) as [[o r]|] eqn:E; [|reflexivity].
  apply decodeOne_length in E. simpl in E, Hle.
  rewrite (IH (length r) ltac:(simpl; lia) r f eq_refl ltac:(lia)).
  rewrite (IH (length r) ltac:(simpl; lia) r (length s) eq_refl ltac:(lia)).
  reflexivity.
Qed.







End Decoding.

(* ===================================================================== *)
(** ** Path traversal *)
(* ===================================================================== *)

Section Traversal.

Context (newURL : list N -> option (list N) -> option URL).


End Traversal.


(** C2 against the code.  One pass of decoding turns ["%252e%252e"] into
    ["%2e%2e"], which holds no [".."]: the request is not refused, no
    audit entry is written, and the path goes to [new URL] with the
    escaped dots in it.  The URL made of it names [/admin], which the
    allowlist [["/v1/*"]] of the backend does not admit, and that is the
    URL the upstream request is made to. *)
Theorem double_encoded_traversal_forwarded :
  includes (js "/myapi/v1/%252e%252e/admin") (js "%252e%252e") = true
  /\ decodeURIComponent (js "/v1/%252e%252e/admin")
     = Some (js "/v1/%2e%2e/admin")
  /\ isPathAllowed (js "/admin") (allowedPaths Sample.backend) = false
  /\ exists fl,
       handleRequest Sample.newURL Sample.proxy
         (Sample.get "/myapi/v1/%252e%252e/admin")
         freshResponse Sample.iso1 1000 = Ok (Forwarding fl)
       /\ targetPath fl = js "/v1/%2e%2e/admin"
       /\ reqUrl (proxyReq fl) = js "https://api.example.com/admin"
       /\ res fl = freshResponse
       /\ entriesOf (log fl) = [].
Proof.
  split; [reflexivity|]. split; [reflexivity|]. split; [reflexivity|].
  eexists. split; [reflexivity|].
  repeat split; reflexivity.
Qed.

(* ===================================================================== *)
(** ** The handlers, field by field *)
(* ===================================================================== *)

Section HandlerRecords.

Ltac unfold_handlers :=
  unfold onProxyResponse, onProxyError, onData, withRes, withLog,
    withProxyReq, withReqDestroyed, withPiping, withReceived, writeHead;
  cbn [res log proxyReq received maxBody reqDestroyed piping backendName
       Proxy.method targetPath startTime].

Lemma headersSent_destroySocket (r : ServerResponse) :
  headersSent (destroySocket r) = headersSent r.
Proof. reflexivity. Qed.

(** A response answered on a destroyed socket: the head and the body are
    stored, and nothing more is on the wire. *)
Lemma answered_destroyed (r : ServerResponse) (status : Z)
    (hdrs : gmap (list N) HeaderValue) (data : Payload) :
  answered (destroySocket r) status hdrs data =
  {| _header := Some (status, hdrs); body := body r ++ [data];
     writableEnded := true; socketDestroyed := true; wire := wire r |}.
Proof. reflexivity. Qed.

(** The handlers on a flight given field by field. *)
Lemma onData_record (r : ServerResponse) (l : option AuditLog)
    (pr : ClientRequest) (rd pi : bool) (rc : Z) (bn m tp : list N)
    (st mx : Z) (iso : list N) (chunk : list Byte.byte) :
  onData {| res := r; log := l; proxyReq := pr; reqDestroyed := rd;
            piping := pi; received := rc; backendName := bn;
            Proxy.method := m; targetPath := tp; startTime := st;
            maxBody := mx |} iso chunk =
  if rc + Z.of_nat (length chunk) >? mx then
    {| res := if headersSent r then destroySocket r
              else answered (destroySocket r) 413 jsonContentType
                     (errorBody (js "body_too_large")
                        (js "Request body exceeds " ++ numberToString mx
                         ++ js " byte limit"));
       log := audit l {| ts := iso; backend := bn; Audit.method := m;
                         path := tp; status := Some 413; durationMs := None;
                         allowed := false;
                         reason := Some (js "body exceeded "
                                         ++ numberToString mx
                                         ++ js " bytes") |};
       proxyReq := reqDestroy pr; reqDestroyed := true; piping := pi;
       received := rc + Z.of_nat (length chunk); backendName := bn;
       Proxy.method := m; targetPath := tp; startTime := st; maxBody := mx |}
  else
    {| res := r; log := l; proxyReq := reqWrite pr chunk;
       reqDestroyed := rd; piping := pi;
       received := rc + Z.of_nat (length chunk); backendName := bn;
       Proxy.method := m; targetPath := tp; startTime := st; maxBody := mx |}.
Proof.
  unfold_handlers. destruct (_ >? _); [|reflexivity].
  rewrite headersSent_destroySocket.
  destruct (headersSent r) eqn:Hs; cbn [negb]; [reflexivity|].
  rewrite <- (endWith_head (destroySocket r)). reflexivity.
Qed.

Lemma onProxyError_record (r : ServerResponse) (l : option AuditLog)
    (pr : ClientRequest) (rd pi : bool) (rc : Z) (bn m tp : list N)
    (st mx : Z) (iso : list N) (dateNow : Z) (message : list N) :
  onProxyError {| res := r; log := l; proxyReq := pr; reqDestroyed := rd;
                  piping := pi; received := rc; backendName := bn;
                  Proxy.method := m; targetPath := tp; startTime := st;
                  maxBody := mx |} iso dateNow message =
  {| res := if headersSent r then r
            else answered r 502 jsonContentType
                   (errorBody (js "upstream_error")
                      (js "upstream unavailable"));
     log := audit l {| ts := iso; backend := bn; Audit.method := m;
                       path := tp; status := Some 502;
                       durationMs := Some (dateNow - st); allowed := true;
                       reason := Some (js "upstream error: " ++ message) |};
     proxyReq := pr; reqDestroyed := rd; piping := pi; received := rc;
     backendName := bn; Proxy.method := m; targetPath := tp;
     startTime := st; maxBody := mx |}.
Proof.
  unfold_handlers.
  destruct (headersSent r) eqn:Hs; cbn [negb]; [reflexivity|].
  rewrite <- (endWith_head r). reflexivity.
Qed.

Lemma onProxyResponse_record (r : ServerResponse) (l : option AuditLog)
    (pr : ClientRequest) (rd pi : bool) (rc : Z) (bn m tp : list N)
    (st mx : Z) (iso : list N) (dateNow : Z) (statusCode : option Z)
    (hs : gmap (list N) HeaderValue) :
  let entry := {| ts := iso; backend := bn; Audit.method := m; path := tp;
                  status := statusCode; durationMs := Some (dateNow - st);
                  allowed := true; reason := None |} in
  onProxyResponse {| res := r; log := l; proxyReq := pr; reqDestroyed := rd;
                     piping := pi; received := rc; backendName := bn;
                     Proxy.method := m; targetPath := tp; startTime := st;
                     maxBody := mx |} iso dateNow statusCode hs =
  if headersSent r then
    Throw ERR_HTTP_HEADERS_SENT
      {| res := r; log := audit l entry; proxyReq := pr; reqDestroyed := rd;
         piping := pi; received := rc; backendName := bn;
         Proxy.method := m; targetPath := tp; startTime := st;
         maxBody := mx |}
  else
    Ok {| res := {| _header := Some (orNumber statusCode 502,
                                     safeHeaders hs);
                    body := body r; writableEnded := writableEnded r;
                    socketDestroyed := socketDestroyed r; wire := wire r |};
          log := audit l entry; proxyReq := pr; reqDestroyed := rd;
          piping := true; received := rc; backendName := bn;
          Proxy.method := m; targetPath := tp; startTime := st;
          maxBody := mx |}.
Proof.
  unfold_handlers. destruct (headersSent r); reflexivity.
Qed.

End HandlerRecords.

(* ===================================================================== *)
(** ** Requests in flight *)
(* ===================================================================== *)

Section InFlight.

Context (newURL : list N -> option (list N) -> option URL).

Ltac fields :=
  cbn [stateOf res log proxyReq written received maxBody reqDestroyed piping
       destroyed responded backendName Proxy.method targetPath startTime
       secure reqUrl reqMethod reqHeaders ended _header body writableEnded
       socketDestroyed wire] in *.

Ltac step_event :=
  unfold emit, hangUp;
  unfold onEnd, onError, onProxyData, onProxyEnd, withRes, withProxyReq,
    withReqDestroyed;
  fields;
  rewrite ?onData_record, ?onProxyError_record, ?onProxyResponse_record;
  fields.

(** The response callback: one audit entry, then the upstream status and
    the filtered headers. *)
Lemma onProxyResponse_unsent (fl : Flight) (iso : list N) (dateNow : Z)
    (statusCode : option Z) (hs : gmap (list N) HeaderValue) :
  headersSent (res fl) = false ->
  exists fl1,
    emit fl (ProxyResponse iso dateNow statusCode hs) = Ok fl1
    /\ res fl1 = {| _header := Some (orNumber statusCode 502, safeHeaders hs);
                    body := body (res fl);
                    writableEnded := writableEnded (res fl);
                    socketDestroyed := socketDestroyed (res fl);
                    wire := wire (res fl) |}
    /\ log fl1 = audit (log fl)
                   {| ts := iso; backend := backendName fl;
                      Audit.method := method fl; path := targetPath fl;
                      status := statusCode;
                      durationMs := Some (dateNow - startTime fl);
                      allowed := true; reason := None |}
    /\ piping fl1 = true
    /\ proxyReq fl1 = reqResponded (proxyReq fl).
Proof.
  destruct fl as [r l pr rd pi rc bn m tp st mx]. fields. intros H.
  step_event. rewrite H. eexists. split; [reflexivity|]. fields.
  repeat split; reflexivity.
Qed.

Lemma onProxyResponse_log (fl : Flight) (iso : list N) (dateNow : Z)
    (statusCode : option Z) (hs : gmap (list N) HeaderValue) :
  log (stateOf (emit fl (ProxyResponse iso dateNow statusCode hs))) =
  audit (log fl)
    {| ts := iso; backend := backendName fl; Audit.method := method fl;
       path := targetPath fl; status := statusCode;
       durationMs := Some (dateNow - startTime fl);
       allowed := true; reason := None |}.
Proof.
  destruct fl as [r l pr rd pi rc bn m tp st mx]. step_event.
  destruct (headersSent r); reflexivity.
Qed.

Lemma onProxyError_log (fl : Flight) (iso : list N) (dateNow : Z)
    (message : list N) :
  log (onProxyError fl iso dateNow message) =
  audit (log fl)
    {| ts := iso; backend := backendName fl; Audit.method := method fl;
       path := targetPath fl; status := Some 502;
       durationMs := Some (dateNow - startTime fl); allowed := true;
       reason := Some (js "upstream error: " ++ message) |}.
Proof.
  destruct fl as [r l pr rd pi rc bn m tp st mx].
  rewrite onProxyError_record. reflexivity.
Qed.

Lemma onProxyError_unsent (fl : Flight) (iso : list N) (dateNow : Z)
    (message : list N) :
  headersSent (res fl) = false ->
  res (onProxyError fl iso dateNow message) =
  answered (res fl) 502 jsonContentType
    (errorBody (js "upstream_error") (js "upstream unavailable")).
Proof.
  destruct fl as [r l pr rd pi rc bn m tp st mx]. fields. intros H.
  rewrite onProxyError_record. fields. rewrite H. reflexivity.
Qed.

Lemma onProxyError_sent (fl : Flight) (iso : list N) (dateNow : Z)
    (message : list N) :
  headersSent (res fl) = true ->
  res (onProxyError fl iso dateNow message) = res fl.
Proof.
  destruct fl as [r l pr rd pi rc bn m tp st mx]. fields. intros H.
  rewrite onProxyError_record. fields. rewrite H. reflexivity.
Qed.


(** A chunk that takes the counter over the limit. *)
Lemma onData_over (fl : Flight) (iso : list N) (chunk : list Byte.byte) :
  maxBody fl < received fl + Z.of_nat (length chunk) ->
  log (onData fl iso chunk) =
    audit (log fl)
      {| ts := iso; backend := backendName fl; Audit.method := method fl;
         path := targetPath fl; status := Some 413; durationMs := None;
         allowed := false;
         reason := Some (js "body exceeded " ++ numberToString (maxBody fl)
                         ++ js " bytes") |}
  /\ reqDestroyed (onData fl iso chunk) = true
  /\ proxyReq (onData fl iso chunk) = reqDestroy (proxyReq fl)
  /\ (headersSent (res fl) = true ->
      res (onData fl iso chunk) = destroySocket (res fl))
  /\ (headersSent (res fl) = false ->
      res (onData fl iso chunk) =
      answered (destroySocket (res fl)) 413 jsonContentType
        (errorBody (js "body_too_large")
           (js "Request body exceeds " ++ numberToString (maxBody fl)
            ++ js " byte limit")))
  /\ maxBody (onData fl iso chunk) = maxBody fl
  /\ backendName (onData fl iso chunk) = backendName fl
  /\ method (onData fl iso chunk) = method fl
  /\ targetPath (onData fl iso chunk) = targetPath fl
  /\ startTime (onData fl iso chunk) = startTime fl.
Proof.
  destruct fl as [r l pr rd pi rc bn m tp st mx]. fields.
  intros Hover. apply Z.gtb_lt in Hover.
  rewrite onData_record, Hover. fields.
  repeat split; intros H; rewrite H; reflexivity.
Qed.





(** The delivery of a chunk that crosses the limit while the upstream
    request is live and unanswered: the handler destroys it, and Node has
    the ['error'] handler run with [socket hang up]. *)
Lemma emit_data_over (fl : Flight) (iso : list N) (chunk : list Byte.byte)
    (hangIso : list N) (hangNow : Z) :
  reqDestroyed fl = false ->
  maxBody fl < received fl + Z.of_nat (length chunk) ->
  emit fl (ReqData iso chunk hangIso hangNow) =
  Ok (if negb (destroyed (proxyReq fl)) && negb (responded (proxyReq fl))
      then onProxyError (onData fl iso chunk) hangIso hangNow
             (js "socket hang up")
      else onData fl iso chunk).
Proof.
  intros Hrd Hover. cbn [emit]. rewrite Hrd. unfold hangUp.
  destruct (onData_over fl iso chunk Hover) as (_ & _ & Hpr & _).
  rewrite Hpr. cbn [destroyed responded reqDestroy andb]. reflexivity.
Qed.

Lemma run_app (a b : list Event) (fl : Flight) :
  run fl (a ++ b) =
  match run fl a with
  | Ok fl1 => run fl1 b
  | Throw e fl1 => Throw e fl1
  end.
Proof.
  revert fl. induction a as [|ev a IH]; intros fl; [reflexivity|].
  cbn [run app]. destruct (emit fl ev); [apply IH | reflexivity].
Qed.


Lemma totalLength_app (a b : list (list Byte.byte)) :
  totalLength (a ++ b) = totalLength a + totalLength b.
Proof. induction a; simpl; lia. Qed.




(** C6. When the upstream answers, the header set written to the client
    holds an upstream header exactly when the lowercase of its name is one
    of [content-type], [content-length], [content-encoding],
    [transfer-encoding], [cache-control], [date], [etag], [vary], and then
    with the upstream's value; every other upstream header is dropped. *)
Theorem response_headers_filtered (fl : Flight) (iso : list N) (dateNow : Z)
    (statusCode : option Z) (hs : gmap (list N) HeaderValue) :
  headersSent (res fl) = false ->
  exists fl1 relayed,
    emit fl (ProxyResponse iso dateNow statusCode hs) = Ok fl1
    /\ _header (res fl1) = Some (orNumber statusCode 502, relayed)
    /\ forall k : list N,
         (toLowerCase k ∈
            [js "content-type"; js "content-length"; js "content-encoding";
             js "transfer-encoding"; js "cache-control"; js "date";
             js "etag"; js "vary"] -> relayed !! k = hs !! k)
         /\ (toLowerCase k ∉
               [js "content-type"; js "content-length"; js "content-encoding";
                js "transfer-encoding"; js "cache-control"; js "date";
                js "etag"; js "vary"] -> relayed !! k = None).
Proof.
  intros H.
  destruct (onProxyResponse_unsent fl iso dateNow statusCode hs H)
    as (fl1 & Hemit & Hres & _).
  exists fl1, (safeHeaders hs). split; [exact Hemit|].
  split; [rewrite Hres; reflexivity|].
  intros k. rewrite safeHeaders_lookup. split; intros Hk.
  - apply allowed_response_headers in Hk.
    rewrite bool_decide_eq_true_2 by exact Hk. reflexivity.
  - rewrite bool_decide_eq_false_2; [reflexivity|].
    intros Hin. apply Hk, allowed_response_headers, Hin.
Qed.



(** C8, as the code has it.  The entry of a refusal has status 403 and no
    [durationMs].  The entry of an upstream response has the upstream's
    status code and a [durationMs]; the entry of an upstream error has
    status 502 and a [durationMs]; the entry of a body over the limit has
    status 413 and no [durationMs]. *)
Theorem audit_status_and_duration (p : AuthProxy) (req : IncomingMessage)
    (iso : list N) (dateNow : Z) (fl : Flight) (iso' : list N) (dateNow' : Z)
    (statusCode : option Z) (hs : gmap (list N) HeaderValue)
    (message : list N) (chunk : list Byte.byte) :
  logOpen (auditLog p) = true -> logOpen (log fl) = true ->
  (forall r l,
     handleRequest newURL p req freshResponse iso dateNow
     = Ok (Denied r l) ->
     exists e, entriesOf l = entriesOf (auditLog p) ++ [e]
               /\ status e = Some 403 /\ durationMs e = None
               /\ allowed e = false)
  /\ (exists e,
        entriesOf (log (stateOf
          (emit fl (ProxyResponse iso' dateNow' statusCode hs))))
        = entriesOf (log fl) ++ [e]
        /\ status e = statusCode
        /\ durationMs e = Some (dateNow' - startTime fl)
        /\ allowed e = true)
  /\ (exists e,
        entriesOf (log (onProxyError fl iso' dateNow' message))
        = entriesOf (log fl) ++ [e]
        /\ status e = Some 502
        /\ durationMs e = Some (dateNow' - startTime fl)
        /\ allowed e = true)
  /\ (maxBody fl < received fl + Z.of_nat (length chunk) ->
      exists e,
        entriesOf (log (onData fl iso' chunk)) = entriesOf (log fl) ++ [e]
        /\ status e = Some 413 /\ durationMs e = None
        /\ allowed e = false).
Proof.
  intros Hp Hfl. repeat apply conj.
  - intros r l H.
    destruct (handleRequest_denied _ _ _ _ _ _ _ _ H)
      as (code & message' & backend & Hcode & Hd).
    rewrite denyWith_unsent in Hd by reflexivity.
    injection Hd as <- <-.
    eexists. split; [apply audit_appends, Hp|]. repeat split.
  - rewrite onProxyResponse_log.
    eexists. split; [apply audit_appends, Hfl|]. repeat split.
  - rewrite onProxyError_log.
    eexists. split; [apply audit_appends, Hfl|]. repeat split.
  - intros Hover. destruct (onData_over fl iso' chunk Hover) as (-> & _).
    eexists. split; [apply audit_appends, Hfl|]. repeat split.
Qed.

End InFlight.

(* ===================================================================== *)
(** ** The claims on the sample deployment *)
(* ===================================================================== *)

Section OnTheSample.

Lemma injected_headers_override_witness :
  handleRequest Sample.newURL Sample.proxy (Sample.get "/myapi/v1/test")
    freshResponse Sample.iso1 1000 = Ok (Forwarding Sample.flight)
  /\ reqHeaders (proxyReq Sample.flight) !! js "x-api-key"
     = Some (HString (js "secret-key-123"))
  /\ reqHeaders (proxyReq Sample.flight) !! js "accept"
     = Some (HString (js "*/*"))
  /\ reqHeaders (proxyReq Sample.flight) !! js "host" = None.
Proof.
  split; [reflexivity|].
  destruct (injected_headers_override Sample.newURL Sample.proxy
              (Sample.get "/myapi/v1/test") freshResponse Sample.iso1 1000
              Sample.flight eq_refl) as (backend & Hb & Hk).
  assert (backend = Sample.backend) as ->.
  { change (Some Sample.backend = Some backend) in Hb. congruence. }
  rewrite !Hk. repeat split; reflexivity.
Defined.


Lemma response_headers_filtered_witness :
  headersSent (res Sample.flight) = false
  /\ exists fl1 relayed,
       emit Sample.flight
         (ProxyResponse Sample.iso1 1200 (Some 200) Sample.upstreamHeaders)
         = Ok fl1
       /\ _header (res fl1) = Some (200, relayed)
       /\ relayed !! js "ETag" = Some (HString (js "abc"))
       /\ relayed !! js "x-request-id" = None.
Proof.
  split; [reflexivity|].
  destruct (response_headers_filtered Sample.flight Sample.iso1 1200
              (Some 200) Sample.upstreamHeaders eq_refl)
    as (fl1 & relayed & Hemit & Hhead & Hk).
  exists fl1, relayed. split; [exact Hemit|]. split; [exact Hhead|]. split.
  - rewrite (proj1 (Hk (js "ETag"))); [reflexivity|].
    apply (bool_decide_unpack _). vm_compute. exact I.
  - apply (proj2 (Hk (js "x-request-id"))).
    apply (bool_decide_unpack _). vm_compute. exact I.
Defined.





(** C7 against the code.  A request whose body passes the limit leaves two
    audit entries, the 413 with [allowed] false and then a 502 with
    [allowed] true for the upstream request that the proxy itself
    destroyed, and its client is sent nothing.  A request that names a
    member of [Object.prototype] as its backend passes the lookup and the
    allowlist and makes [forward] throw: it gets no response and no audit
    entry, whatever [new URL] does. *)
Theorem one_request_two_entries_or_none :
  (exists r l e1 e2,
     serve Sample.newURL Sample.proxy (Sample.get "/myapi/v1/test")
       Sample.iso1 1000
       [ReqData Sample.iso2 Sample.fiveBytes Sample2.iso3 1400] = Ok (r, l)
     /\ entriesOf l = [e1; e2]
     /\ status e1 = Some 413 /\ allowed e1 = false
     /\ status e2 = Some 502 /\ allowed e2 = true
     /\ delivered r = None)
  /\ (forall newURL, exists e,
        serve newURL Sample.proxy (Sample.get "/constructor/v1/test")
          Sample.iso1 1000 []
        = Throw e (freshResponse, auditLog Sample.proxy)
        /\ e <> ERR_HTTP_HEADERS_SENT
        /\ delivered freshResponse = None
        /\ entriesOf (auditLog Sample.proxy) = []).
Proof.
  split.
  - eexists _, _, _, _. split; [reflexivity|]. repeat split; reflexivity.
  - intros newURL. unfold serve, handleRequest.
    change (orString (Http.url (Sample.get "/constructor/v1/test")) (js "/"))
      with (js "/constructor/v1/test").
    cbv zeta.
    change (streq (js "/constructor/v1/test") (js "/agentauth/health"))
      with false. cbv iota.
    change (indexOf (js "/constructor/v1/test") (js "/") 1) with 12.
    cbv iota beta.
    change (12 =? -1) with false. cbv iota.
    change (substringFrom (js "/constructor/v1/test") 12) with (js "/v1/test").
    change (substring (js "/constructor/v1/test") 1 12)
      with (js "constructor").
    change (decodeURIComponent (first (split 63 (js "/v1/test"))))
      with (Some (js "/v1/test")). cbv iota beta.
    change (includes (js "/v1/test") (js "..")) with false. cbv iota.
    change (getBackend (backends (config Sample.proxy)) (js "constructor"))
      with (Some Inherited). cbv iota beta.
    cbn [allowedPathsOf isPathAllowed negb].
    match goal with
    | |- context [forward newURL ?p ?q ?r Inherited ?b ?t ?m ?d] =>
        destruct (forward_inherited newURL p q r b t m d) as (e & -> & He)
    end.
    exists e. repeat split; [exact He].
Qed.

Lemma audit_status_and_duration_witness :
  logOpen (auditLog Sample.proxy) = true
  /\ logOpen (log Sample.flight) = true
  /\ exists e,
       entriesOf (log (onProxyError Sample.flight Sample.iso2 1200
                         (js "socket hang up"))) = [e]
       /\ status e = Some 502 /\ durationMs e = Some 200.
Proof.
  split; [reflexivity|]. split; [reflexivity|].
  destruct (audit_status_and_duration Sample.newURL Sample.proxy
              (Sample.get "/myapi/v1/test") Sample.iso1 1000 Sample.flight
              Sample.iso2 1200 (Some 200) Sample.upstreamHeaders
              (js "socket hang up") Sample.fiveBytes eq_refl eq_refl)
    as (_ & _ & (e & He & Hs & Hd & _) & _).
  exists e. split; [exact He|]. split; [exact Hs | exact Hd].
Defined.

(** C8, as the claim has it, fails on a refusal: the entry of an
    [unknown_backend] denial carries [status: 403]. *)
Lemma denial_entry_has_status :
  exists r l e,
    handleRequest Sample.newURL Sample.proxy (Sample.get "/unknown/v1/test")
      freshResponse Sample.iso1 1000 = Ok (Denied r l)
    /\ r = response 403 jsonContentType
             [errorBody (js "unknown_backend")
                (js "Unknown backend: unknown")]
    /\ entriesOf l = [e]
    /\ status e = Some 403 /\ status e <> None /\ durationMs e = None.
Proof.
  eexists _, _, _. split; [reflexivity|]. split; [reflexivity|].
  split; [reflexivity|]. repeat split. discriminate.
Qed.

(** C9 against the code.  For [GET /myapi/v1/test?x=1] the entry written
    when the upstream answers has the path ["/v1/test?x=1"], query string
    included; for a refused [GET /nobody/v1/%74est?x=1] the entry has the
    raw request-target, backend segment, escapes and query included.  The
    decoded path without the query is ["/v1/test"] in both. *)
Theorem audit_path_keeps_query :
  (exists r l e,
     serve Sample.newURL Sample.proxy (Sample.get "/myapi/v1/test?x=1")
       Sample.iso1 1000
       [ProxyResponse Sample.iso2 1200 (Some 200) Sample.upstreamHeaders]
     = Ok (r, l)
     /\ entriesOf l = [e]
     /\ allowed e = true
     /\ path e = js "/v1/test?x=1"
     /\ path e <> js "/v1/test")
  /\ (exists r l e,
        serve Sample.newURL Sample.proxy
          (Sample.get "/nobody/v1/%74est?x=1") Sample.iso1 1000 []
        = Ok (r, l)
        /\ entriesOf l = [e]
        /\ allowed e = false
        /\ path e = js "/nobody/v1/%74est?x=1"
        /\ path e <> js "/v1/test")
  /\ decodeURIComponent (first (split 63 (js "/v1/test?x=1")))
     = Some (js "/v1/test")
  /\ decodeURIComponent (first (split 63 (js "/v1/%74est?x=1")))
     = Some (js "/v1/test").
Proof.
  split; [|split; [|split; reflexivity]].
  - eexists _, _, _. split; [reflexivity|]. split; [reflexivity|].
    repeat split. discriminate.
  - eexists _, _, _. split; [reflexivity|]. split; [reflexivity|].
    repeat split. discriminate.
Qed.

End OnTheSample.

(* ===================================================================== *)
(** ** The parts of a request-target *)
(* ===================================================================== *)

Section TargetParts.

Context (newURL : list N -> option (list N) -> option URL).

Lemma indexFrom_absent (c : N) (s : list N) (i : Z) :
  c ∉ s -> indexFrom s [c] i = -1.
Proof.
  revert i. induction s as [|a s IH]; intros i H; [reflexivity|].
  apply not_elem_of_cons in H as [Hne Hs].
  cbn [indexFrom startsWith].
  destruct (N.eqb_spec c a) as [->|_]; [contradiction|].
  cbn [andb]. apply IH, Hs.
Qed.

Lemma indexFrom_first (c : N) (pre post : list N) (i : Z) :
  c ∉ pre ->
  indexFrom (pre ++ c :: post) [c] i = i + Z.of_nat (length pre).
Proof.
  revert i. induction pre as [|a pre IH]; intros i H.
  - cbn [app indexFrom startsWith length]. rewrite N.eqb_refl. cbn. lia.
  - apply not_elem_of_cons in H as [Hne Hs].
    rewrite <- app_comm_cons. cbn [indexFrom startsWith].
    destruct (N.eqb_spec c a) as [->|_]; [contradiction|].
    cbn [andb]. rewrite IH by exact Hs. cbn [length]. lia.
Qed.

(** The position found by [s.indexOf(c, from)] is that of the first [c]
    at or after [from]; -1 says there is none. *)
Lemma indexFrom_cases (c : N) (s : list N) (i : Z) :
  ((c ∉ s) /\ indexFrom s [c] i = -1)
  \/ exists pre post,
       s = pre ++ c :: post /\ (c ∉ pre)
       /\ indexFrom s [c] i = i + Z.of_nat (length pre).
Proof.
  destruct (decide (c ∈ s)) as [Hin|Hout].
  - right. apply list_elem_of_split_l in Hin as (pre & post & -> & Hpre).
    exists pre, post. split; [reflexivity|]. split; [exact Hpre|].
    apply indexFrom_first, Hpre.
  - left. split; [exact Hout | apply indexFrom_absent, Hout].
Qed.

Lemma split_absent (c : N) (s : list N) : c ∉ s -> split c s = [s].
Proof.
  induction s as [|a s IH]; intros H; [reflexivity|].
  apply not_elem_of_cons in H as [Hne Hs].
  cbn [split]. destruct (N.eqb_spec a c) as [->|_]; [contradiction|].
  rewrite IH by exact Hs. reflexivity.
Qed.

Lemma split_first (c : N) (pre post : list N) :
  c ∉ pre -> first (split c (pre ++ c :: post)) = pre.
Proof.
  induction pre as [|a pre IH]; intros H.
  - cbn [app split]. rewrite N.eqb_refl. reflexivity.
  - apply not_elem_of_cons in H as [Hne Hs].
    rewrite <- app_comm_cons. cbn [split].
    destruct (N.eqb_spec a c) as [->|_]; [contradiction|].
    specialize (IH Hs). unfold first in *.
    destruct (split c (pre ++ c :: post)) as [|w ws]; cbn in *;
      congruence.
Qed.

Lemma substringFrom_drop (s : list N) (n : nat) :
  (n <= length s)%nat -> substringFrom s (Z.of_nat n) = drop n s.
Proof.
  intros H. unfold substringFrom, substring. cbv zeta.
  replace (Z.max 0 (Z.min (Z.of_nat n) (Z.of_nat (length s))))
    with (Z.of_nat n) by lia.
  replace (Z.max 0 (Z.min (Z.of_nat (length s)) (Z.of_nat (length s))))
    with (Z.of_nat (length s)) by lia.
  replace (Z.min (Z.of_nat n) (Z.of_nat (length s))) with (Z.of_nat n)
    by lia.
  replace (Z.max (Z.of_nat n) (Z.of_nat (length s)))
    with (Z.of_nat (length s)) by lia.
  rewrite Nat2Z.id.
  apply take_ge. rewrite length_drop. lia.
Qed.

Lemma substring_1 (c : N) (s : list N) (n : nat) :
  (n <= length s)%nat ->
  substring (c :: s) 1 (1 + Z.of_nat n) = take n s.
Proof.
  intros H. unfold substring. cbv zeta.
  replace (Z.max 0 (Z.min 1 (Z.of_nat (length (c :: s))))) with 1
    by (cbn [length]; lia).
  replace (Z.max 0 (Z.min (1 + Z.of_nat n) (Z.of_nat (length (c :: s)))))
    with (1 + Z.of_nat n) by (cbn [length]; lia).
  replace (Z.min 1 (1 + Z.of_nat n)) with 1 by lia.
  replace (Z.max 1 (1 + Z.of_nat n)) with (1 + Z.of_nat n) by lia.
  replace (Z.to_nat (1 + Z.of_nat n - 1)) with n by lia.
  reflexivity.
Qed.

(** A target that [handleRequest] can route is its first character, a
    backend name without ['/'], and a rest that starts at the second
    ['/']. *)
Lemma target_parts (url : list N) :
  indexOf url (js "/") 1 <> -1 ->
  exists c name rest,
    url = c :: name ++ 47%N :: rest
    /\ (47%N ∉ name)
    /\ indexOf url (js "/") 1 = 1 + Z.of_nat (length name)
    /\ substring url 1 (indexOf url (js "/") 1) = name
    /\ substringFrom url (indexOf url (js "/") 1) = 47%N :: rest.
Proof.
  intros H. destruct url as [|c s]; [exfalso; apply H; reflexivity|].
  unfold indexOf in *. cbn [drop length] in *. rewrite drop_0 in *.
  change (js "/") with [47%N] in *.
  replace (Z.of_nat (Nat.min 1 (S (length s)))) with 1 in * by lia.
  destruct (indexFrom_cases 47 s 1) as [[_ E]|(pre & post & -> & Hpre & E)];
    [contradiction|].
  exists c, pre, post. rewrite E.
  split; [reflexivity|]. split; [exact Hpre|]. split; [reflexivity|].
  split.
  - rewrite substring_1 by (rewrite length_app; lia).
    apply take_app_length.
  - replace (1 + Z.of_nat (length pre)) with (Z.of_nat (S (length pre)))
      by lia.
    rewrite substringFrom_drop by (cbn; rewrite length_app; cbn; lia).
    cbn [drop]. apply drop_app_length.
Qed.

(** The rest of a target is a path up to the first ['?'] and the query
    from that ['?'] on, if there is one. *)
Lemma path_and_query (rawPath : list N) :
  exists pathPart query,
    rawPath = pathPart ++ query
    /\ (63%N ∉ pathPart)
    /\ (query = [] \/ exists q, query = 63%N :: q)
    /\ first (split 63 rawPath) = pathPart
    /\ (if negb (indexOf rawPath (js "?") 0 =? -1)
        then substringFrom rawPath (indexOf rawPath (js "?") 0)
        else []) = query.
Proof.
  unfold indexOf. rewrite drop_0. cbn [Nat.min].
  change (Z.of_nat 0) with 0. change (js "?") with [63%N].
  destruct (indexFrom_cases 63 rawPath 0)
    as [[Hout E]|(pre & post & -> & Hpre & E)]; rewrite E.
  - exists rawPath, []. rewrite app_nil_r, split_absent by exact Hout.
    repeat split; auto.
  - exists pre, (63%N :: post). rewrite split_first by exact Hpre.
    split; [reflexivity|]. split; [exact Hpre|]. split; [eauto|].
    split; [reflexivity|].
    replace (0 + Z.of_nat (length pre) =? -1) with false
      by (symmetry; apply Z.eqb_neq; lia).
    cbn [negb]. rewrite Z.add_0_l.
    rewrite substringFrom_drop by (rewrite length_app; lia).
    apply drop_app_length.
Qed.

(** A string without ['%'] decodes to itself. *)
Lemma decodeLoop_plain (s : list N) (f : nat) :
  37%N ∉ s -> (length s <= f)%nat -> decodeLoop f s = Some s.
Proof.
  revert f. induction s as [|c s IH]; intros f H Hf.
  - destruct f; reflexivity.
  - apply not_elem_of_cons in H as [Hne Hs].
    destruct f as [|f]; [cbn in Hf; lia|].
    cbn [decodeLoop decodeOne].
    destruct (N.eqb_spec c 37) as [->|_]; [contradiction|].
    cbn [negb]. rewrite IH by (cbn in Hf; auto with lia). reflexivity.
Qed.

Lemma decodeURIComponent_plain (s : list N) :
  37%N ∉ s -> decodeURIComponent s = Some s.
Proof. intros H. apply decodeLoop_plain; [exact H | lia]. Qed.

(** What [forward] is given comes from the target in this way. *)
Lemma forwarding_parts (p : AuthProxy) (req : IncomingMessage)
    (res0 : ServerResponse) (iso : list N) (dateNow : Z) (fl : Flight) :
  handleRequest newURL p req res0 iso dateNow = Ok (Forwarding fl) ->
  exists c rest pathPart query decoded backend targetUrl,
    orString (Http.url req) (js "/")
      = c :: backendName fl ++ 47%N :: rest
    /\ (47%N ∉ backendName fl)
    /\ 47%N :: rest = pathPart ++ query
    /\ (63%N ∉ pathPart)
    /\ (query = [] \/ exists q, query = 63%N :: q)
    /\ decodeURIComponent pathPart = Some decoded
    /\ includes decoded (js "..") = false
    /\ ownProperty (backends (config p)) (backendName fl) = Some backend
    /\ isPathAllowed decoded (allowedPaths backend) = true
    /\ newURL (decoded ++ query) (Some (target backend)) = Some targetUrl
    /\ fl = forwardTo targetUrl p req res0 (Config.headers backend)
              (maxBodyBytes backend) (backendName fl) (decoded ++ query)
              (orString (Http.method req) (js "GET")) dateNow.
Proof.
  intros H. apply handleRequest_forwarding in H. cbv zeta in H.
  destruct H as (backend & decoded & targetUrl & _ & Hs & Hd & Hi & Hb & Ha
                 & Hu & Hfl).
  destruct (target_parts _ Hs) as (c & name & rest & Hurl & Hname & _ & Hsub
                                   & Hraw).
  rewrite Hsub in Hb, Hfl. rewrite Hraw in Hd, Hu, Hfl.
  destruct (path_and_query (47%N :: rest))
    as (pathPart & query & Hpq & Hpp & Hq & Hfirst & Hquery).
  rewrite Hfirst in Hd.
  assert ((if negb (indexOf (47%N :: rest) (js "?") 0 =? -1)
           then decoded ++ substringFrom (47%N :: rest)
                             (indexOf (47%N :: rest) (js "?") 0)
           else decoded) = decoded ++ query) as Hfull.
  { rewrite <- Hquery. destruct (negb _); [reflexivity|].
    rewrite app_nil_r. reflexivity. }
  rewrite Hfull in Hu, Hfl.
  assert (backendName fl = name) as Hbn by (rewrite Hfl; reflexivity).
  exists c, rest, pathPart, query, decoded, backend, targetUrl.
  rewrite Hbn. repeat split; assumption.
Qed.

End TargetParts.

(* ===================================================================== *)
(** ** What reaches the upstream *)
(* ===================================================================== *)

Section Forwarded.

Context (newURL : list N -> option (list N) -> option URL).

Lemma decode_keeps_first (c : N) (s d : list N) :
  c <> 37%N -> decodeURIComponent (c :: s) = Some d ->
  exists d', d = c :: d'.
Proof.
  intros Hc. unfold decodeURIComponent. cbn [length decodeLoop decodeOne].
  destruct (N.eqb_spec c 37) as [->|_]; [contradiction|]. cbn [negb].
  destruct (decodeLoop _ s) as [r|]; [|discriminate].
  intros [= <-]. eauto.
Qed.

(** X2. The target of a forwarded request is its first character, the
    backend name, a path and a query.  The URL of the upstream request is
    the one [new URL] makes, against the target of the backend, of the
    decoded path followed by the query exactly as it came, from its ['?']
    on; [https] is used when that URL has the protocol ["https:"], [http]
    otherwise. *)
Theorem forwarded_url_input (p : AuthProxy) (req : IncomingMessage)
    (res0 : ServerResponse) (iso : list N) (dateNow : Z) (fl : Flight) :
  handleRequest newURL p req res0 iso dateNow = Ok (Forwarding fl) ->
  exists c pathPart query decoded backend targetUrl,
    orString (Http.url req) (js "/")
      = c :: backendName fl ++ pathPart ++ query
    /\ (47%N ∉ backendName fl)
    /\ (63%N ∉ pathPart)
    /\ (query = [] \/ exists q, query = 63%N :: q)
    /\ decodeURIComponent pathPart = Some decoded
    /\ ownProperty (backends (config p)) (backendName fl) = Some backend
    /\ newURL (decoded ++ query) (Some (target backend)) = Some targetUrl
    /\ reqUrl (proxyReq fl) = href targetUrl
    /\ secure (proxyReq fl) = streq (protocol targetUrl) (js "https:")
    /\ reqMethod (proxyReq fl) = orString (Http.method req) (js "GET").
Proof.
  intros H. apply forwarding_parts in H.
  destruct H as (c & rest & pathPart & query & decoded & backend & targetUrl
                 & Hurl & Hn & Hpq & Hpp & Hq & Hd & _ & Hb & _ & Hu & Hfl).
  exists c, pathPart, query, decoded, backend, targetUrl.
  rewrite Hurl, Hpq. repeat split; try assumption; rewrite Hfl; reflexivity.
Qed.

(** X3. Nothing is forwarded unchecked: the backend of a forwarded request
    is an own entry of the configuration, and the path given to [new URL]
    is a decoded path that starts with ['/'], holds no [".."] and passes
    that backend's allowlist, followed by the query. *)
Theorem forwarded_only_after_checks (p : AuthProxy) (req : IncomingMessage)
    (res0 : ServerResponse) (iso : list N) (dateNow : Z) (fl : Flight) :
  handleRequest newURL p req res0 iso dateNow = Ok (Forwarding fl) ->
  exists backend decoded query,
    ownProperty (backends (config p)) (backendName fl) = Some backend
    /\ (exists targetUrl,
          newURL (decoded ++ query) (Some (target backend)) = Some targetUrl
          /\ reqUrl (proxyReq fl) = href targetUrl)
    /\ targetPath fl = decoded ++ query
    /\ (exists d, decoded = 47%N :: d)
    /\ includes decoded (js "..") = false
    /\ isPathAllowed decoded (allowedPaths backend) = true
    /\ (query = [] \/ exists q, query = 63%N :: q).
Proof.
  intros H. apply forwarding_parts in H.
  destruct H as (c & rest & pathPart & query & decoded & backend & targetUrl
                 & _ & _ & Hpq & _ & Hq & Hd & Hi & Hb & Ha & Hu & Hfl).
  exists backend, decoded, query.
  split; [exact Hb|].
  split; [exists targetUrl; split; [exact Hu | rewrite Hfl; reflexivity]|].
  split; [rewrite Hfl; reflexivity|].
  split; [|auto].
  destruct pathPart as [|x pp].
  - destruct Hq as [-> | [q ->]]; discriminate Hpq.
  - injection Hpq as <- _.
    apply (decode_keeps_first 47 pp decoded); [discriminate | exact Hd].
Qed.

End Forwarded.

Lemma forwarded_url_input_witness :
  handleRequest Sample.newURL Sample.proxy
    (Sample.get "/myapi/v1/a%20b?q=%2e%2e&r=1") freshResponse Sample.iso1 1000
  = Ok (Forwarding
          (forwardTo
             {| protocol := js "https:";
                href := js "https://api.example.com/v1/a%20b?q=%2e%2e&r=1" |}
             Sample.proxy (Sample.get "/myapi/v1/a%20b?q=%2e%2e&r=1")
             freshResponse (Config.headers Sample.backend) (Some 4)
             (js "myapi") (js "/v1/a b?q=%2e%2e&r=1") (js "GET") 1000))
  /\ exists c pathPart query decoded targetUrl,
       js "/myapi/v1/a%20b?q=%2e%2e&r=1"
         = c :: js "myapi" ++ pathPart ++ query
       /\ (63%N ∉ pathPart)
       /\ decodeURIComponent pathPart = Some decoded
       /\ Sample.newURL (decoded ++ query) (Some (target Sample.backend))
          = Some targetUrl
       /\ js "https://api.example.com/v1/a%20b?q=%2e%2e&r=1" = href targetUrl.
Proof.
  split; [reflexivity|].
  destruct (forwarded_url_input Sample.newURL Sample.proxy
              (Sample.get "/myapi/v1/a%20b?q=%2e%2e&r=1") freshResponse
              Sample.iso1 1000 _ eq_refl)
    as (c & pathPart & query & decoded & backend & targetUrl & Hurl & _ & Hpp
        & _ & Hd & Hb & Hu & Hhref & _).
  change (Some Sample.backend = Some backend) in Hb. injection Hb as <-.
  exists c, pathPart, query, decoded, targetUrl. auto.
Defined.

Lemma forwarded_only_after_checks_witness :
  handleRequest Sample.newURL Sample.proxy (Sample.get "/myapi/v1/test?x=1")
    freshResponse Sample.iso1 1000
  = Ok (Forwarding
          (forwardTo
             {| protocol := js "https:";
                href := js "https://api.example.com/v1/test?x=1" |}
             Sample.proxy (Sample.get "/myapi/v1/test?x=1")
             freshResponse (Config.headers Sample.backend) (Some 4)
             (js "myapi") (js "/v1/test?x=1") (js "GET") 1000))
  /\ exists decoded query,
       js "/v1/test?x=1" = decoded ++ query
       /\ isPathAllowed decoded (Some [js "/v1/*"]) = true.
Proof.
  split; [reflexivity|].
  destruct (forwarded_only_after_checks Sample.newURL Sample.proxy
              (Sample.get "/myapi/v1/test?x=1") freshResponse Sample.iso1
              1000 _ eq_refl)
    as (backend & decoded & query & Hb & _ & Hin & _ & _ & Ha & _).
  change (Some Sample.backend = Some backend) in Hb.
  injection Hb as <-. exists decoded, query. split; [exact Hin | exact Ha].
Defined.

(* ===================================================================== *)
(** ** Routing by the parts of the target *)
(* ===================================================================== *)

Section RoutingByParts.

Context (newURL : list N -> option (list N) -> option URL).

Lemma parts_of_target (c : N) (name rest : list N) :
  47%N ∉ name ->
  let url := c :: name ++ 47%N :: rest in
  indexOf url (js "/") 1 = 1 + Z.of_nat (length name)
  /\ substring url 1 (indexOf url (js "/") 1) = name
  /\ substringFrom url (indexOf url (js "/") 1) = 47%N :: rest.
Proof.
  intros Hname url.
  assert (indexOf url (js "/") 1 = 1 + Z.of_nat (length name)) as E.
  { unfold indexOf, url. cbn [drop length]. rewrite drop_0.
    change (js "/") with [47%N].
    replace (Z.of_nat (Nat.min 1 (S (length (name ++ 47%N :: rest)))))
      with 1 by lia.
    apply indexFrom_first, Hname. }
  rewrite E. split; [reflexivity|]. split.
  - unfold url. rewrite substring_1 by (rewrite length_app; lia).
    apply take_app_length.
  - replace (1 + Z.of_nat (length name)) with (Z.of_nat (S (length name)))
      by lia.
    unfold url.
    rewrite substringFrom_drop by (cbn; rewrite length_app; cbn; lia).
    cbn [drop]. apply drop_app_length.
Qed.

Lemma parts_of_rest (pathPart query : list N) :
  63%N ∉ pathPart -> (query = [] \/ exists q, query = 63%N :: q) ->
  first (split 63 (pathPart ++ query)) = pathPart
  /\ forall decoded : list N,
       (if negb (indexOf (pathPart ++ query) (js "?") 0 =? -1)
        then decoded ++ substringFrom (pathPart ++ query)
                          (indexOf (pathPart ++ query) (js "?") 0)
        else decoded) = decoded ++ query.
Proof.
  intros Hpp Hq. unfold indexOf. rewrite drop_0. cbn [Nat.min].
  change (Z.of_nat 0) with 0. change (js "?") with [63%N].
  destruct Hq as [-> | [q ->]].
  - rewrite app_nil_r, split_absent, indexFrom_absent by exact Hpp.
    split; [reflexivity|]. intros decoded. cbn. rewrite app_nil_r.
    reflexivity.
  - rewrite split_first, indexFrom_first by exact Hpp.
    split; [reflexivity|]. intros decoded.
    replace (0 + Z.of_nat (length pathPart) =? -1) with false
      by (symmetry; apply Z.eqb_neq; lia).
    cbn [negb]. rewrite Z.add_0_l.
    rewrite substringFrom_drop by (rewrite length_app; lia).
    rewrite drop_app_length. reflexivity.
Qed.

(** [handleRequest] on a target given by its parts: what is left to
    decide is the decoding, the search for [".."], the backend and the
    allowlist. *)
Lemma handleRequest_by_parts (p : AuthProxy) (req : IncomingMessage)
    (res0 : ServerResponse) (iso : list N) (dateNow : Z)
    (c : N) (name rest pathPart query : list N) :
  let url := orString (Http.url req) (js "/") in
  let method := orString (Http.method req) (js "GET") in
  url = c :: name ++ pathPart ++ query ->
  url <> js "/agentauth/health" ->
  47%N ∉ name -> pathPart = 47%N :: rest -> 63%N ∉ pathPart ->
  (query = [] \/ exists q, query = 63%N :: q) ->
  handleRequest newURL p req res0 iso dateNow =
  match decodeURIComponent pathPart with
  | None =>
      denyWith p res0 iso (js "invalid_path")
        (js "Malformed URL encoding: " ++ pathPart ++ query) method url None
  | Some targetPath =>
      if includes targetPath (js "..") then
        denyWith p res0 iso (js "path_traversal")
          (js "Path traversal rejected: " ++ targetPath) method url None
      else
        match getBackend (backends (config p)) name with
        | None =>
            denyWith p res0 iso (js "unknown_backend")
              (js "Unknown backend: " ++ name) method url None
        | Some backend =>
            if negb (isPathAllowed targetPath (allowedPathsOf backend)) then
              denyWith p res0 iso (js "path_denied")
                (js "Path not allowed: " ++ targetPath) method url
                (Some name)
            else
              match forward newURL p req res0 backend name
                      (targetPath ++ query) method dateNow with
              | inr fl => Ok (Forwarding fl)
              | inl e => Throw e (Unanswered res0 (auditLog p))
              end
        end
  end.
Proof.
  intros url method Hurl Hh Hname Hpath Hpp Hq.
  unfold handleRequest. cbv zeta. fold url. fold method.
  apply streq_neq in Hh. rewrite Hh.
  assert (url = c :: name ++ 47%N :: (rest ++ query)) as Hurl'
    by (rewrite Hurl, Hpath; reflexivity).
  destruct (parts_of_target c name (rest ++ query) Hname)
    as (Hidx & Hsub & Hraw).
  rewrite <- Hurl' in Hidx, Hsub, Hraw.
  rewrite Hsub, Hraw.
  replace (indexOf url (js "/") 1 =? -1) with false
    by (symmetry; apply Z.eqb_neq; lia).
  change (47%N :: rest ++ query) with ((47%N :: rest) ++ query).
  rewrite <- Hpath.
  destruct (parts_of_rest pathPart query Hpp Hq) as (Hfirst & Hfull).
  rewrite Hfirst.
  destruct (decodeURIComponent pathPart) as [targetPath|]; [|reflexivity].
  rewrite Hfull. reflexivity.
Qed.

Lemma decodeLoop_fails_after (f g : nat) (a a' b : list N) :
  decodeLoop f a = Some a' -> (length b <= g)%nat ->
  decodeLoop (length b) b = None ->
  decodeLoop (f + g) (a ++ b) = None.
Proof.
  revert a a'. induction f as [|f IH]; intros a a' Ha Hg Hb.
  - destruct a; [|discriminate]. cbn [app Nat.add].
    rewrite decodeLoop_enough by exact Hg. exact Hb.
  - destruct a as [|c a].
    + cbn [app]. rewrite decodeLoop_enough by lia. exact Hb.
    + cbn [decodeLoop] in Ha.
      destruct (decodeOne (c :: a)) as [[o r]|] eqn:E; [|discriminate].
      destruct (decodeLoop f r) as [r'|] eqn:Er; [|discriminate].
      change (decodeLoop (S f + g) ((c :: a) ++ b)) with
        (match decodeOne ((c :: a) ++ b) with
         | None => None
         | Some (out, rest) =>
             match decodeLoop (f + g) rest with
             | Some r => Some (out ++ r)
             | None => None
             end
         end).
      rewrite (decodeOne_app _ _ _ b E), (IH r r' Er Hg Hb). reflexivity.
Qed.

(** Decoding fails as soon as a piece that decodes is followed by one
    that does not. *)
Lemma decodeURIComponent_fails_after (a a' b : list N) :
  decodeURIComponent a = Some a' -> decodeURIComponent b = None ->
  decodeURIComponent (a ++ b) = None.
Proof.
  unfold decodeURIComponent. intros Ha Hb. rewrite length_app.
  apply (decodeLoop_fails_after _ _ a a' b Ha); [lia | exact Hb].
Qed.

(** An escape that is cut short, has a digit that is not hexadecimal, or
    opens with an octet that cannot start a UTF-8 sequence (80..C1, among
    them the overlong C0 and C1, or F5..FF) does not decode. *)
Lemma bad_escape_fails (t : list N) :
  match escapeOctet (37%N :: t) with
  | None => True
  | Some (b, _) => (128 <= b < 194)%N \/ (245 <= b)%N
  end ->
  decodeURIComponent (37%N :: t) = None.
Proof.
  intros H. unfold decodeURIComponent. cbn [length decodeLoop].
  assert (decodeOne (37%N :: t) = None) as ->; [|reflexivity].
  unfold decodeOne. rewrite N.eqb_refl. cbn [negb].
  destruct (escapeOctet (37%N :: t)) as [[b r]|]; [|reflexivity].
  destruct H as [[H1 H2]|H].
  - replace (b <? 128)%N with false by (symmetry; apply N.ltb_ge; lia).
    replace (b <? 194)%N with true by (symmetry; apply N.ltb_lt; lia).
    reflexivity.
  - replace (b <? 128)%N with false by (symmetry; apply N.ltb_ge; lia).
    replace (b <? 194)%N with false by (symmetry; apply N.ltb_ge; lia).
    replace (b <? 224)%N with false by (symmetry; apply N.ltb_ge; lia).
    replace (b <? 240)%N with false by (symmetry; apply N.ltb_ge; lia).
    replace (b <? 245)%N with false by (symmetry; apply N.ltb_ge; lia).
    reflexivity.
Qed.

End RoutingByParts.

Section RoutingOutcomes.

Context (newURL : list N -> option (list N) -> option URL).

Lemma getBackend_own (backends : list (list N * BackendConfig))
    (name : list N) (backend : BackendConfig) :
  ownProperty backends name = Some backend ->
  getBackend backends name = Some (Own backend).
Proof. intros H. unfold getBackend. rewrite H. reflexivity. Qed.

Lemma inherited_spec (name : list N) :
  existsb (fun k => streq name k) objectPrototypeKeys = true
  <-> name ∈ objectPrototypeKeys.
Proof.
  induction objectPrototypeKeys as [|k ks IH]; cbn [existsb].
  - split; [discriminate | intros H; inversion H].
  - rewrite orb_true_iff, streq_spec, IH, elem_of_cons. reflexivity.
Qed.

Lemma getBackend_inherited (backends : list (list N * BackendConfig))
    (name : list N) :
  ownProperty backends name = None -> name ∈ objectPrototypeKeys ->
  getBackend backends name = Some Inherited.
Proof.
  intros H Hin. unfold getBackend. rewrite H.
  apply inherited_spec in Hin. rewrite Hin. reflexivity.
Qed.

Lemma getBackend_undefined (backends : list (list N * BackendConfig))
    (name : list N) :
  ownProperty backends name = None -> name ∉ objectPrototypeKeys ->
  getBackend backends name = None.
Proof.
  intros H Hin. unfold getBackend. rewrite H.
  destruct (existsb _ _) eqn:E; [|reflexivity].
  apply inherited_spec in E. contradiction.
Qed.

(** X4. A well-formed target whose backend name is no entry of the
    configuration and no member of [Object.prototype] is refused with 403
    and [unknown_backend]; the audit entry is not allowed, names the
    backend ["none"] and keeps the raw target as its path. *)
Theorem unknown_backend_refused (p : AuthProxy) (req : IncomingMessage)
    (iso : list N) (dateNow : Z) (c : N)
    (name rest query decoded : list N) :
  let url := orString (Http.url req) (js "/") in
  url = c :: name ++ (47%N :: rest) ++ query ->
  url <> js "/agentauth/health" ->
  47%N ∉ name -> 63%N ∉ 47%N :: rest ->
  (query = [] \/ exists q, query = 63%N :: q) ->
  decodeURIComponent (47%N :: rest) = Some decoded ->
  includes decoded (js "..") = false ->
  ownProperty (backends (config p)) name = None ->
  name ∉ objectPrototypeKeys ->
  handleRequest newURL p req freshResponse iso dateNow =
  Ok (Denied
        (response 403 jsonContentType
           [errorBody (js "unknown_backend") (js "Unknown backend: " ++ name)])
        (audit (auditLog p)
           {| ts := iso; backend := js "none";
              Audit.method := orString (Http.method req) (js "GET");
              path := url; status := Some 403; durationMs := None;
              allowed := false;
              reason := Some (js "Unknown backend: " ++ name) |})).
Proof.
  intros url Hurl Hh Hname Hpp Hq Hd Hi Hb Hproto.
  rewrite (handleRequest_by_parts newURL p req freshResponse iso dateNow c
             name rest (47%N :: rest) query Hurl Hh Hname eq_refl Hpp Hq).
  rewrite Hd, Hi, (getBackend_undefined _ _ Hb Hproto).
  rewrite denyWith_unsent by reflexivity. reflexivity.
Qed.

(** X5. A well-formed target of a configured backend whose decoded path
    fails the allowlist is refused with 403 and [path_denied]; this is the
    one refusal whose audit entry names the backend. *)
Theorem disallowed_path_refused (p : AuthProxy) (req : IncomingMessage)
    (iso : list N) (dateNow : Z) (c : N)
    (name rest query decoded : list N) (backend : BackendConfig) :
  let url := orString (Http.url req) (js "/") in
  url = c :: name ++ (47%N :: rest) ++ query ->
  url <> js "/agentauth/health" ->
  47%N ∉ name -> 63%N ∉ 47%N :: rest ->
  (query = [] \/ exists q, query = 63%N :: q) ->
  decodeURIComponent (47%N :: rest) = Some decoded ->
  includes decoded (js "..") = false ->
  ownProperty (backends (config p)) name = Some backend ->
  isPathAllowed decoded (allowedPaths backend) = false ->
  handleRequest newURL p req freshResponse iso dateNow =
  Ok (Denied
        (response 403 jsonContentType
           [errorBody (js "path_denied") (js "Path not allowed: " ++ decoded)])
        (audit (auditLog p)
           {| ts := iso; backend := orString (Some name) (js "none");
              Audit.method := orString (Http.method req) (js "GET");
              path := url; status := Some 403; durationMs := None;
              allowed := false;
              reason := Some (js "Path not allowed: " ++ decoded) |})).
Proof.
  intros url Hurl Hh Hname Hpp Hq Hd Hi Hb Ha.
  rewrite (handleRequest_by_parts newURL p req freshResponse iso dateNow c
             name rest (47%N :: rest) query Hurl Hh Hname eq_refl Hpp Hq).
  rewrite Hd, Hi, (getBackend_own _ _ _ Hb). cbn [allowedPathsOf].
  rewrite Ha. cbn [negb].
  rewrite denyWith_unsent by reflexivity. reflexivity.
Qed.

(** X6. A well-formed target of a configured backend whose decoded path
    holds no [".."] and passes the allowlist goes to [new URL], as the
    decoded path followed by the raw query, against the target of the
    backend.  When [new URL] makes a URL of it, the upstream request is
    made to that URL with the client's method, and nothing is answered or
    audited before the upstream reacts; when [new URL] throws, the
    exception is not caught: the request gets no response and no audit
    entry. *)
Theorem allowed_request_forwarded (p : AuthProxy) (req : IncomingMessage)
    (iso : list N) (dateNow : Z) (c : N)
    (name rest query decoded : list N) (backend : BackendConfig) :
  let url := orString (Http.url req) (js "/") in
  url = c :: name ++ (47%N :: rest) ++ query ->
  url <> js "/agentauth/health" ->
  47%N ∉ name -> 63%N ∉ 47%N :: rest ->
  (query = [] \/ exists q, query = 63%N :: q) ->
  decodeURIComponent (47%N :: rest) = Some decoded ->
  includes decoded (js "..") = false ->
  ownProperty (backends (config p)) name = Some backend ->
  isPathAllowed decoded (allowedPaths backend) = true ->
  match newURL (decoded ++ query) (Some (target backend)) with
  | Some targetUrl =>
      exists fl,
        handleRequest newURL p req freshResponse iso dateNow
        = Ok (Forwarding fl)
        /\ reqUrl (proxyReq fl) = href targetUrl
        /\ reqMethod (proxyReq fl) = orString (Http.method req) (js "GET")
        /\ written (proxyReq fl) = []
        /\ res fl = freshResponse
        /\ log fl = auditLog p
  | None =>
      handleRequest newURL p req freshResponse iso dateNow
      = Throw ERR_INVALID_URL (Unanswered freshResponse (auditLog p))
  end.
Proof.
  intros url Hurl Hh Hname Hpp Hq Hd Hi Hb Ha.
  rewrite (handleRequest_by_parts newURL p req freshResponse iso dateNow c
             name rest (47%N :: rest) query Hurl Hh Hname eq_refl Hpp Hq).
  rewrite Hd, Hi, (getBackend_own _ _ _ Hb). cbn [allowedPathsOf].
  rewrite Ha. cbn [negb]. unfold forward.
  cbn [targetOf headersOf maxBodyBytesOf].
  destruct (newURL _ _) as [targetUrl|]; [|reflexivity].
  eexists. split; [reflexivity|]. repeat split.
Qed.

(** X7. A target with no ['/'] after its first character names no
    backend: it is refused with 403 and [invalid_path], whatever is
    configured.  An absent or empty target counts as ["/"], and is refused
    in the same way. *)
Theorem target_without_backend_refused (p : AuthProxy)
    (req : IncomingMessage) (iso : list N) (dateNow : Z) :
  let url := orString (Http.url req) (js "/") in
  47%N ∉ drop 1 url ->
  handleRequest newURL p req freshResponse iso dateNow =
  Ok (Denied
        (response 403 jsonContentType
           [errorBody (js "invalid_path") (js "No backend in path: " ++ url)])
        (audit (auditLog p)
           {| ts := iso; backend := js "none";
              Audit.method := orString (Http.method req) (js "GET");
              path := url; status := Some 403; durationMs := None;
              allowed := false;
              reason := Some (js "No backend in path: " ++ url) |})).
Proof.
  intros url H. unfold handleRequest. cbv zeta. fold url.
  destruct (streq url (js "/agentauth/health")) eqn:Hh.
  { exfalso. apply streq_spec in Hh. rewrite Hh in H. apply H.
    apply (bool_decide_unpack _). vm_compute. exact I. }
  assert (indexOf url (js "/") 1 = -1) as ->.
  { unfold indexOf. change (js "/") with [47%N].
    apply indexFrom_absent, H. }
  cbn [Z.eqb]. rewrite denyWith_unsent by reflexivity. reflexivity.
Qed.

(** X8. A path with an escape that is cut short, has a digit that is not
    hexadecimal, or opens with an octet that cannot start a UTF-8 sequence
    (the overlong C0 and C1 among them, so ["%C0%AE"] is no way to write a
    dot) is refused with 403 and [invalid_path], before the backend table
    is looked at. *)
Theorem malformed_escape_refused (p : AuthProxy) (req : IncomingMessage)
    (iso : list N) (dateNow : Z) (c : N)
    (name good good' bad query : list N) :
  let url := orString (Http.url req) (js "/") in
  url = c :: name ++ (47%N :: good ++ 37%N :: bad) ++ query ->
  47%N ∉ name -> 63%N ∉ 47%N :: good ++ 37%N :: bad ->
  (query = [] \/ exists q, query = 63%N :: q) ->
  decodeURIComponent (47%N :: good) = Some good' ->
  match escapeOctet (37%N :: bad) with
  | None => True
  | Some (b, _) => (128 <= b < 194)%N \/ (245 <= b)%N
  end ->
  handleRequest newURL p req freshResponse iso dateNow =
  Ok (Denied
        (response 403 jsonContentType
           [errorBody (js "invalid_path")
              (js "Malformed URL encoding: "
               ++ (47%N :: good ++ 37%N :: bad) ++ query)])
        (audit (auditLog p)
           {| ts := iso; backend := js "none";
              Audit.method := orString (Http.method req) (js "GET");
              path := url; status := Some 403; durationMs := None;
              allowed := false;
              reason := Some (js "Malformed URL encoding: "
                              ++ (47%N :: good ++ 37%N :: bad) ++ query) |})).
Proof.
  intros url Hurl Hname Hpp Hq Hgood Hbad.
  assert (url <> js "/agentauth/health") as Hh.
  { intros E. rewrite E in Hurl.
    assert (37%N ∈ js "/agentauth/health") as Hin.
    { rewrite Hurl. right. apply elem_of_app. right. apply elem_of_app. left.
      right. apply elem_of_app. right. left. }
    revert Hin. apply (bool_decide_unpack _). vm_compute. exact I. }
  rewrite (handleRequest_by_parts newURL p req freshResponse iso dateNow c
             name (good ++ 37%N :: bad) (47%N :: good ++ 37%N :: bad) query
             Hurl Hh Hname eq_refl Hpp Hq).
  change (47%N :: good ++ 37%N :: bad) with ((47%N :: good) ++ 37%N :: bad).
  rewrite (decodeURIComponent_fails_after _ _ _ Hgood
             (bad_escape_fails bad Hbad)).
  rewrite denyWith_unsent by reflexivity. reflexivity.
Qed.

(** X9. A well-formed target whose backend name is no entry of the
    configuration but a member of [Object.prototype] ([constructor],
    [toString], [__proto__], ...) is not refused: the lookup finds the
    inherited member, which has no allowlist, and [forward] throws on it.
    The exception is not caught: the request gets no response and no
    audit entry, whatever the configuration and whatever [new URL]
    does. *)
Theorem inherited_name_throws (p : AuthProxy) (req : IncomingMessage)
    (iso : list N) (dateNow : Z) (c : N)
    (name rest query decoded : list N) :
  let url := orString (Http.url req) (js "/") in
  url = c :: name ++ (47%N :: rest) ++ query ->
  url <> js "/agentauth/health" ->
  47%N ∉ name -> 63%N ∉ 47%N :: rest ->
  (query = [] \/ exists q, query = 63%N :: q) ->
  decodeURIComponent (47%N :: rest) = Some decoded ->
  includes decoded (js "..") = false ->
  ownProperty (backends (config p)) name = None ->
  name ∈ objectPrototypeKeys ->
  exists e,
    handleRequest newURL p req freshResponse iso dateNow
    = Throw e (Unanswered freshResponse (auditLog p))
    /\ e <> ERR_HTTP_HEADERS_SENT
    /\ serve newURL p req iso dateNow []
       = Throw e (freshResponse, auditLog p).
Proof.
  intros url Hurl Hh Hname Hpp Hq Hd Hi Hb Hproto.
  assert (exists e,
            handleRequest newURL p req freshResponse iso dateNow
            = Throw e (Unanswered freshResponse (auditLog p))
            /\ e <> ERR_HTTP_HEADERS_SENT) as (e & He & Hne).
  { rewrite (handleRequest_by_parts newURL p req freshResponse iso dateNow c
               name rest (47%N :: rest) query Hurl Hh Hname eq_refl Hpp Hq).
    rewrite Hd, Hi, (getBackend_inherited _ _ Hb Hproto).
    cbn [allowedPathsOf isPathAllowed negb].
    destruct (forward_inherited newURL p req freshResponse name
                (decoded ++ query) (orString (Http.method req) (js "GET"))
                dateNow) as (e & -> & Hne).
    exists e. split; [reflexivity | exact Hne]. }
  exists e. split; [exact He|]. split; [exact Hne|].
  unfold serve. rewrite He. reflexivity.
Qed.

End RoutingOutcomes.

Lemma unknown_backend_refused_witness :
  exists l,
    handleRequest Sample.newURL Sample.proxy
      (Sample.get "/other/v1/test?x=1") freshResponse Sample.iso1 1000 =
    Ok (Denied
          (response 403 jsonContentType
             [errorBody (js "unknown_backend")
                (js "Unknown backend: other")]) l)
    /\ entriesOf l <> [].
Proof.
  eexists. split.
  - apply (unknown_backend_refused Sample.newURL Sample.proxy
             (Sample.get "/other/v1/test?x=1") Sample.iso1 1000 47
             (js "other") (js "v1/test") (js "?x=1") (js "/v1/test")).
    + reflexivity.
    + vm_compute; discriminate.
    + apply (bool_decide_unpack _); vm_compute; exact I.
    + apply (bool_decide_unpack _); vm_compute; exact I.
    + right. eexists. reflexivity.
    + reflexivity.
    + reflexivity.
    + reflexivity.
    + apply (bool_decide_unpack _); vm_compute; exact I.
  - vm_compute. discriminate.
Defined.

Lemma disallowed_path_refused_witness :
  exists l e,
    handleRequest Sample.newURL Sample.proxy (Sample.get "/myapi/v2/admin")
      freshResponse Sample.iso1 1000 =
    Ok (Denied
          (response 403 jsonContentType
             [errorBody (js "path_denied")
                (js "Path not allowed: /v2/admin")]) l)
    /\ entriesOf l = [e] /\ Audit.backend e = js "myapi".
Proof.
  eexists _, _. split.
  { apply (disallowed_path_refused Sample.newURL Sample.proxy
             (Sample.get "/myapi/v2/admin") Sample.iso1 1000 47
             (js "myapi") (js "v2/admin") [] (js "/v2/admin") Sample.backend).
    - reflexivity.
    - vm_compute; discriminate.
    - apply (bool_decide_unpack _); vm_compute; exact I.
    - apply (bool_decide_unpack _); vm_compute; exact I.
    - left; reflexivity.
    - reflexivity.
    - reflexivity.
    - reflexivity.
    - reflexivity. }
  split; reflexivity.
Defined.

Lemma allowed_request_forwarded_witness :
  exists fl,
    handleRequest Sample.newURL Sample.proxy
      (Sample.get "/myapi/v1/a%2Fb?x=%31") freshResponse Sample.iso1 1000
    = Ok (Forwarding fl)
    /\ reqUrl (proxyReq fl) = js "https://api.example.com/v1/a/b?x=%31".
Proof.
  pose proof (allowed_request_forwarded Sample.newURL Sample.proxy
                (Sample.get "/myapi/v1/a%2Fb?x=%31") Sample.iso1 1000 47
                (js "myapi") (js "v1/a%2Fb") (js "?x=%31") (js "/v1/a/b")
                Sample.backend) as H.
  cbv zeta in H.
  change (Sample.newURL (js "/v1/a/b" ++ js "?x=%31")
            (Some (target Sample.backend)))
    with (Some {| protocol := js "https:";
                  href := js "https://api.example.com/v1/a/b?x=%31" |}) in H.
  destruct H as (fl & H & Hurl & _).
  - reflexivity.
  - vm_compute; discriminate.
  - apply (bool_decide_unpack _); vm_compute; exact I.
  - apply (bool_decide_unpack _); vm_compute; exact I.
  - right. eexists. reflexivity.
  - reflexivity.
  - reflexivity.
  - reflexivity.
  - reflexivity.
  - exists fl. split; [exact H | exact Hurl].
Defined.

Lemma target_without_backend_refused_witness :
  (47%N ∉ drop 1 (js "/noprefix"))
  /\ exists l,
       handleRequest Sample.newURL Sample.proxy (Sample.get "/noprefix")
         freshResponse Sample.iso1 1000 =
       Ok (Denied
             (response 403 jsonContentType
                [errorBody (js "invalid_path")
                   (js "No backend in path: /noprefix")]) l).
Proof.
  assert (47%N ∉ drop 1 (js "/noprefix")) as H
    by (apply (bool_decide_unpack _); vm_compute; exact I).
  split; [exact H|]. eexists.
  exact (target_without_backend_refused Sample.newURL Sample.proxy
           (Sample.get "/noprefix") Sample.iso1 1000 H).
Defined.

Lemma malformed_escape_refused_witness :
  exists l,
    handleRequest Sample.newURL Sample.proxy
      (Sample.get "/myapi/v1/%C0%AE%C0%AE/admin")
      freshResponse Sample.iso1 1000 =
    Ok (Denied
          (response 403 jsonContentType
             [errorBody (js "invalid_path")
                (js "Malformed URL encoding: /v1/%C0%AE%C0%AE/admin")]) l).
Proof.
  eexists.
  apply (malformed_escape_refused Sample.newURL Sample.proxy
           (Sample.get "/myapi/v1/%C0%AE%C0%AE/admin") Sample.iso1 1000 47
           (js "myapi") (js "v1/") (js "/v1/") (js "C0%AE%C0%AE/admin") []).
  - reflexivity.
  - apply (bool_decide_unpack _); vm_compute; exact I.
  - apply (bool_decide_unpack _); vm_compute; exact I.
  - left; reflexivity.
  - reflexivity.
  - assert (escapeOctet (37%N :: js "C0%AE%C0%AE/admin")
            = Some (192%N, js "%AE%C0%AE/admin")) as -> by reflexivity.
    left. lia.
Defined.

Lemma inherited_name_throws_witness :
  exists e,
    serve Sample.newURL Sample.proxy (Sample.get "/toString/v1/test?x=1")
      Sample.iso1 1000 []
    = Throw e (freshResponse, auditLog Sample.proxy)
    /\ entriesOf (auditLog Sample.proxy) = []
    /\ delivered freshResponse = None.
Proof.
  destruct (inherited_name_throws Sample.newURL Sample.proxy
              (Sample.get "/toString/v1/test?x=1") Sample.iso1 1000 47
              (js "toString") (js "v1/test") (js "?x=1") (js "/v1/test"))
    as (e & _ & _ & H).
  - reflexivity.
  - vm_compute; discriminate.
  - apply (bool_decide_unpack _); vm_compute; exact I.
  - apply (bool_decide_unpack _); vm_compute; exact I.
  - right. eexists. reflexivity.
  - reflexivity.
  - reflexivity.
  - reflexivity.
  - apply (bool_decide_unpack _); vm_compute; exact I.
  - exists e. split; [exact H|]. split; reflexivity.
Defined.

(* ===================================================================== *)
(** ** Invariants of a request in flight *)
(* ===================================================================== *)

Section FlightInvariants.

Ltac fields :=
  cbn [stateOf res log proxyReq written received maxBody reqDestroyed piping
       destroyed responded backendName Proxy.method targetPath startTime
       secure reqUrl reqMethod reqHeaders ended _header body writableEnded
       socketDestroyed wire] in *.

Ltac step_event :=
  unfold emit, hangUp;
  unfold onEnd, onError, onProxyData, onProxyEnd, withRes, withProxyReq,
    withReqDestroyed;
  fields;
  rewrite ?onData_record, ?onProxyError_record, ?onProxyResponse_record;
  unfold reqWrite, reqDestroy, reqEnd, reqResponded;
  fields.

Lemma emit_bound (fl : Flight) (ev : Event) :
  totalLength (written (proxyReq fl)) <= received fl ->
  totalLength (written (proxyReq fl)) <= Z.max 0 (maxBody fl) ->
  totalLength (written (proxyReq (stateOf (emit fl ev))))
    <= received (stateOf (emit fl ev))
  /\ totalLength (written (proxyReq (stateOf (emit fl ev))))
     <= Z.max 0 (maxBody (stateOf (emit fl ev)))
  /\ maxBody (stateOf (emit fl ev)) = maxBody fl.
Proof.
  destruct fl as [r l [sc ru rm rh w en ds rs] rd pi rc bn m tp st mx].
  fields. intros H1 H2.
  destruct ev; step_event.
  - destruct (headersSent r); fields; auto.
  - auto.
  - destruct rd; [fields; auto|].
    destruct (rc + Z.of_nat (length chunk) >? mx) eqn:E; fields.
    + destruct ds, rs; cbn [andb negb]; step_event; lia.
    + rewrite Z.gtb_ltb in E. apply Z.ltb_ge in E.
      destruct ds; fields; cbn [andb negb]; fields; rewrite ?totalLength_app;
        cbn [totalLength foldr]; lia.
  - destruct rd; fields; auto.
  - destruct rd; [fields; auto|].
    destruct ds, rs; cbn [andb negb]; step_event; auto.
  - destruct pi; fields; auto.
  - destruct pi; fields; auto.
Qed.

Lemma run_bound (evs : list Event) (fl : Flight) :
  totalLength (written (proxyReq fl)) <= received fl ->
  totalLength (written (proxyReq fl)) <= Z.max 0 (maxBody fl) ->
  totalLength (written (proxyReq (stateOf (run fl evs))))
    <= Z.max 0 (maxBody fl).
Proof.
  revert fl. induction evs as [|ev rest IH]; intros fl H1 H2; [exact H2|].
  cbn [run]. destruct (emit_bound fl ev H1 H2) as (H3 & H4 & H5).
  destruct (emit fl ev) as [fl1|e fl1]; cbn [stateOf] in *.
  - rewrite <- H5. apply IH; assumption.
  - rewrite <- H5. exact H4.
Qed.

(** X10. Whatever the order of the events of a forwarded request (chunks
    of the body, the end or an error of the inbound stream, the upstream's
    response, body and errors), the bytes written to the upstream request
    never add up to more than the backend's body limit. *)
Theorem upstream_never_gets_more_than_limit (targetUrl : URL)
    (p : AuthProxy) (req : IncomingMessage) (res0 : ServerResponse)
    (headers : gmap (list N) (list N)) (maxBodyBytes : option Z)
    (backendName targetPath method : list N) (dateNow : Z)
    (evs : list Event) :
  totalLength
    (written (proxyReq (stateOf
       (run (forwardTo targetUrl p req res0 headers maxBodyBytes backendName
               targetPath method dateNow) evs))))
  <= Z.max 0 (match maxBodyBytes with
              | Some n => n
              | None => 10485760
              end).
Proof.
  apply (run_bound evs
           (forwardTo targetUrl p req res0 headers maxBodyBytes backendName
              targetPath method dateNow)).
  - unfold forwardTo. fields. cbn [totalLength foldr]. lia.
  - unfold forwardTo. fields. cbn [totalLength foldr]. lia.
Qed.





Lemma audit_entries_cases (l : option AuditLog) (e : AuditEntry) :
  entriesOf (audit l e) = entriesOf l
  \/ entriesOf (audit l e) = entriesOf l ++ [e].
Proof.
  destruct l as [[[d|] lp ls]|]; cbn; auto.
Qed.

Lemma emit_entries (fl : Flight) (ev : Event) :
  let fl' := stateOf (emit fl ev) in
  backendName fl' = backendName fl /\ Proxy.method fl' = Proxy.method fl
  /\ targetPath fl' = targetPath fl
  /\ exists added,
       entriesOf (log fl') = entriesOf (log fl) ++ added
       /\ (length added <= 2)%nat
       /\ Forall (entryOf fl) added.
Proof.
  assert (forall l e, entryOf fl e ->
            exists added,
              entriesOf (audit l e) = entriesOf l ++ added
              /\ (length added <= 1)%nat /\ Forall (entryOf fl) added) as Hone.
  { intros l e He. destruct (audit_entries_cases l e) as [E | E];
      rewrite E.
    - exists [].
      split; [symmetry; apply app_nil_r|].
      split; [cbn; lia | constructor].
    - exists [e]. split; [reflexivity|]. split; [cbn; lia|].
      constructor; [exact He | constructor]. }
  assert (forall l e1 e2, entryOf fl e1 -> entryOf fl e2 ->
            exists added,
              entriesOf (audit (audit l e1) e2) = entriesOf l ++ added
              /\ (length added <= 2)%nat /\ Forall (entryOf fl) added) as Htwo.
  { intros l e1 e2 H1 H2.
    destruct (Hone l e1 H1) as (a1 & E1 & L1 & F1).
    destruct (Hone (audit l e1) e2 H2) as (a2 & E2 & L2 & F2).
    exists (a1 ++ a2). rewrite E2, E1, app_assoc.
    split; [reflexivity|]. split; [rewrite length_app; lia|].
    apply Forall_app. auto. }
  assert (forall l e, entryOf fl e ->
            exists added,
              entriesOf (audit l e) = entriesOf l ++ added
              /\ (length added <= 2)%nat /\ Forall (entryOf fl) added) as Hone2.
  { intros l e He. destruct (Hone l e He) as (a & E & L & F).
    exists a. split; [exact E|]. split; [lia | exact F]. }
  assert (forall l : option AuditLog, exists added : list AuditEntry,
            entriesOf l = entriesOf l ++ added
            /\ (length added <= 2)%nat /\ Forall (entryOf fl) added) as Hnone.
  { intros l. exists []. split; [symmetry; apply app_nil_r|].
    split; [cbn; lia | constructor]. }
  clear Hone.
  destruct fl as [r l [sc ru rm rh w en ds rs] rd pi rc bn m tp st mx].
  unfold entryOf in *. fields. cbv zeta.
  destruct ev; step_event.
  - destruct (headersSent r); fields; repeat split;
      apply Hone2; cbn; repeat split; discriminate.
  - repeat split; apply Hone2; cbn; repeat split; discriminate.
  - destruct rd; [fields; auto|].
    destruct (rc + Z.of_nat (length chunk) >? mx); fields.
    + destruct ds, rs; cbn [andb negb]; step_event; repeat split;
        first [apply Htwo | apply Hone2]; cbn; repeat split;
        discriminate.
    + destruct ds; fields; cbn [andb negb]; fields; auto.
  - destruct rd; fields; auto.
  - destruct rd; [fields; auto|].
    destruct ds, rs; cbn [andb negb]; step_event; repeat split; auto.
    apply Hone2; cbn; repeat split; discriminate.
  - destruct pi; fields; auto.
  - destruct pi; fields; auto.
Qed.

(** X12. Over any run of events, the handlers of a request only append to
    the audit log, at most two entries for each event (a chunk over the
    limit is followed by the failure of the upstream request it
    destroys), and every entry they append carries the backend name, the
    method and the path of that request; an entry that is not [allowed]
    has status 413. *)
Theorem flight_audit_entries (evs : list Event) (fl : Flight) :
  exists added,
    entriesOf (log (stateOf (run fl evs))) = entriesOf (log fl) ++ added
    /\ (length added <= 2 * length evs)%nat
    /\ Forall (entryOf fl) added.
Proof.
  revert fl. induction evs as [|ev rest IH]; intros fl.
  - exists []. cbn [run stateOf length].
    split; [symmetry; apply app_nil_r|]. split; [lia | constructor].
  - cbn [run]. pose proof (emit_entries fl ev) as H. cbv zeta in H.
    destruct H as (Hbn & Hm & Htp & added & Hlog & Hlen & Hall).
    destruct (emit fl ev) as [fl1|e fl1]; cbn [stateOf] in *.
    + destruct (IH fl1) as (more & Hlog1 & Hlen1 & Hall1).
      exists (added ++ more). rewrite Hlog1, Hlog, app_assoc.
      split; [reflexivity|]. split; [rewrite length_app; cbn; lia|].
      apply Forall_app. split; [exact Hall|].
      eapply Forall_impl; [exact Hall1|].
      unfold entryOf. rewrite Hbn, Hm, Htp. auto.
    + exists added. split; [exact Hlog|]. split; [cbn; lia | exact Hall].
Qed.

Lemma run_proxy_data (chunks : list (list Byte.byte)) (fl : Flight)
    (h : Z * gmap (list N) HeaderValue) :
  piping fl = true -> _header (res fl) = Some h ->
  socketDestroyed (res fl) = false ->
  exists fl1,
    run fl (proxyDataEvents chunks) = Ok fl1
    /\ piping fl1 = true
    /\ res fl1 = {| _header := Some h;
                    body := body (res fl) ++ (Chunk <$> chunks);
                    writableEnded := writableEnded (res fl);
                    socketDestroyed := false;
                    wire := match chunks with
                            | [] => wire (res fl)
                            | _ :: _ =>
                                Some (default [] (wire (res fl))
                                      ++ (Chunk <$> chunks))
                            end |}.
Proof.
  revert fl. induction chunks as [|c cs IH]; intros fl Hp Hh Hs.
  - exists fl. cbn. rewrite app_nil_r. destruct (res fl). cbn in *.
    subst. auto.
  - cbn [proxyDataEvents fmap list_fmap run emit]. rewrite Hp.
    destruct fl as [[h0 b we sd wi] l pr rd pi rc bn m tp st mx].
    fields. subst.
    destruct (IH (onProxyData
                    {| res := {| _header := Some h; body := b;
                                 writableEnded := we;
                                 socketDestroyed := false; wire := wi |};
                       log := l; proxyReq := pr; reqDestroyed := rd;
                       piping := true; received := rc; backendName := bn;
                       Proxy.method := m; targetPath := tp; startTime := st;
                       maxBody := mx |} c) eq_refl eq_refl eq_refl)
      as (fl1 & Hrun & Hp1 & Hres).
    exists fl1. split; [exact Hrun|]. split; [exact Hp1|].
    rewrite Hres.
    unfold onProxyData, withRes, Http.write, implicitHeader, sent. fields.
    cbn [fmap list_fmap]. f_equal.
    + rewrite <- app_assoc. reflexivity.
    + destruct cs as [|c' cs]; [reflexivity|].
      cbn [from_option id]. rewrite <- app_assoc. reflexivity.
Qed.

(** X13. When the upstream answers a request that has had no response
    yet and whose client is still connected, the client is sent the
    upstream's status (502 for a missing or zero one), the filtered
    headers, and then every chunk of the upstream body, unchanged, in
    order and whatever their total size, up to the end of the response. *)
Theorem upstream_body_relayed (fl : Flight) (iso : list N) (dateNow : Z)
    (statusCode : option Z) (hs : gmap (list N) HeaderValue)
    (chunks : list (list Byte.byte)) :
  headersSent (res fl) = false ->
  socketDestroyed (res fl) = false ->
  exists fl1,
    run fl (ProxyResponse iso dateNow statusCode hs
            :: proxyDataEvents chunks ++ [ProxyEnd]) = Ok fl1
    /\ _header (res fl1) = Some (orNumber statusCode 502, safeHeaders hs)
    /\ body (res fl1) = body (res fl) ++ (Chunk <$> chunks)
    /\ writableEnded (res fl1) = true
    /\ delivered (res fl1)
       = Some (orNumber statusCode 502, safeHeaders hs,
               default [] (wire (res fl)) ++ (Chunk <$> chunks)).
Proof.
  intros H Hs.
  destruct fl as [r l [sc ru rm rh w en ds rs] rd pi rc bn m tp st mx].
  fields.
  cbn [run emit]. unfold withProxyReq. fields.
  rewrite onProxyResponse_record. cbv zeta. rewrite H.
  rewrite run_app.
  match goal with |- context [run ?f (proxyDataEvents chunks)] =>
    destruct (run_proxy_data chunks f
                (orNumber statusCode 502, safeHeaders hs) eq_refl eq_refl Hs)
      as (fl1 & Hrun & Hp1 & Hres1)
  end.
  rewrite Hrun. cbn [run emit]. rewrite Hp1.
  eexists. split; [reflexivity|].
  unfold onProxyEnd, withRes, end_, implicitHeader, flushed, delivered.
  fields. rewrite Hres1. fields.
  repeat split.
  destruct chunks; cbn [fmap list_fmap]; rewrite ?app_nil_r; reflexivity.
Qed.

Lemma emit_socket (fl : Flight) (ev : Event) :
  socketDestroyed (res fl) = true ->
  socketDestroyed (res (stateOf (emit fl ev))) = true
  /\ wire (res (stateOf (emit fl ev))) = wire (res fl).
Proof.
  destruct fl as [[h b we sd wi] l [sc ru rm rh w en ds rs] rd pi rc bn m tp
                  st mx].
  fields. intros ->.
  destruct h as [h|]; destruct ev; step_event;
    unfold headersSent, answered, destroySocket; fields;
    try (destruct rd; fields); try (destruct pi; fields);
    try (destruct (rc + Z.of_nat (length chunk) >? mx); fields);
    try (destruct ds, rs; cbn [andb negb]; step_event);
    unfold headersSent, answered, destroySocket, Http.write, end_,
      implicitHeader, sent, flushed;
    fields; cbn [andb negb]; fields; auto.
Qed.

(** X14. Once the socket of a request is destroyed, nothing more reaches
    its client: whatever events follow and whatever the handlers write to
    the response, what has gone out on the connection stays as it was.
    So the 413 that follows [req.destroy()] is never sent. *)
Theorem destroyed_socket_delivers_nothing (fl : Flight) (evs : list Event) :
  socketDestroyed (res fl) = true ->
  wire (res (stateOf (run fl evs))) = wire (res fl)
  /\ forall (iso hangIso : list N) (hangNow : Z) (chunk : list Byte.byte)
            (fl0 : Flight),
       reqDestroyed fl0 = false ->
       maxBody fl0 < received fl0 + Z.of_nat (length chunk) ->
       wire (res (stateOf (run fl0
               (ReqData iso chunk hangIso hangNow :: evs))))
       = wire (res fl0).
Proof.
  assert (forall evs fl, socketDestroyed (res fl) = true ->
            wire (res (stateOf (run fl evs))) = wire (res fl)) as Hrun.
  { clear. induction evs as [|ev rest IH]; intros fl H; [reflexivity|].
    cbn [run]. destruct (emit_socket fl ev H) as [Hs Hw].
    destruct (emit fl ev) as [fl1|e fl1]; cbn [stateOf] in *.
    - rewrite IH by exact Hs. exact Hw.
    - exact Hw. }
  intros H. split; [apply Hrun, H|].
  intros iso hangIso hangNow chunk fl0 Hrd Hover.
  cbn [run]. rewrite emit_data_over by assumption.
  destruct (onData_over fl0 iso chunk Hover)
    as (_ & _ & _ & Hsent & Hunsent & _).
  assert (socketDestroyed (res (onData fl0 iso chunk)) = true
          /\ wire (res (onData fl0 iso chunk)) = wire (res fl0)) as [Hs Hw].
  { destruct (headersSent (res fl0)) eqn:E.
    - rewrite (Hsent eq_refl). split; reflexivity.
    - rewrite (Hunsent eq_refl). split; reflexivity. }
  match goal with
  | |- wire (res (stateOf (run ?f evs))) = _ =>
      assert (socketDestroyed (res f) = true /\ wire (res f) = wire (res fl0))
        as [Hs' Hw']
  end.
  { destruct (negb _ && negb _); [|auto].
    destruct (headersSent (res (onData fl0 iso chunk))) eqn:E.
    - rewrite onProxyError_sent by exact E. auto.
    - rewrite onProxyError_unsent by exact E.
      unfold answered. fields. rewrite Hs. auto. }
  rewrite Hrun by exact Hs'. exact Hw'.
Qed.

Lemma emit_header_kept (fl : Flight) (ev : Event)
    (h : Z * gmap (list N) HeaderValue) :
  _header (res fl) = Some h ->
  _header (res (stateOf (emit fl ev))) = Some h.
Proof.
  destruct fl as [[h0 b we sd wi] l [sc ru rm rh w en ds rs] rd pi rc bn m tp
                  st mx].
  fields. intros ->.
  destruct ev; step_event;
    unfold headersSent, answered, destroySocket; fields;
    try (destruct rd; fields); try (destruct pi; fields);
    try (destruct (rc + Z.of_nat (length chunk) >? mx); fields);
    try (destruct ds, rs; cbn [andb negb]; step_event);
    unfold headersSent, answered, destroySocket, Http.write, end_,
      implicitHeader, sent, flushed;
    fields; cbn [andb negb]; fields; auto.
Qed.

(** X15. The status line and the headers of a response are written once:
    when they are stored, no event that follows replaces them, whatever
    the upstream and the client go on to do. *)
Theorem response_head_never_rewritten (fl : Flight) (evs : list Event)
    (h : Z * gmap (list N) HeaderValue) :
  _header (res fl) = Some h ->
  _header (res (stateOf (run fl evs))) = Some h.
Proof.
  revert fl. induction evs as [|ev rest IH]; intros fl H; [exact H|].
  cbn [run]. pose proof (emit_header_kept fl ev h H) as H1.
  destruct (emit fl ev) as [fl1|e fl1]; cbn [stateOf] in *.
  - apply IH, H1.
  - exact H1.
Qed.

End FlightInvariants.

Section Refusals.

Context (newURL : list N -> option (list N) -> option URL).


End Refusals.


Lemma upstream_body_relayed_witness :
  headersSent (res Sample.flight) = false
  /\ socketDestroyed (res Sample.flight) = false
  /\ exists fl1,
       run Sample.flight
         (ProxyResponse Sample.iso1 1200 None Sample.upstreamHeaders
          :: proxyDataEvents [Sample.fiveBytes; Sample.twoBytes] ++ [ProxyEnd])
       = Ok fl1
       /\ delivered (res fl1)
          = Some (502, safeHeaders Sample.upstreamHeaders,
                  [Chunk Sample.fiveBytes; Chunk Sample.twoBytes]).
Proof.
  split; [reflexivity|]. split; [reflexivity|].
  destruct (upstream_body_relayed Sample.flight Sample.iso1 1200 None
              Sample.upstreamHeaders [Sample.fiveBytes; Sample.twoBytes]
              eq_refl eq_refl) as (fl1 & Hrun & _ & _ & _ & Hd).
  exists fl1. split; [exact Hrun | exact Hd].
Defined.

Lemma destroyed_socket_delivers_nothing_witness :
  socketDestroyed (res (onData Sample.flight Sample.iso2 Sample.fiveBytes))
  = true
  /\ wire (res (stateOf
       (run (onData Sample.flight Sample.iso2 Sample.fiveBytes)
          [ProxyError Sample2.iso3 1400 (js "socket hang up"); ProxyEnd])))
     = None.
Proof.
  split; [reflexivity|].
  apply (destroyed_socket_delivers_nothing
           (onData Sample.flight Sample.iso2 Sample.fiveBytes)
           [ProxyError Sample2.iso3 1400 (js "socket hang up"); ProxyEnd]).
  reflexivity.
Defined.

Lemma response_head_never_rewritten_witness :
  _header (res (onData Sample.flight Sample.iso2 Sample.fiveBytes))
  = Some (413, jsonContentType)
  /\ _header (res (stateOf
       (run (onData Sample.flight Sample.iso2 Sample.fiveBytes)
          [ProxyError Sample2.iso3 1400 (js "socket hang up")])))
     = Some (413, jsonContentType).
Proof.
  split; [reflexivity|].
  apply (response_head_never_rewritten
           (onData Sample.flight Sample.iso2 Sample.fiveBytes)
           [ProxyError Sample2.iso3 1400 (js "socket hang up")]).
  reflexivity.
Defined.


(* ===================================================================== *)
(** ** More on the allowlist *)
(* ===================================================================== *)

Section AllowlistMore.

(** X17. Under a list whose patterns all end with ['*'], whatever extends
    an allowed path is allowed too. *)
Theorem wildcard_allows_extensions (path more : list N)
    (L : list (list N)) :
  (forall pattern, pattern ∈ L -> endsWith pattern (js "*") = true) ->
  isPathAllowed path (Some L) = true ->
  isPathAllowed (path ++ more) (Some L) = true.
Proof.
  intros Hstar. destruct L as [|q l]; [reflexivity|].
  change (isPathAllowed path (Some (q :: l))) with (anyPattern path (q :: l)).
  change (isPathAllowed (path ++ more) (Some (q :: l)))
    with (anyPattern (path ++ more) (q :: l)).
  rewrite !anyPattern_spec. intros (x & Hx & Hm). exists x.
  split; [exact Hx|]. revert Hm. unfold patternMatches.
  rewrite (Hstar x Hx), !startsWith_spec. intros [r ->].
  exists (r ++ more). symmetry. apply app_assoc.
Qed.

Lemma wildcard_allows_extensions_witness :
  (forall pattern, pattern ∈ [js "/v1/*"; js "/repos/me/*"] ->
                   endsWith pattern (js "*") = true)
  /\ isPathAllowed (js "/v1/") (Some [js "/v1/*"; js "/repos/me/*"]) = true
  /\ isPathAllowed (js "/v1/" ++ js "messages/batch")
       (Some [js "/v1/*"; js "/repos/me/*"]) = true.
Proof.
  assert (forall pattern, pattern ∈ [js "/v1/*"; js "/repos/me/*"] ->
                          endsWith pattern (js "*") = true) as H.
  { intros pattern Hp. apply elem_of_cons in Hp as [-> | Hp];
      [reflexivity|].
    apply elem_of_cons in Hp as [-> | Hp]; [reflexivity | inversion Hp]. }
  split; [exact H|]. split; [reflexivity|].
  exact (wildcard_allows_extensions (js "/v1/") (js "messages/batch")
           [js "/v1/*"; js "/repos/me/*"] H eq_refl).
Defined.

End AllowlistMore.

(* ===================================================================== *)
(** ** Loading the configuration *)
(* ===================================================================== *)

Section Loading.

Import Loader.

Lemma envValue_spec (env : gmap (list N) (list N)) (name x : list N) :
  envValue env name = Some x <-> env !! name = Some x /\ x <> [].
Proof.
  unfold envValue. destruct (env !! name) as [[|c s]|]; split;
    try (intros [H1 H2]); try discriminate; try congruence.
  - intros [= <-]. split; [reflexivity | discriminate].
Qed.


Lemma resolveHeader_ok_iff (env : gmap (list N) (list N)) (name : list N)
    (kv : list N * list N) :
  (exists kv', resolveHeader env name kv = inr kv') <->
  (startsWith kv.2 (js "$") = true ->
   exists x, envValue env (drop 1 kv.2) = Some x).
Proof.
  unfold resolveHeader. cbv zeta.
  destruct (startsWith kv.2 (js "$")).
  - destruct (envValue env (drop 1 kv.2)) as [x|]; split.
    + eauto.
    + eauto.
    + intros [kv' H]. discriminate.
    + intros H. destruct (H eq_refl) as [x Hx]. discriminate.
  - split; [discriminate | eauto].
Qed.

Lemma resolveHeaders_ok_iff (env : gmap (list N) (list N)) (name : list N)
    (hs : list (list N * list N)) :
  (exists hs', resolveHeaders env name hs = inr hs') <->
  (forall kv, kv ∈ hs -> startsWith kv.2 (js "$") = true ->
              exists x, envValue env (drop 1 kv.2) = Some x).
Proof.
  induction hs as [|kv rest IH].
  - split; [intros _ kv Hkv; inversion Hkv | cbn; eauto].
  - cbn [resolveHeaders]. split.
    + intros [hs' H] kv0 Hin.
      destruct (resolveHeader env name kv) as [e|kv'] eqn:E1; [discriminate|].
      destruct (resolveHeaders env name rest) as [e|rest'] eqn:E2;
        [discriminate|].
      apply elem_of_cons in Hin as [-> | Hin].
      * apply (resolveHeader_ok_iff env name kv). eauto.
      * apply (proj1 IH); eauto.
    + intros H.
      destruct (proj2 (resolveHeader_ok_iff env name kv)) as [kv' ->].
      { apply H. left. }
      destruct (proj2 IH) as [rest' ->].
      { intros kv0 Hin. apply H. right. exact Hin. }
      eauto.
Qed.


Lemma resolveBackend_ok_iff (env : gmap (list N) (list N))
    (nb : list N * RawBackend) :
  (exists nb', resolveBackend env nb = inr nb') <->
  (exists c t, target nb.2 = Some (c :: t))
  /\ forall kv, kv ∈ default [] (headers nb.2) ->
       startsWith kv.2 (js "$") = true ->
       exists x, envValue env (drop 1 kv.2) = Some x.
Proof.
  unfold resolveBackend. cbv zeta.
  destruct (target nb.2) as [[|c t]|].
  - split; [intros [nb' H]; discriminate|]. intros [(c & t & H) _].
    discriminate.
  - rewrite <- (resolveHeaders_ok_iff env nb.1).
    destruct (resolveHeaders env nb.1 (default [] (headers nb.2)))
      as [e|hs']; split.
    + intros [nb' H]. discriminate.
    + intros [_ [hs' H]]. discriminate.
    + intros _. split; eauto.
    + eauto.
  - split; [intros [nb' H]; discriminate|]. intros [(c & t & H) _].
    discriminate.
Qed.

Lemma resolveBackends_ok_iff (env : gmap (list N) (list N))
    (bs : list (list N * RawBackend)) :
  (exists bs', resolveBackends env bs = inr bs') <->
  (forall nb, nb ∈ bs ->
     (exists c t, target nb.2 = Some (c :: t))
     /\ forall kv, kv ∈ default [] (headers nb.2) ->
          startsWith kv.2 (js "$") = true ->
          exists x, envValue env (drop 1 kv.2) = Some x).
Proof.
  induction bs as [|nb rest IH].
  - split; [intros _ nb Hnb; inversion Hnb | cbn; eauto].
  - cbn [resolveBackends]. split.
    + intros [bs' H] nb0 Hin.
      destruct (resolveBackend env nb) as [e|nb'] eqn:E1; [discriminate|].
      destruct (resolveBackends env rest) as [e|rest'] eqn:E2;
        [discriminate|].
      apply elem_of_cons in Hin as [-> | Hin].
      * apply resolveBackend_ok_iff. eauto.
      * apply (proj1 IH); eauto.
    + intros H.
      destruct (proj2 (resolveBackend_ok_iff env nb)) as [nb' ->].
      { apply H. left. }
      destruct (proj2 IH) as [rest' ->].
      { intros nb0 Hin. apply H. right. exact Hin. }
      eauto.
Qed.

Lemma resolveBackends_inr (env : gmap (list N) (list N))
    (bs : list (list N * RawBackend))
    (bs' : list (list N * BackendConfig)) :
  resolveBackends env bs = inr bs' ->
  bs'.*1 = bs.*1
  /\ forall nb, nb ∈ bs ->
       exists nb', nb' ∈ bs' /\ resolveBackend env nb = inr nb'.
Proof.
  revert bs'. induction bs as [|nb rest IH]; intros bs'.
  - intros [= <-]. split; [reflexivity|]. intros nb Hnb. inversion Hnb.
  - cbn [resolveBackends].
    destruct (resolveBackend env nb) as [e|nb'] eqn:E1; [discriminate|].
    destruct (resolveBackends env rest) as [e|rest'] eqn:E2;
      [discriminate|].
    intros [= <-]. destruct (IH rest' eq_refl) as (Hkeys & Hall).
    split.
    + cbn. rewrite Hkeys. f_equal.
      revert E1. unfold resolveBackend. cbv zeta.
      destruct (target nb.2) as [[|c t]|]; try discriminate.
      destruct (resolveHeaders _ _ _); [discriminate|].
      intros [= <-]. reflexivity.
    + intros nb0 Hin. apply elem_of_cons in Hin as [-> | Hin].
      * exists nb'. split; [left | exact E1].
      * destruct (Hall nb0 Hin) as (nb1 & Hin1 & Hr).
        exists nb1. split; [right; exact Hin1 | exact Hr].
Qed.

(** Among entries with distinct names, each is the own property of its
    name. *)
Lemma ownProperty_elem {A : Type} (entries : list (list N * A))
    (key : list N) (v : A) :
  NoDup entries.*1 -> (key, v) ∈ entries ->
  ownProperty entries key = Some v.
Proof.
  induction entries as [|[k x] rest IH]; intros Hnd Hin.
  - inversion Hin.
  - cbn [fmap list_fmap fst] in Hnd. apply NoDup_cons in Hnd as [Hk Hnd].
    cbn [ownProperty]. apply elem_of_cons in Hin as [[= <- <-] | Hin].
    + rewrite streq_refl. reflexivity.
    + destruct (streq k key) eqn:E; [|apply IH; assumption].
      apply streq_spec in E. subst k. exfalso. apply Hk.
      apply list_elem_of_fmap. exists (key, v). split; [reflexivity | exact Hin].
Qed.

(** A backend of the file is resolved on its own and stored under its
    name. *)
Lemma loadConfig_backend (env : gmap (list N) (list N)) (config : RawConfig)
    (c : AgentAuthConfig) (bs : list (list N * RawBackend)) (name : list N)
    (b : RawBackend) :
  loadConfig env config = inr c ->
  backends config = Some bs -> NoDup bs.*1 -> (name, b) ∈ bs ->
  exists b',
    resolveBackend env (name, b) = inr (name, b')
    /\ ownProperty (Config.backends c) name = Some b'.
Proof.
  unfold loadConfig. intros H Hbs Hnd Hin. rewrite Hbs in H.
  destruct (length bs =? 0)%nat; [discriminate|].
  destruct (resolveBackends env bs) as [e|bs'] eqn:E; [discriminate|].
  injection H as <-. cbn [Config.backends].
  destruct (resolveBackends_inr env bs bs' E) as (Hkeys & Hall).
  destruct (Hall (name, b) Hin) as ([name' b'] & Hin' & Hr).
  assert (name' = name) as ->.
  { revert Hr. unfold resolveBackend. cbv zeta. cbn [fst snd].
    destruct (target b) as [[|x t]|]; try discriminate.
    destruct (resolveHeaders _ _ _); [discriminate|].
    intros [= <- _]. reflexivity. }
  exists b'. split; [exact Hr|].
  apply ownProperty_elem; [rewrite Hkeys; exact Hnd | exact Hin'].
Qed.

Lemma loadConfig_ok (env : gmap (list N) (list N)) (config : RawConfig)
    (bs : list (list N * RawBackend)) :
  backends config = Some bs -> bs <> [] ->
  (forall nb, nb ∈ bs ->
     (exists c t, target nb.2 = Some (c :: t))
     /\ forall kv, kv ∈ default [] (headers nb.2) ->
          startsWith kv.2 (js "$") = true ->
          exists x, envValue env (drop 1 kv.2) = Some x) ->
  exists c, loadConfig env config = inr c.
Proof.
  intros Hbs Hne Hall. unfold loadConfig. rewrite Hbs.
  destruct bs as [|nb rest]; [contradiction|]. cbn [length Nat.eqb].
  apply resolveBackends_ok_iff in Hall as [bs' ->]. eauto.
Qed.


(** X19. A loaded configuration always has a port other than 0 and a
    non-empty bind address: a port that is absent or 0 becomes 9999, an
    address that is absent or empty becomes ["127.0.0.1"], and what the
    file gives otherwise is kept, as is its audit log path. *)
Theorem loadConfig_defaults (env : gmap (list N) (list N))
    (config : RawConfig) (c : AgentAuthConfig) :
  loadConfig env config = inr c ->
  Config.port c <> 0 /\ Config.bind c <> []
  /\ (forall n, port config = Some n -> n <> 0 -> Config.port c = n)
  /\ (port config = None \/ port config = Some 0 -> Config.port c = 9999)
  /\ (forall a, bind config = Some a -> a <> [] -> Config.bind c = a)
  /\ (bind config = None \/ bind config = Some [] ->
      Config.bind c = js "127.0.0.1")
  /\ Config.auditLog c = auditLog config.
Proof.
  unfold loadConfig. destruct (backends config) as [bs|]; [|discriminate].
  destruct (length bs =? 0)%nat; [discriminate|].
  destruct (resolveBackends env bs); [discriminate|].
  intros [= <-]. cbn [Config.port Config.bind Config.auditLog].
  unfold orNumber, orString.
  destruct (port config) as [n|], (bind config) as [[|x a]|];
    try destruct (Z.eqb_spec n 0);
    repeat split; try discriminate; try congruence;
    try (intros [H|H]; congruence); try lia;
    intros ? [= <-] ?; congruence.
Qed.

Lemma loadConfig_defaults_witness :
  exists c,
    loadConfig Sample2.env Sample2.rawConfig = inr c
    /\ Config.port c = 9999 /\ Config.bind c = js "127.0.0.1".
Proof.
  eexists. split; [reflexivity|].
  match goal with |- Config.port ?c = _ /\ _ =>
    destruct (loadConfig_defaults Sample2.env Sample2.rawConfig c eq_refl)
      as (_ & _ & _ & Hp & _ & Hb & _)
  end.
  split; [apply Hp | apply Hb]; left; reflexivity.
Defined.




(* ===================================================================== *)
(** ** From [cmdInit] to [loadConfig] *)
(* ===================================================================== *)

Import Init.

Lemma resolve_anthropic (env : gmap (list N) (list N)) :
  resolveBackend env
    (backendOf (js "anthropic",
                (js "https://api.anthropic.com", js "x-api-key",
                 js "ANTHROPIC_API_KEY", [js "/v1/messages"])))
  = match envValue env (js "ANTHROPIC_API_KEY") with
    | Some x =>
        inr (js "anthropic",
             {| Config.target := js "https://api.anthropic.com";
                Config.headers :=
                  list_to_map [(js "x-api-key", x);
                               (js "anthropic-version", js "2023-06-01")];
                Config.allowedPaths := Some [js "/v1/messages"];
                Config.maxBodyBytes := None |})
    | None =>
        inl (js "Backend " ++ dq ++ js "anthropic" ++ dq ++ js " header "
             ++ dq ++ js "x-api-key" ++ dq ++ js " references $"
             ++ js "ANTHROPIC_API_KEY" ++ js " but it is not set")
    end.
Proof.
  unfold resolveBackend, backendOf. cbv zeta.
  change (resolveHeaders env _ _) with
    (match resolveHeader env (js "anthropic")
             (js "x-api-key", js "$ANTHROPIC_API_KEY") with
     | inl e => inl e
     | inr kv' => inr [kv'; (js "anthropic-version", js "2023-06-01")]
     end).
  unfold resolveHeader. cbv zeta.
  change (startsWith _ _) with true. cbv iota.
  change (drop 1 _) with (js "ANTHROPIC_API_KEY").
  destruct (envValue env (js "ANTHROPIC_API_KEY")); reflexivity.
Qed.

Lemma resolve_openai (env : gmap (list N) (list N)) :
  resolveBackend env
    (backendOf (js "openai",
                (js "https://api.openai.com", js "authorization",
                 js "OPENAI_API_KEY", [js "/v1/*"])))
  = inr (js "openai",
         {| Config.target := js "https://api.openai.com";
            Config.headers :=
              list_to_map [(js "authorization", js "Bearer $OPENAI_API_KEY")];
            Config.allowedPaths := Some [js "/v1/*"];
            Config.maxBodyBytes := None |}).
Proof. reflexivity. Qed.

Lemma resolve_github (env : gmap (list N) (list N)) (envVar : list N) :
  resolveBackend env
    (backendOf (js "github",
                (js "https://api.github.com", js "authorization",
                 envVar, [js "/repos/*"])))
  = inr (js "github",
         {| Config.target := js "https://api.github.com";
            Config.headers :=
              list_to_map [(js "authorization", js "Bearer $" ++ envVar);
                           (js "accept", js "application/vnd.github+json")];
            Config.allowedPaths := Some [js "/repos/*"];
            Config.maxBodyBytes := None |}).
Proof. reflexivity. Qed.

(** The placeholder is the backend written for a detected Anthropic
    key. *)
Lemma resolve_placeholder (env : gmap (list N) (list N)) :
  resolveBackend env
    (js "anthropic",
     {| target := Some (js "https://api.anthropic.com");
        headers := Some [(js "x-api-key", js "$ANTHROPIC_API_KEY");
                         (js "anthropic-version", js "2023-06-01")];
        allowedPaths := Some [js "/v1/messages"];
        maxBodyBytes := None |})
  = resolveBackend env
      (backendOf (js "anthropic",
                  (js "https://api.anthropic.com", js "x-api-key",
                   js "ANTHROPIC_API_KEY", [js "/v1/messages"]))).
Proof. reflexivity. Qed.

(** Runs [loadConfig] on what [cmdInit] writes, by the variables that are
    set. *)
Ltac init_then_load env :=
  unfold loadConfig, initConfig, detected, isSet; cbn [backends];
  destruct (envValue env (js "ANTHROPIC_API_KEY")) as [a|] eqn:Ha;
  destruct (envValue env (js "OPENAI_API_KEY")) as [o|] eqn:Ho;
  destruct (envValue env (js "GITHUB_TOKEN")) as [g|] eqn:Hg;
  destruct (envValue env (js "GITHUB_TOKEN_BEARER")) as [gb|] eqn:Hgb;
  cbn [orb app length Nat.eqb fmap list_fmap resolveBackends];
  rewrite ?resolve_placeholder, ?resolve_anthropic, ?resolve_openai,
    ?resolve_github, ?Ha.

Ltac stored :=
  cbn [Config.backends Config.headers];
  first
    [ apply ownProperty_elem
    | apply elem_of_list_to_map_1 ];
  [ apply (bool_decide_unpack _); vm_compute; exact I
  | repeat first [apply list_elem_of_here | apply list_elem_of_further] ].

(** X21. The file that [cmdInit] writes is accepted by [loadConfig]
    exactly when one of ANTHROPIC_API_KEY, OPENAI_API_KEY, GITHUB_TOKEN and
    GITHUB_TOKEN_BEARER is set: the placeholder written when none is set
    refers to a variable that is not there. *)
Theorem init_config_loads_iff (env : gmap (list N) (list N)) :
  (exists c, loadConfig env (initConfig env) = inr c) <->
  isSet env "ANTHROPIC_API_KEY" = true \/ isSet env "OPENAI_API_KEY" = true
  \/ isSet env "GITHUB_TOKEN" = true
  \/ isSet env "GITHUB_TOKEN_BEARER" = true.
Proof.
  init_then_load env.
  all: split;
    [ intros [c Hc]; first [discriminate Hc | tauto]
    | intros H; first [eexists; reflexivity | intuition discriminate] ].
Qed.

(** X22. When OPENAI_API_KEY is set, the configuration that [cmdInit]
    writes loads, and its [openai] backend injects the text
    ["Bearer $OPENAI_API_KEY"] as [authorization]: the reference is not at
    the start of the value, so [loadConfig] leaves it as written. *)
Theorem init_openai_header_unresolved (env : gmap (list N) (list N))
    (key : list N) :
  env !! js "OPENAI_API_KEY" = Some key -> key <> [] ->
  exists c b,
    loadConfig env (initConfig env) = inr c
    /\ ownProperty (Config.backends c) (js "openai") = Some b
    /\ Config.headers b !! js "authorization"
       = Some (js "Bearer $OPENAI_API_KEY").
Proof.
  intros Hkey Hne.
  assert (envValue env (js "OPENAI_API_KEY") = Some key) as Hset
    by (apply envValue_spec; auto).
  init_then_load env; try discriminate Hset.
  all: eexists; eexists; split; [reflexivity|]; split; [stored | reflexivity].
Qed.

Lemma init_openai_header_unresolved_witness :
  exists c b,
    loadConfig Sample2.env (initConfig Sample2.env) = inr c
    /\ ownProperty (Config.backends c) (js "openai") = Some b
    /\ Config.headers b !! js "authorization"
       = Some (js "Bearer $OPENAI_API_KEY").
Proof.
  apply (init_openai_header_unresolved Sample2.env (js "sk-456")).
  - reflexivity.
  - discriminate.
Defined.

(** X23. When ANTHROPIC_API_KEY is set, the configuration that [cmdInit]
    writes loads, and its [anthropic] backend injects the value of the
    variable as [x-api-key]. *)
Theorem init_anthropic_header_resolved (env : gmap (list N) (list N))
    (key : list N) :
  env !! js "ANTHROPIC_API_KEY" = Some key -> key <> [] ->
  exists c b,
    loadConfig env (initConfig env) = inr c
    /\ ownProperty (Config.backends c) (js "anthropic") = Some b
    /\ Config.target b = js "https://api.anthropic.com"
    /\ Config.allowedPaths b = Some [js "/v1/messages"]
    /\ Config.headers b !! js "x-api-key" = Some key.
Proof.
  intros Hkey Hne.
  assert (envValue env (js "ANTHROPIC_API_KEY") = Some key) as Hset
    by (apply envValue_spec; auto).
  init_then_load env; try discriminate Hset.
  all: injection Hset as ->.
  all: eexists; eexists; split; [reflexivity|]; split; [stored|].
  all: split; [reflexivity|]; split; [reflexivity|]; stored.
Qed.

Lemma init_anthropic_header_resolved_witness :
  exists c b,
    loadConfig Sample2.env (initConfig Sample2.env) = inr c
    /\ ownProperty (Config.backends c) (js "anthropic") = Some b
    /\ Config.target b = js "https://api.anthropic.com"
    /\ Config.allowedPaths b = Some [js "/v1/messages"]
    /\ Config.headers b !! js "x-api-key" = Some (js "sk-ant-123").
Proof.
  apply (init_anthropic_header_resolved Sample2.env (js "sk-ant-123")).
  - reflexivity.
  - discriminate.
Defined.

End Loading.

(* ===================================================================== *)
(** ** The audit log over its life *)
(* ===================================================================== *)

Section AuditLifecycle.

Import AuditFile.

Lemma exec_cons (log : AuditLog) (op : Op) (ops : list Op) :
  exec log (op :: ops) = exec (step log op) ops.
Proof. reflexivity. Qed.

Lemma step_lines (log : AuditLog) (op : Op) :
  (lines (step log op) = lines log
   /\ (fd log = None \/ forall e, op <> Write e))
  \/ (exists n e, fd log = Some n /\ op = Write e
                  /\ lines (step log op) = lines log ++ [e]).
Proof.
  destruct log as [[n|] lp ls], op as [newFd|e|]; cbn.
  all: try (left; split; [reflexivity|]; first [left; reflexivity
            | right; intros e'; discriminate]).
  right. exists n, e. auto.
Qed.

(** X24. Whatever is called on an [AuditLog], the file only grows: what
    it held stays at its start, and what is added are entries given to
    [write], in the order of the calls. *)
Theorem audit_log_append_only (log : AuditLog) (ops : list Op) :
  exists kept,
    read (exec log ops) = read log ++ kept /\ sublist kept (writes ops).
Proof.
  unfold read. revert log. induction ops as [|op ops IH]; intros log.
  - exists []. split; [symmetry; apply app_nil_r | constructor].
  - rewrite exec_cons. destruct (IH (step log op)) as (kept & Hk & Hs).
    destruct (step_lines log op) as [[Hl Hop] | (n & e & Hfd & -> & Hl)].
    + exists kept. split; [rewrite Hk, Hl; reflexivity|].
      destruct op as [newFd|e|]; cbn [writes omap]; try exact Hs.
      apply sublist_cons, Hs.
    + exists (e :: kept). split.
      * rewrite Hk, Hl, <- app_assoc. reflexivity.
      * cbn [writes omap]. apply sublist_skip, Hs.
Qed.

(** X25. While the log is open and [close] is not called, every entry
    given to [write] is appended, in the order of the calls. *)
Theorem open_log_keeps_every_entry (log : AuditLog) (ops : list Op) :
  fd log <> None -> forallb (fun op => negb (isClose op)) ops = true ->
  read (exec log ops) = read log ++ writes ops.
Proof.
  unfold read. revert log. induction ops as [|op ops IH]; intros log Hfd Hops.
  - symmetry. apply app_nil_r.
  - cbn [forallb] in Hops. apply andb_true_iff in Hops as [Hop Hops].
    rewrite exec_cons, IH; [|clear IH Hops|exact Hops].
    + destruct log as [[n|] lp ls]; [|contradiction].
      destruct op as [newFd|e|]; cbn; try discriminate Hop;
        rewrite <- ?app_assoc; reflexivity.
    + destruct log as [[n|] lp ls]; [|contradiction].
      destruct op as [newFd|e|]; cbn; discriminate.
Qed.

Lemma open_log_keeps_every_entry_witness :
  read (exec (open (create (js "./audit.log") [Sample2.entry 200]) 3)
          [Write (Sample2.entry 403); Open 4; Write (Sample2.entry 502)])
  = [Sample2.entry 200; Sample2.entry 403; Sample2.entry 502].
Proof.
  apply (open_log_keeps_every_entry
           (open (create (js "./audit.log") [Sample2.entry 200]) 3)
           [Write (Sample2.entry 403); Open 4; Write (Sample2.entry 502)]).
  - discriminate.
  - reflexivity.
Defined.

(** X26. A log that is not open, and on which [open] is not called,
    records nothing: [write] returns without a word and the file stays
    as it was. *)
Theorem closed_log_drops_entries (log : AuditLog) (ops : list Op) :
  fd log = None -> forallb (fun op => negb (isOpen op)) ops = true ->
  read (exec log ops) = read log /\ fd (exec log ops) = None.
Proof.
  unfold read. revert log. induction ops as [|op ops IH]; intros log Hfd Hops.
  - auto.
  - cbn [forallb] in Hops. apply andb_true_iff in Hops as [Hop Hops].
    rewrite exec_cons.
    assert (step log op = log) as ->.
    { destruct log as [[n|] lp ls]; [discriminate|].
      destruct op as [newFd|e|]; cbn; try discriminate Hop; reflexivity. }
    apply IH; assumption.
Qed.

Lemma closed_log_drops_entries_witness :
  read (exec (create (js "./audit.log") [])
          [Write (Sample2.entry 200); Close; Write (Sample2.entry 403)]) = []
  /\ fd (exec (create (js "./audit.log") [])
           [Write (Sample2.entry 200); Close; Write (Sample2.entry 403)])
     = None.
Proof.
  apply (closed_log_drops_entries (create (js "./audit.log") [])
           [Write (Sample2.entry 200); Close; Write (Sample2.entry 403)]).
  - reflexivity.
  - reflexivity.
Defined.

End AuditLifecycle.

(* ===================================================================== *)
(** ** Command-line arguments *)
(* ===================================================================== *)

Section CommandLine.

Import Cli.

Context {Num : Type} (parseInt : option (list N) -> Num).

Lemma not_daemonOnly (a : list N) :
  a ∉ daemonOnly ->
  streq a (js "--config") = false /\ streq a (js "-c") = false
  /\ streq a (js "--pid-file") = false /\ streq a (js "--log-file") = false.
Proof.
  unfold daemonOnly. rewrite !not_elem_of_cons, <- !streq_neq. tauto.
Qed.

(** The two loops, started from states that agree, end in states that
    agree. *)
Lemma loops_agree (n : nat) :
  forall (args : list (list N)) (opts : CliOptions) (st : Foreground),
    (length args <= n)%nat ->
    Forall (fun a => a ∉ daemonOnly) args ->
    configPath opts = Some (fgConfigPath st) ->
    port opts = portOverride st ->
    bind opts = bindOverride st ->
    configPath (parseFrom parseInt opts args)
      = Some (fgConfigPath (foregroundFrom parseInt st args))
    /\ port (parseFrom parseInt opts args)
       = portOverride (foregroundFrom parseInt st args)
    /\ bind (parseFrom parseInt opts args)
       = bindOverride (foregroundFrom parseInt st args).
Proof.
  induction n as [|n IH]; intros [|a rest] opts st Hlen Hall Hc Hp Hb;
    try (cbn in Hlen; lia); try (cbn; auto; fail).
  cbn [length] in Hlen.
  apply Forall_cons in Hall as [Ha Hrest].
  destruct (not_daemonOnly a Ha) as (H1 & H2 & H3 & H4).
  cbn [parseFrom foregroundFrom]. rewrite H1, H2, H3, H4. cbn [orb]. cbv zeta.
  destruct (streq a (js "--port") || streq a (js "-p")).
  { destruct rest as [|v rest]; [cbn; auto|].
    apply Forall_cons in Hrest as [_ Hrest].
    apply IH; [cbn in Hlen; lia | exact Hrest | | | ]; cbn; auto. }
  destruct (streq a (js "--bind") || streq a (js "-b")).
  { destruct rest as [|v rest]; [cbn; auto|].
    apply Forall_cons in Hrest as [_ Hrest].
    apply IH; [cbn in Hlen; lia | exact Hrest | | | ]; cbn; auto. }
  destruct (streq a (js "--install")) eqn:Hi.
  { apply streq_spec in Hi as ->.
    change (negb (startsWith (js "--install") (js "-"))) with false.
    cbv iota. apply IH; [lia | exact Hrest | | | ]; cbn; auto. }
  destruct (negb (startsWith a (js "-"))).
  - apply IH; [lia | exact Hrest | | | ]; cbn; auto.
  - apply IH; [lia | exact Hrest | | | ]; auto.
Qed.

(** X27. On arguments that hold none of [--config], [-c], [--pid-file]
    and [--log-file], the parser of the subcommands and the loop of
    [runForeground] read the same configuration path, port and bind
    address. *)
Theorem foreground_agrees_with_parseCliOptions (args : list (list N)) :
  Forall (fun a => a ∉ daemonOnly) args ->
  configPath (parseCliOptions parseInt args)
    = Some (fgConfigPath (foregroundArgs parseInt args))
  /\ port (parseCliOptions parseInt args)
     = portOverride (foregroundArgs parseInt args)
  /\ bind (parseCliOptions parseInt args)
     = bindOverride (foregroundArgs parseInt args).
Proof.
  intros Hall. unfold parseCliOptions, foregroundArgs.
  apply (loops_agree (length args)); auto.
Qed.

(** X28. When the first argument starts with a dash and no argument is
    [--help] or [-h], [main] reports an unknown command: options before
    the configuration path, as in [agentauth --port 8888 config.json],
    start nothing. *)
Theorem leading_option_is_unknown_command (command : list N)
    (rest : list (list N)) :
  startsWith command (js "-") = true ->
  hasArg (command :: rest) "--help" = false ->
  hasArg (command :: rest) "-h" = false ->
  main (command :: rest) = UnknownCommand command.
Proof.
  intros Hdash Hhelp Hh. unfold main. rewrite Hhelp, Hh.
  cbn [length Nat.eqb orb]. rewrite Hdash. cbn [negb].
  destruct command as [|c cs]; [discriminate Hdash|].
  assert (c = 45%N) as ->.
  { revert Hdash. unfold js. cbn [startsWith list_ascii_of_string List.map].
    rewrite andb_true_iff, N.eqb_eq. intros [H _]. symmetry. exact H. }
  reflexivity.
Qed.

End CommandLine.

Lemma foreground_agrees_with_parseCliOptions_witness :
  Cli.configPath
    (Cli.parseCliOptions (fun v => v)
       [js "--port"; js "8888"; js "my.json"; js "-b"])
  = Some (js "my.json")
  /\ Cli.port
       (Cli.parseCliOptions (fun v => v)
          [js "--port"; js "8888"; js "my.json"; js "-b"])
     = Some (Some (js "8888"))
  /\ Cli.bind
       (Cli.parseCliOptions (fun v => v)
          [js "--port"; js "8888"; js "my.json"; js "-b"])
     = None.
Proof.
  apply (foreground_agrees_with_parseCliOptions (fun v => v)
           [js "--port"; js "8888"; js "my.json"; js "-b"]).
  apply (bool_decide_unpack _). vm_compute. exact I.
Defined.

Lemma leading_option_is_unknown_command_witness :
  Cli.main [js "--port"; js "8888"; js "agentauth.json"]
  = Cli.UnknownCommand (js "--port").
Proof.
  apply (leading_option_is_unknown_command (js "--port")
           [js "8888"; js "agentauth.json"]);
    reflexivity.
Defined.

(* ===================================================================== *)
(** ** The environment check *)
(* ===================================================================== *)

Section EnvironmentCheck.

Import EnvDoctor.

Lemma startsWith_head (c p : N) (v ps : list N) :
  startsWith (c :: v) (p :: ps) = true -> c = p.
Proof.
  cbn [startsWith]. rewrite andb_true_iff, N.eqb_eq. intros [H _].
  symmetry. exact H.
Qed.

(** A value that a pattern of [VALUE_PATTERNS] matches begins with one of
    [s], [g], [B], [A], [x] and [e]. *)
Lemma identified_head (value label : list N) :
  identifyValue value = Some label ->
  exists c v,
    value = c :: v
    /\ (c = 115 \/ c = 103 \/ c = 66 \/ c = 65 \/ c = 120 \/ c = 101)%N.
Proof.
  destruct value as [|c v]; [discriminate|]. intros H. exists c, v.
  split; [reflexivity|]. revert H.
  unfold identifyValue, VALUE_PATTERNS. cbn [firstLabel].
  repeat match goal with
  | |- context [js ?s] =>
      let u := eval vm_compute in (js s) in change (js s) with u
  end.
  repeat match goal with
  | |- (if ?b then _ else _) = _ -> _ =>
      let E := fresh "E" in
      destruct b eqn:E;
      [ intros _;
        first [ apply startsWith_head in E
              | apply andb_true_iff in E as [E _];
                apply startsWith_head in E ];
        subst c; tauto | clear E ]
  end.
  discriminate.
Qed.

Lemma identified_not_safe (value label : list N) :
  identifyValue value = Some label ->
  (length value =? 0)%nat || has SAFE_VALUES (toLowerCase value) = false.
Proof.
  intros H. apply identified_head in H as (c & v & -> & Hc).
  destruct Hc as [-> | [-> | [-> | [-> | [-> | ->]]]]]; reflexivity.
Qed.

Lemma has_spec (set : list (list N)) (x : list N) :
  has set x = true <-> x ∈ set.
Proof.
  unfold has. induction set as [|y set IH]; cbn [existsb].
  - split; [discriminate | intros H; inversion H].
  - rewrite orb_true_iff, streq_spec, IH, elem_of_cons. reflexivity.
Qed.

(** X29. A variable whose value one of [VALUE_PATTERNS] matches is always
    among the findings, whatever its name: it is reported with the label
    of the first pattern that matches and its value redacted.  No such
    value is one of the safe values. *)
Theorem known_credential_always_reported (env : list (list N * list N))
    (var value label : list N) :
  (var, value) ∈ env -> identifyValue value = Some label ->
  {| name := var; redacted := redact value; reason := label |}
    ∈ envDoctor env.
Proof.
  intros Hin Hid. unfold envDoctor. apply list_elem_of_omap.
  exists (var, value). split; [exact Hin|].
  unfold inspect. cbv zeta. cbn [fst snd].
  rewrite (identified_not_safe value label Hid), Hid. reflexivity.
Qed.

Lemma known_credential_always_reported_witness :
  {| name := js "OPENAI_API_KEY"; redacted := js "sk-4***";
     reason := js "OpenAI API key" |} ∈ envDoctor Sample2.envEntries.
Proof.
  apply (known_credential_always_reported Sample2.envEntries
           (js "OPENAI_API_KEY") (js "sk-456") (js "OpenAI API key")).
  - unfold Sample2.envEntries. do 2 apply list_elem_of_further.
    apply list_elem_of_here.
  - reflexivity.
Defined.

(** X30. Every finding is about a variable of the environment whose value
    is neither empty nor, in lower case, one of the safe values, and shows
    of that value what [redact] leaves; findings come in the order of the
    environment. *)
Theorem findings_have_unsafe_values (env : list (list N * list N))
    (f : Finding) :
  f ∈ envDoctor env ->
  sublist (name <$> envDoctor env) env.*1
  /\ exists value,
       (name f, value) ∈ env /\ value <> []
       /\ (toLowerCase value ∉ SAFE_VALUES)
       /\ redacted f = redact value.
Proof.
  intros Hf. split.
  - clear Hf. unfold envDoctor.
    induction env as [|[var value] env IH]; [constructor|].
    cbn [omap list_omap fmap list_fmap fst].
    destruct (inspect (var, value)) as [f'|] eqn:E.
    + assert (name f' = var) as <-.
      { revert E. unfold inspect. cbv zeta. cbn [fst snd].
        destruct (_ || _); [discriminate|].
        destruct (identifyValue value); [intros [= <-]; reflexivity|].
        destruct (isSuspectName var); [intros [= <-]; reflexivity|].
        discriminate. }
      cbn [fmap list_fmap]. apply sublist_skip, IH.
    + apply sublist_cons, IH.
  - unfold envDoctor in Hf. apply list_elem_of_omap in Hf
      as ([var value] & Hin & Hi).
    revert Hi. unfold inspect. cbv zeta. cbn [fst snd].
    destruct (length value =? 0)%nat eqn:Hlen; [discriminate|].
    destruct (has SAFE_VALUES (toLowerCase value)) eqn:Hsafe; [discriminate|].
    cbn [orb]. intros Hi.
    assert (name f = var /\ redacted f = redact value) as [<- Hr].
    { destruct (identifyValue value); [injection Hi as <-; auto|].
      destruct (isSuspectName var); [injection Hi as <-; auto|].
      discriminate. }
    exists value. split; [exact Hin|]. split.
    { intros ->. discriminate Hlen. }
    split; [|exact Hr].
    intros Hs. apply has_spec in Hs. congruence.
Qed.

Lemma findings_have_unsafe_values_witness :
  exists value,
    (js "DB_PASSWORD", value) ∈ Sample2.envEntries /\ value <> []
    /\ (toLowerCase value ∉ SAFE_VALUES)
    /\ js "hunt***" = redact value.
Proof.
  apply (findings_have_unsafe_values Sample2.envEntries
           {| name := js "DB_PASSWORD"; redacted := js "hunt***";
              reason := js "name matches secret pattern" |}).
  apply (list_elem_of_omap inspect).
  exists (js "DB_PASSWORD", js "hunter2hunter2"). split; [|reflexivity].
  unfold Sample2.envEntries. do 3 apply list_elem_of_further.
  apply list_elem_of_here.
Defined.

End EnvironmentCheck.
